(** * OCR Automator: field extraction and normalization pipeline

    Shallow embedding of the Python sources
      - [geocoding_utils.py]           (RUT check digit)
      - [process_itau_auto_v2.py]      (text normalizer, debug merge, row cleaning)
      - [process_itau_unified_v1.py]   (document classifier, RUT candidates, row assembly, batch loop)
      - [ocr_to_csv.py]                (page OCR driver, empty row, batch loop)
    and the properties of the specification that are about them.

    Python [str] values are lists of Unicode code points ([list N]); dictionaries
    are stdpp [gmap]s; an exception that escapes a function is the [None] of an
    [option] result. *)

From Stdlib Require Import ZArith NArith List Ascii String Bool Lia.
From Stdlib Require Import DecimalString Sorted Permutation.
From Stdlib Require Floats.
From stdpp Require Import gmap strings list.

Local Open Scope N_scope.

(** ** Python strings *)

Module Py.

(** A [str] is a sequence of code points. *)
Abbreviation pystr := (list N).

(** Decoder for the UTF-8 bytes of a Rocq string literal, so that the literals
    of the sources can be written as they are: [py "Cédula"]. *)
Fixpoint utf8_decode (bs : list N) : pystr :=
  match bs with
  | [] => []
  | b :: r =>
      if b <? 0x80 then b :: utf8_decode r
      else if b <? 0xE0 then
        match r with
        | b1 :: r1 => ((b - 0xC0) * 64 + (b1 - 0x80)) :: utf8_decode r1
        | _ => []
        end
      else if b <? 0xF0 then
        match r with
        | b1 :: b2 :: r2 =>
            ((b - 0xE0) * 4096 + (b1 - 0x80) * 64 + (b2 - 0x80)) :: utf8_decode r2
        | _ => []
        end
      else
        match r with
        | b1 :: b2 :: b3 :: r3 =>
            ((b - 0xF0) * 262144 + (b1 - 0x80) * 4096 + (b2 - 0x80) * 64 + (b3 - 0x80))
              :: utf8_decode r3
        | _ => []
        end
  end.

Definition py (s : string) : pystr :=
  utf8_decode (map N_of_ascii (list_ascii_of_string s)).

Definition str_eqb (a b : pystr) : bool := bool_decide (a = b).

Definition newline : pystr := [0x0A].

(** Truthiness of a string: [if s:] / [if not s:]. *)
Definition truthy (s : pystr) : bool :=
  match s with [] => false | _ => true end.

(** *** Character predicates

    The predicates follow CPython 3.11 on the code points below U+0250 (Basic
    Latin, Latin-1 Supplement, Latin Extended-A and -B); the white-space set is
    complete for all of Unicode.  Code points from U+0250 on that are not
    listed are classified as caseless symbols: neither digit nor word
    character. *)

(** [str.isspace] on one character, which is also the class [\s] of [re]. *)
Definition isspace (c : N) : bool :=
  ((0x09 <=? c) && (c <=? 0x0D)) || ((0x1C <=? c) && (c <=? 0x20))
  || (c =? 0x85) || (c =? 0xA0) || (c =? 0x1680)
  || ((0x2000 <=? c) && (c <=? 0x200A))
  || (c =? 0x2028) || (c =? 0x2029) || (c =? 0x202F) || (c =? 0x205F) || (c =? 0x3000).

(** The class [\d] of [re]: decimal digits (category Nd). *)
Definition is_decimal (c : N) : bool := (0x30 <=? c) && (c <=? 0x39).

(** [str.isdigit] on one character: decimal digits and the superscripts
    U+00B2, U+00B3, U+00B9, which [int] does not accept. *)
Definition isdigit_char (c : N) : bool :=
  is_decimal c || (c =? 0xB2) || (c =? 0xB3) || (c =? 0xB9).

(** [s.isdigit()]: false on the empty string. *)
Definition isdigit (s : pystr) : bool :=
  truthy s && forallb isdigit_char s.

(** [int(d)] on a one-character string; [None] is the [ValueError]. *)
Definition int_of_char (c : N) : option Z :=
  if is_decimal c then Some (Z.of_N c - 48)%Z else None.

(** The class [\w] of [re]: alphanumerics and the underscore. *)
Definition is_word (c : N) : bool :=
  is_decimal c
  || ((0x41 <=? c) && (c <=? 0x5A)) || (c =? 0x5F) || ((0x61 <=? c) && (c <=? 0x7A))
  || (c =? 0xAA) || (c =? 0xB2) || (c =? 0xB3) || (c =? 0xB5) || (c =? 0xB9) || (c =? 0xBA)
  || ((0xBC <=? c) && (c <=? 0xBE)) || ((0xC0 <=? c) && (c <=? 0xD6))
  || ((0xD8 <=? c) && (c <=? 0xF6)) || ((0xF8 <=? c) && (c <=? 0x24F))
  || (c =? 0x39C) || (c =? 0x3BC) || (c =? 0x212A) || (c =? 0x212B)
  || (c =? 0xFB01) || (c =? 0xFB02).

(** [str.upper] on one character; exact below U+0100 and on the listed
    code points. *)
Definition upper_char (c : N) : pystr :=
  if ((0x61 <=? c) && (c <=? 0x7A)) then [c - 32]
  else if (c =? 0xB5) then [0x39C]
  else if (c =? 0xDF) then [0x53; 0x53]
  else if ((0xE0 <=? c) && (c <=? 0xFE) && negb (c =? 0xF7)) then [c - 32]
  else if (c =? 0xFF) then [0x178]
  else if (c =? 0x131) then [0x49]
  else if (c =? 0x17F) then [0x53]
  else if (c =? 0xFB01) then [0x46; 0x49]
  else if (c =? 0xFB02) then [0x46; 0x4C]
  else [c].

Definition upper (s : pystr) : pystr := flat_map upper_char s.

(** [str.lower] on one character (simple lower-case mapping, the one [re]
    uses under [IGNORECASE]); exact on every code point whose image is a
    Basic Latin or Latin-1 letter. *)
Definition lower_char (c : N) : N :=
  if ((0x41 <=? c) && (c <=? 0x5A)) then c + 32
  else if ((0xC0 <=? c) && (c <=? 0xDE) && negb (c =? 0xD7)) then c + 32
  else if (c =? 0x130) then 0x69
  else if (c =? 0x212A) then 0x6B
  else if (c =? 0x212B) then 0xE5
  else c.

(** *** String methods *)

Fixpoint lstrip_by (p : N -> bool) (s : pystr) : pystr :=
  match s with
  | [] => []
  | c :: r => if p c then lstrip_by p r else s
  end.

Fixpoint rstrip_by (p : N -> bool) (s : pystr) : pystr :=
  match s with
  | [] => []
  | c :: r =>
      match rstrip_by p r with
      | [] => if p c then [] else [c]
      | r' => c :: r'
      end
  end.

Definition strip_by (p : N -> bool) (s : pystr) : pystr :=
  rstrip_by p (lstrip_by p s).

(** [s.strip()] *)
Definition strip (s : pystr) : pystr := strip_by isspace s.

(** [s.strip(chars)] *)
Definition strip_chars (chars s : pystr) : pystr :=
  strip_by (fun c => existsb (N.eqb c) chars) s.

Fixpoint starts_with (p s : pystr) : bool :=
  match p, s with
  | [], _ => true
  | a :: p', b :: s' => (a =? b) && starts_with p' s'
  | _ :: _, [] => false
  end.

(** [sub in s] *)
Fixpoint contains (sub s : pystr) : bool :=
  starts_with sub s ||
  match s with
  | [] => false
  | _ :: r => contains sub r
  end.

(** [s.find(sub)] as an option: [None] is Python's -1. *)
Fixpoint find_from (sub s : pystr) (i : nat) : option nat :=
  if starts_with sub s then Some i
  else match s with
       | [] => None
       | _ :: r => find_from sub r (S i)
       end.

(** [s.replace(old, new)] for a non-empty [old]: the occurrences are replaced
    from the left and do not overlap.  [skip] counts the characters of the
    occurrence being replaced that are still to be dropped. *)
Fixpoint replace_aux (old new : pystr) (skip : nat) (s : pystr) : pystr :=
  match s with
  | [] => []
  | c :: r =>
      match skip with
      | S k => replace_aux old new k r
      | O =>
          if starts_with old s
          then new ++ replace_aux old new (Nat.pred (length old)) r
          else c :: replace_aux old new O r
      end
  end.

Definition replace (old new s : pystr) : pystr := replace_aux old new O s.

(** [s[a:b]] for non-negative bounds. *)
Definition slice (a b : nat) (s : pystr) : pystr := take (b - a) (drop a s).

(** [sep.join(parts)] *)
Fixpoint join (sep : pystr) (parts : list pystr) : pystr :=
  match parts with
  | [] => []
  | [p] => p
  | p :: rest => p ++ sep ++ join sep rest
  end.

(** [s.split(sep)] for a one-character separator: always at least one part. *)
Fixpoint split_char (sep : N) (s : pystr) : list pystr :=
  match s with
  | [] => [[]]
  | c :: r =>
      if c =? sep then [] :: split_char sep r
      else match split_char sep r with
           | p :: ps => (c :: p) :: ps
           | [] => [[c]]
           end
  end.

(** [str(n)] for an integer. *)
Definition str_of_Z (n : Z) : pystr :=
  py (NilZero.string_of_int (Z.to_int n)).

(** [range(start, stop, step)] for a positive step; [fuel] bounds the number
    of elements. *)
Fixpoint range_from (fuel start stop step : nat) : list nat :=
  match fuel with
  | O => []
  | S f =>
      if (start <? stop)%nat then start :: range_from f (start + step) stop step else []
  end.

Definition range (start stop step : nat) : list nat := range_from stop start stop step.

(** [s.endswith(suffix)] *)
Definition ends_with (suffix s : pystr) : bool := starts_with (rev suffix) (rev s).

(** [s.lower()]; exact below U+0100 and on the code points that
    [lower_char] lists.  U+0130 becomes an "i" followed by U+0307. *)
Definition lower (s : pystr) : pystr :=
  flat_map (fun c => if c =? 0x130 then [0x69; 0x307] else [lower_char c]) s.

(** [s.split()]: the words of [s], which runs of white space separate. *)
Fixpoint split_ws (s : pystr) : list pystr :=
  match s with
  | [] => []
  | c :: r =>
      if isspace c then split_ws r
      else
        match r with
        | [] => [[c]]
        | d :: _ =>
            if isspace d then [c] :: split_ws r
            else match split_ws r with
                 | w :: ws => (c :: w) :: ws
                 | [] => [[c]]
                 end
        end
  end.

(** [s.zfill(width)]: zeros on the left, after a sign. *)
Definition zfill (width : nat) (s : pystr) : pystr :=
  let zeros := repeat 0x30 (width - length s) in
  match s with
  | c :: r => if (c =? 0x2B) || (c =? 0x2D) then c :: zeros ++ r else zeros ++ s
  | [] => zeros
  end.

(** [s[-1]] as a string, for a non-empty [s]. *)
Definition last_char (s : pystr) : pystr := drop (length s - 1) s.

End Py.

Import Py.

(** ** RUT validator ([geocoding_utils.py]) *)

Module Geocoding.

(** [re.sub(r'[^\d]', '', s)] *)
Definition sub_non_digits (s : pystr) : pystr := List.filter is_decimal s.

(** [[int(d) for d in s]]; [None] when some [int(d)] raises. *)
Fixpoint ints_of (s : pystr) : option (list Z) :=
  match s with
  | [] => Some []
  | c :: r =>
      match int_of_char c, ints_of r with
      | Some d, Some ds => Some (d :: ds)
      | _, _ => None
      end
  end.

Definition factors : list Z := [2; 3; 4; 5; 6; 7]%Z.

(** [sum(d * factors[i % len(factors)] for i, d in enumerate(ds))], with [i]
    the index of the first element. *)
Fixpoint weighted_sum (i : nat) (ds : list Z) : Z :=
  match ds with
  | [] => 0
  | d :: r => (d * nth (i mod length factors) factors 0 + weighted_sum (S i) r)%Z
  end.

Definition calculate_dv (rut : pystr) : option pystr :=
  if negb (isdigit rut) then Some []
  else
    match ints_of (rev rut) with
    | None => None
    | Some reversed_digits =>
        let total := weighted_sum 0 reversed_digits in
        let remainder := (11 - total mod 11)%Z in
        if (remainder =? 11)%Z then Some (py "0")
        else if (remainder =? 10)%Z then Some (py "K")
        else Some (str_of_Z remainder)
    end.

Definition validate_rut_dv (rut dv : pystr) : option (pystr * pystr * bool) :=
  if negb (truthy rut) then Some ([], [], false)
  else
    let rut_clean := sub_non_digits rut in
    if negb (truthy rut_clean) then Some ([], [], false)
    else
      match calculate_dv rut_clean with
      | None => None
      | Some dv_calculated =>
          let dv_clean := if truthy dv then strip (upper dv) else [] in
          let is_valid := str_eqb dv_clean dv_calculated in
          Some (rut_clean, dv_calculated, is_valid)
      end.

(** *** Comuna names *)

(** The elements of the set [VALID_COMUNAS]. *)
Definition VALID_COMUNAS_names : list string :=
  [
    "SANTIAGO"; "LAS CONDES"; "PROVIDENCIA"; "ÑUÑOA"; "MAIPU"; "PUENTE ALTO"; "LA FLORIDA";
    "CONCEPCION"; "CONCEPCIÓN"; "CORONEL"; "PUERTO AYSÉN"; "PUERTO AYSEN"; "TALCAHUANO";
    "TALCA"; "VALPARAISO"; "VALPARAÍSO"; "VIÑA DEL MAR"; "QUILPUE"; "QUILPUÉ";
    "PUERTO MONTT"; "TEMUCO"; "ANTOFAGASTA"; "COPIAPO"; "COPIAPÓ"; "RANCAGUA"; "OSORNO";
    "LA SERENA"; "CHILLAN"; "CHILLÁN"; "PUNTA ARENAS"; "CURICO"; "CURICÓ"; "ILLAPEL";
    "COQUIMBO"; "LINARES"; "IQUIQUE"; "SAN BERNARDO"; "COLINA"; "VITACURA";
    "PEDRO AGUIRRE CERDA"; "PUERTO VARAS"; "VALDIVIA"; "ARICA"; "CALAMA"; "LA REINA";
    "PEÑALOLEN"; "PEÑALOLÉN"; "MACUL"; "SAN MIGUEL"; "INDEPENDENCIA"; "RECOLETA";
    "QUINTA NORMAL"; "ESTACION CENTRAL"; "CERRO NAVIA"; "LO PRADO"; "PUDAHUEL";
    "CERRILLOS"; "MAIPÚ"; "ESTACIÓN CENTRAL" ]%string.

Definition VALID_COMUNAS : gset pystr := list_to_set (map py VALID_COMUNAS_names).

(** The items of the dictionary [COMUNA_CORRECTIONS]. *)
Definition COMUNA_CORRECTIONS_items : list (string * string) :=
  [
    ("LAS CONDE", "LAS CONDES"); ("TAMUCO", "TEMUCO"); ("TEMUK0", "TEMUCO");
    ("T3MUCO", "TEMUCO"); ("SANTIAG0", "SANTIAGO"); ("5ANTIAGO", "SANTIAGO");
    ("C0NCEPC10N", "CONCEPCIÓN"); ("VALPARAI50", "VALPARAÍSO");
    ("PUERTO M0NTT", "PUERTO MONTT") ]%string.

Definition COMUNA_CORRECTIONS : gmap pystr pystr :=
  list_to_map (map (fun kv => (py (fst kv), py (snd kv))) COMUNA_CORRECTIONS_items).

Section Comunas.

Import PrimFloat.

(** [float(n)] for the size of a set. *)
Definition float_of_nat (n : nat) : float := of_uint63 (Uint63.of_Z (Z.of_nat n)).

(** The true division [common / total] of two sizes is the division of the
    floats. *)
Definition calculate_similarity (s1 s2 : pystr) : float :=
  if negb (truthy s1) || negb (truthy s2) then 0%float
  else
    let chars1 : gset N := list_to_set (lower s1) in
    let chars2 : gset N := list_to_set (lower s2) in
    let common := size (chars1 ∩ chars2) in
    let total := size (chars1 ∪ chars2) in
    if (0 <? total)%nat then (float_of_nat common / float_of_nat total)%float else 0%float.

(** The body of the similarity loop of [fix_comuna_ocr] on its variables
    [best_match] and [max_similarity]. *)
Definition similarity_step (comuna_clean : pystr) (st : option pystr * float)
    (valid_comuna : pystr) : option pystr * float :=
  let '(best_match, max_similarity) := st in
  let similarity := calculate_similarity comuna_clean valid_comuna in
  if (max_similarity <? similarity)%float && (0x1.6666666666666p-1 <? similarity)%float
  then (Some valid_comuna, similarity)
  else st.

(** The order in which Python iterates over a set of strings: some
    enumeration of its elements. *)
Variable iter_set : gset pystr -> list pystr.

(** [valid_comuna in comuna_clean or comuna_clean in valid_comuna] *)
Definition partial_match (comuna_clean valid_comuna : pystr) : bool :=
  contains valid_comuna comuna_clean || contains comuna_clean valid_comuna.

(** The steps of [fix_comuna_ocr] on the cleaned name [comuna_clean]: the
    direct correction, the exact match, the partial match, the similarity
    loop. *)
Definition fix_comuna_clean (comuna_clean : pystr) : pystr :=
  match COMUNA_CORRECTIONS !! comuna_clean with
  | Some corrected => corrected
  | None =>
      if bool_decide (comuna_clean ∈ VALID_COMUNAS) then comuna_clean
      else
        match List.find (partial_match comuna_clean) (iter_set VALID_COMUNAS) with
        | Some valid_comuna => valid_comuna
        | None =>
            let '(best_match, _) :=
              fold_left (similarity_step comuna_clean) (iter_set VALID_COMUNAS)
                (None, 0%float) in
            match best_match with
            | Some best => if truthy best then best else comuna_clean
            | None => comuna_clean
            end
        end
  end.

Definition fix_comuna_ocr (comuna : pystr) : pystr :=
  if negb (truthy comuna) then []
  else
    let comuna_clean := strip (upper comuna) in
    fix_comuna_clean comuna_clean.

End Comunas.

End Geocoding.


(** ** Text normalizer, RUT cleaning and debug merge ([process_itau_auto_v2.py]) *)

Module ItauAuto.

(** *** The external normalizer [unicodedata.normalize("NFC", s)]

    Model of canonical composition for the combining acute accent U+0301: a
    base letter directly followed by U+0301 is replaced by the precomposed
    letter.  It agrees with CPython on every string over Basic Latin, U+0301,
    U+200B, U+201C, U+201D and U+FFFD; on other strings it may compose less
    than the library does.  The theorems below that hold for every string use
    the normalizer only through properties the library function has as well. *)

Definition combining_acute : N := 0x301.

(** Primary composites of an ASCII letter with U+0301. *)
Definition compose_acute (c : N) : option N :=
  let table : list (N * N) :=
    [ (0x41, 0xC1); (0x43, 0x106); (0x45, 0xC9); (0x47, 0x1F4); (0x49, 0xCD);
      (0x4B, 0x1E30); (0x4C, 0x139); (0x4D, 0x1E3E); (0x4E, 0x143); (0x4F, 0xD3);
      (0x50, 0x1E54); (0x52, 0x154); (0x53, 0x15A); (0x55, 0xDA); (0x57, 0x1E82);
      (0x59, 0xDD); (0x5A, 0x179);
      (0x61, 0xE1); (0x63, 0x107); (0x65, 0xE9); (0x67, 0x1F5); (0x69, 0xED);
      (0x6B, 0x1E31); (0x6C, 0x13A); (0x6D, 0x1E3F); (0x6E, 0x144); (0x6F, 0xF3);
      (0x70, 0x1E55); (0x72, 0x155); (0x73, 0x15B); (0x75, 0xFA); (0x77, 0x1E83);
      (0x79, 0xFD); (0x7A, 0x17A) ] in
  snd <$> List.find (fun e => fst e =? c) table.

Fixpoint normalize_NFC (s : pystr) : pystr :=
  match s with
  | [] => []
  | c :: r =>
      match r with
      | m :: r' =>
          if m =? combining_acute then
            match compose_acute c with
            | Some c' => c' :: normalize_NFC r'
            | None => c :: normalize_NFC r
            end
          else c :: normalize_NFC r
      | [] => [c]
      end
  end.

(** [re.sub(r"\s+", " ", s)]: every maximal run of white space becomes one
    space.  [in_run] tells that the previous character was white space. *)
Fixpoint sub_spaces (in_run : bool) (s : pystr) : pystr :=
  match s with
  | [] => []
  | c :: r =>
      if isspace c
      then (if in_run then sub_spaces true r else 0x20 :: sub_spaces true r)
      else c :: sub_spaces false r
  end.

(** [s.replace(c, "")] for a one-character [c]. *)
Definition remove_char (c : N) (s : pystr) : pystr :=
  List.filter (fun x => negb (x =? c)) s.

Section Normalizer.

(** The optional dependency [ftfy]: [None] when the import failed, otherwise
    [ftfy.fix_text], whose own [None] stands for a raised exception. *)
Variable ftfy : option (pystr -> option pystr).

Definition fix_text_fallback (s : pystr) : pystr :=
  let s := normalize_NFC s in
  remove_char 0xFFFD s.

Definition fix_text (s : option pystr) : pystr :=
  match s with
  | None => []
  | Some s =>
      match ftfy with
      | Some ftfy_fix_text =>
          match ftfy_fix_text s with
          | Some r => r
          | None => fix_text_fallback s
          end
      | None => fix_text_fallback s
      end
  end.

Definition clean_text_value (s : option pystr) : pystr :=
  match s with
  | None => []
  | Some s =>
      let s := fix_text (Some s) in
      let s := remove_char 0x200B s in
      let s := remove_char 0x201D (remove_char 0x201C (remove_char 0x22 s)) in
      let s := strip (sub_spaces false s) in
      s
  end.

(** [re.sub(r"[^\dkK]", "", rut or "")] *)
Definition rut_clean_digits (rut : pystr) : pystr :=
  List.filter (fun c => is_decimal c || (c =? 0x6B) || (c =? 0x4B)) rut.

Definition rut_calc_dv (num_str : pystr) : option pystr :=
  if negb (isdigit num_str) then Some []
  else
    match Geocoding.ints_of (rev num_str) with
    | None => None
    | Some reversed_digits =>
        let s := Geocoding.weighted_sum 0 reversed_digits in
        let mod_ := (11 - s mod 11)%Z in
        if (mod_ =? 11)%Z then Some (py "0")
        else if (mod_ =? 10)%Z then Some (py "K")
        else Some (str_of_Z mod_)
    end.

Definition normalize_rut_and_dv (rut dv : pystr)
  : option (pystr * pystr * pystr * bool) :=
  let rut_num := rut_clean_digits rut in
  let dv_clean := upper (clean_text_value (Some dv)) in
  calc ← (if truthy rut_num then rut_calc_dv rut_num else Some []);
  let valid :=
    if truthy rut_num && truthy dv_clean then str_eqb calc dv_clean else true in
  Some (rut_num, dv_clean, calc, valid).

(** *** Rows and counters *)

(** [d.get(k, "")] *)
Definition get_str (d : gmap string pystr) (k : string) : pystr :=
  default [] (d !! k).

(** [stats[k] = stats.get(k, 0) + 1] *)
Definition bump (k : string) (stats : gmap string Z) : gmap string Z :=
  <[k := (default 0 (stats !! k) + 1)%Z]> stats.

(** The RUT/DV step of [clean_and_normalize_row]; the steps before it rewrite
    the cells and other counters, the one after it counts unknown communes. *)
Definition clean_and_normalize_row_rut_dv
    (row : gmap string pystr) (strict_dv : bool) (stats : gmap string Z)
  : option (gmap string pystr * gmap string Z) :=
  let rut_before := get_str row "RUT" in
  let dv_before := get_str row "DV" in
  '(rut_num, dv_clean, dv_calc, ok) ← normalize_rut_and_dv rut_before dv_before;
  let stats :=
    if negb (str_eqb rut_num rut_before) || negb (str_eqb dv_clean dv_before)
    then bump "normalized_rut" stats else stats in
  let row := <["RUT" := rut_num]> row in
  let row := <["DV" := dv_clean]> row in
  if truthy rut_num && truthy dv_clean && negb ok then
    let stats := bump "rut_invalid" stats in
    let row := if strict_dv && truthy dv_calc then <["DV" := dv_calc]> row else row in
    Some (row, stats)
  else Some (row, stats).

(** *** Debug merge *)

(** Truthiness of the result of [debug_map.get(k)]: [None] and the empty
    dictionary are false. *)
Definition truthy_entry (cand : option (gmap string pystr)) : bool :=
  match cand with
  | Some d => negb (bool_decide (d = ∅))
  | None => false
  end.

(** The loop over [key_opts]; [cand] is the value left by the keys seen so
    far. *)
Fixpoint find_cand (debug_map : gmap pystr (gmap string pystr))
    (key_opts : list pystr) (cand : option (gmap string pystr))
  : option (gmap string pystr) :=
  match key_opts with
  | [] => cand
  | k :: rest =>
      if negb (truthy k) then find_cand debug_map rest cand
      else
        let cand := debug_map !! k in
        if truthy_entry cand then cand else find_cand debug_map rest cand
  end.

Definition pairs : list (string * string) :=
  [ ("NOMBRE", "NOMBRE"); ("DIRECCION", "DIRECCION"); ("COMUNA", "COMUNA");
    ("FECHA_SUSCRIPCION", "FECHA_SUSCRIPCION"); ("MONTO_CREDITO", "MONTO_CREDITO");
    ("FECHA_VENCIMIENTO_1_CUOTA", "FECHA_VENCIMIENTO_1_CUOTA");
    ("FECHA_VENCIMIENTO_ULTIMA_CUOTA", "FECHA_VENCIMIENTO_ULTIMA_CUOTA");
    ("CAPITAL", "CAPITAL"); ("PRODUCTO", "PRODUCTO");
    ("NOMBRE_APODERADO", "NOMBRE_APODERADO"); ("NOMBRE_APODERADO_2", "NOMBRE_APODERADO_2") ]%string.

(** One iteration of the loop over [pairs]. *)
Definition merge_field (mode : pystr) (cand : gmap string pystr)
    (st : gmap string pystr * gmap string Z) (p : string * string)
  : gmap string pystr * gmap string Z :=
  let '(row, stats_fill) := st in
  let '(f_csv, f_dbg) := p in
  let v_csv := clean_text_value (Some (get_str row f_csv)) in
  let v_dbg := clean_text_value (Some (get_str cand f_dbg)) in
  if str_eqb mode (py "only_blanks") then
    if negb (truthy v_csv) && truthy v_dbg
    then (<[f_csv := v_dbg]> row, bump f_csv stats_fill)
    else (row, stats_fill)
  else if str_eqb mode (py "prefer_debug") then
    if truthy v_dbg && negb (str_eqb v_dbg v_csv)
    then (<[f_csv := v_dbg]> row, bump f_csv stats_fill)
    else (row, stats_fill)
  else (row, stats_fill).

(** The function mutates [row], [stats_fill] and [stats] in place; the model
    returns the three of them. *)
Definition merge_from_debug (row : gmap string pystr)
    (debug_map : gmap pystr (gmap string pystr)) (mode : pystr)
    (stats_fill : gmap string Z) (stats : gmap string Z)
  : gmap string pystr * gmap string Z * gmap string Z :=
  if str_eqb mode (py "none") || bool_decide (debug_map = ∅)
  then (row, stats_fill, stats)
  else
    let key_opts :=
      [ strip (get_str row "OPERACION");
        strip_chars (py "-")
          (get_str row "RUT" ++ py "-" ++ get_str row "DV" ++ py "-" ++ get_str row "NOMBRE") ] in
    match find_cand debug_map key_opts None with
    | Some cand =>
        if truthy_entry (Some cand) then
          let stats := bump "debug_merge_hits" stats in
          let '(row, stats_fill) :=
            fold_left (merge_field mode cand) pairs (row, stats_fill) in
          (row, stats_fill, stats)
        else (row, stats_fill, bump "debug_merge_misses" stats)
    | None => (row, stats_fill, bump "debug_merge_misses" stats)
    end.

(** *** Integer fields *)

Definition normalize_int_digits (s : pystr) : pystr :=
  if negb (truthy s) then []
  else
    let s := clean_text_value (Some s) in
    Geocoding.sub_non_digits
      (hd [] (split_char 0x2C (remove_char 0x20 (remove_char 0x2E s)))).

Definition format_int (value thousand_sep : pystr) : pystr :=
  if negb (truthy value) || negb (isdigit value) then value
  else if str_eqb thousand_sep (py "none") then value
  else
    let sep := if str_eqb thousand_sep (py "dot") then py "." else py "," in
    let rev_ := rev value in
    let groups := map (fun i => slice i (i + 3) rev_) (range 0 (length rev_) 3) in
    rev (join sep groups).

(** One iteration of the loop over [INT_FIELDS] in [clean_and_normalize_row]. *)
Definition normalize_int_field (thousand_sep : pystr) (k : string)
    (st : gmap string pystr * gmap string Z) : gmap string pystr * gmap string Z :=
  let '(row, stats) := st in
  let before := get_str row k in
  let digits := normalize_int_digits before in
  let formatted := format_int digits thousand_sep in
  let row := <[k := formatted]> row in
  if negb (str_eqb formatted before)
  then (row, bump "normalized_ints" stats) else (row, stats).

(** *** Rates, headers and the output row *)

Definition normalize_percent (s : pystr) : pystr :=
  if negb (truthy s) then []
  else
    let s := remove_char 0x20 (clean_text_value (Some s)) in
    if ends_with (py "%") s then
      let num := replace (py ",") (py ".") (removelast s) in
      num ++ py "%"
    else s.

(** [CANONICAL_HEADERS] of [constants.py]. *)
Definition CANONICAL_HEADERS : list string :=
  [ "OPERACION_1"; "RUT"; "DV"; "NOMBRE"; "DIRECCION"; "COMUNA";
    "FECHA_SUSCRIPCION_1"; "MONTO_CREDITO_1"; "CUOTAS_1"; "TASA_1"; "MONTO_CUOTA_1";
    "MONTO_ULTIMA_CUOTA_1";
    "FECHA_VENCIMIENTO_1ª_CUOTA_1"; "FECHA_VENCIMIENTO_ULTIMA_CUOTA_1";
    "CUOTA_MOROSA_1"; "FECHA_CUOTA_MOROSA_1";
    "CAPITAL_1"; "EXHORTO"; "SUCURSAL"; "PRODUCTO"; "NOMBRE_APODERADO";
    "NOMBRE_APODERADO_2" ]%string.

(** The items of the dictionary [HEADER_ALIASES] of [constants.py]; the keys
    are pairwise different. *)
Definition HEADER_ALIASES_items : list (string * string) :=
  [
    ("operacion", "OPERACION_1"); ("numero_operacion", "OPERACION_1");
    ("num_operacion", "OPERACION_1"); ("op", "OPERACION_1"); ("rut_cliente", "RUT");
    ("rutcliente", "RUT"); ("rut cliente", "RUT"); ("cedula", "RUT");
    ("digito_verificador", "DV"); ("dv", "DV"); ("nombre_completo", "NOMBRE");
    ("nombre completo", "NOMBRE"); ("nombres", "NOMBRE"); ("apellidos", "NOMBRE");
    ("razón social", "NOMBRE"); ("razon social", "NOMBRE"); ("deudor", "NOMBRE");
    ("cliente", "NOMBRE"); ("direccion", "DIRECCION"); ("dirección", "DIRECCION");
    ("domicilio", "DIRECCION"); ("domicilio particular", "DIRECCION"); ("ciudad", "COMUNA");
    ("localidad", "COMUNA"); ("fecha_suscripcion", "FECHA_SUSCRIPCION_1");
    ("fecha suscripcion", "FECHA_SUSCRIPCION_1"); ("fecha_contrato", "FECHA_SUSCRIPCION_1");
    ("fecha contrato", "FECHA_SUSCRIPCION_1"); ("fecha_firma", "FECHA_SUSCRIPCION_1");
    ("fecha firma", "FECHA_SUSCRIPCION_1"); ("monto", "MONTO_CREDITO_1");
    ("monto_credito", "MONTO_CREDITO_1"); ("monto credito", "MONTO_CREDITO_1");
    ("monto crédito", "MONTO_CREDITO_1"); ("valor credito", "MONTO_CREDITO_1");
    ("importe", "MONTO_CREDITO_1"); ("cantidad", "MONTO_CREDITO_1"); ("cuotas", "CUOTAS_1");
    ("numero cuotas", "CUOTAS_1"); ("num_cuotas", "CUOTAS_1"); ("plazo", "CUOTAS_1");
    ("plazo_meses", "CUOTAS_1"); ("plazo meses", "CUOTAS_1"); ("tasa", "TASA_1");
    ("tasa_interes", "TASA_1"); ("tasa interes", "TASA_1"); ("tasa interés", "TASA_1");
    ("tasa anual", "TASA_1"); ("interes", "TASA_1"); ("interés", "TASA_1");
    ("monto_cuota", "MONTO_CUOTA_1"); ("cuota_mensual", "MONTO_CUOTA_1");
    ("valor_cuota", "MONTO_CUOTA_1"); ("iguales", "MONTO_CUOTA_1"); ("mpc", "MONTO_CUOTA_1");
    ("monto_ultima_cuota", "MONTO_ULTIMA_CUOTA_1"); ("ultima_cuota", "MONTO_ULTIMA_CUOTA_1");
    ("muc", "MONTO_ULTIMA_CUOTA_1"); ("fecha_primera_cuota", "FECHA_VENCIMIENTO_1_CUOTA_1");
    ("fecha_vencimiento_primera", "FECHA_VENCIMIENTO_1_CUOTA_1");
    ("fpv", "FECHA_VENCIMIENTO_1_CUOTA_1");
    ("fecha_ultima_cuota", "FECHA_VENCIMIENTO_ULTIMA_CUOTA_1");
    ("fecha_vencimiento_ultima", "FECHA_VENCIMIENTO_ULTIMA_CUOTA_1");
    ("fuv", "FECHA_VENCIMIENTO_ULTIMA_CUOTA_1"); ("capital", "CAPITAL_1");
    ("capital_insoluto", "CAPITAL_1"); ("saldo_capital", "CAPITAL_1"); ("exhorto", "EXHORTO");
    ("tribunal", "EXHORTO"); ("juzgado", "EXHORTO"); ("oficina", "SUCURSAL");
    ("agencia", "SUCURSAL"); ("codigo_producto", "PRODUCTO"); ("código producto", "PRODUCTO");
    ("tipo_credito", "PRODUCTO"); ("tipo_producto", "PRODUCTO");
    ("apoderado_1", "NOMBRE_APODERADO"); ("apoderado 1", "NOMBRE_APODERADO");
    ("nombre_apoderado_1", "NOMBRE_APODERADO"); ("apoderado_2", "NOMBRE_APODERADO_2");
    ("apoderado 2", "NOMBRE_APODERADO_2") ]%string.

Definition HEADER_ALIASES : gmap pystr pystr :=
  list_to_map (map (fun kv => (py (fst kv), py (snd kv))) HEADER_ALIASES_items).

Definition normalize_header (h : option pystr) : pystr :=
  let h := fix_text (Some (strip (default [] h))) in
  default h (HEADER_ALIASES !! h).

(** The row that [process] keeps for the output file:
    [{h: row.get(h, "") for h in CANONICAL_HEADERS}]. *)
Definition output_row (row : gmap string pystr) : gmap string pystr :=
  list_to_map (map (fun h => (h, get_str row h)) CANONICAL_HEADERS).

End Normalizer.

End ItauAuto.

(** ** The regular expressions of [re]

    A backtracking matcher for the fragment of Python's [re] syntax that the
    embedded functions use: literals, escapes, sets with ranges and classes,
    [\b], groups, alternation and greedy repetition, with the [IGNORECASE]
    flag.  Patterns are compiled from the pattern strings of the sources. *)

Module Re.

Inductive set_item : Type :=
| SChar (c : N)
| SRange (lo hi : N)
| SDigit
| SSpace
| SWord
| SNotWord.

Inductive regex : Type :=
| Empty
| Lit (c : N)
| CharSet (negated : bool) (items : list set_item)
| WordBoundary
| Cat (r1 r2 : regex)
| Or (r1 r2 : regex)
| Repeat (lo : nat) (hi : option nat) (r : regex)
| Group (i : nat) (r : regex).

(** *** Parsing a pattern string *)

Definition ch (a : ascii) : N := N_of_ascii a.

Definition escape_item (c : N) : set_item :=
  if c =? ch "d" then SDigit
  else if c =? ch "s" then SSpace
  else if c =? ch "w" then SWord
  else if c =? ch "W" then SNotWord
  else SChar c.

(** The items of a set, up to the closing bracket. *)
Fixpoint parse_set (fuel : nat) (s : pystr) : option (list set_item * pystr) :=
  match fuel with
  | O => None
  | S f =>
      match s with
      | [] => None
      | c :: s1 =>
          if c =? ch "]" then Some ([], s1)
          else if c =? ch "\" then
            match s1 with
            | e :: s2 =>
                '(items, s3) ← parse_set f s2; Some (escape_item e :: items, s3)
            | [] => None
            end
          else
            match s1 with
            | d :: hi :: s2 =>
                if (d =? ch "-") && negb (hi =? ch "]")
                then '(items, s3) ← parse_set f s2; Some (SRange c hi :: items, s3)
                else '(items, s3) ← parse_set f s1; Some (SChar c :: items, s3)
            | _ => '(items, s3) ← parse_set f s1; Some (SChar c :: items, s3)
            end
      end
  end.

(** A decimal number, as in [{6,}]. *)
Fixpoint parse_nat (acc : option nat) (s : pystr) : option nat * pystr :=
  match s with
  | c :: r =>
      if is_decimal c
      then parse_nat (Some (10 * default O acc + N.to_nat (c - 48))%nat) r
      else (acc, s)
  | [] => (acc, s)
  end.

(** The quantifier that follows an atom, if any.  Lazy and possessive
    quantifiers are outside the fragment. *)
Definition parse_quant (a : regex) (s : pystr) : option (regex * pystr) :=
  let no_suffix (r : regex) (s : pystr) :=
    match s with
    | c :: _ => if (c =? ch "?") || (c =? ch "+") then None else Some (r, s)
    | [] => Some (r, s)
    end in
  match s with
  | c :: s1 =>
      if c =? ch "*" then no_suffix (Repeat 0 None a) s1
      else if c =? ch "+" then no_suffix (Repeat 1 None a) s1
      else if c =? ch "?" then no_suffix (Repeat 0 (Some 1%nat) a) s1
      else if c =? ch "{" then
        match parse_nat None s1 with
        | (Some lo, c2 :: s2) =>
            if c2 =? ch "}" then no_suffix (Repeat lo (Some lo) a) s2
            else if c2 =? ch "," then
              match parse_nat None s2 with
              | (hi, c3 :: s3) =>
                  if c3 =? ch "}" then no_suffix (Repeat lo hi a) s3 else None
              | _ => None
              end
            else None
        | _ => None
        end
      else Some (a, s)
  | [] => Some (a, s)
  end.

(** [parse_alt], [parse_seq] and [parse_atom] thread the number [g] of the
    capturing groups opened so far. *)
Fixpoint parse_alt (fuel : nat) (g : nat) (s : pystr) : option (regex * nat * pystr) :=
  match fuel with
  | O => None
  | S f =>
      '(r1, g1, s1) ← parse_seq f g s;
      match s1 with
      | c :: s2 =>
          if c =? ch "|"
          then '(r2, g2, s3) ← parse_alt f g1 s2; Some (Or r1 r2, g2, s3)
          else Some (r1, g1, s1)
      | [] => Some (r1, g1, s1)
      end
  end
with parse_seq (fuel : nat) (g : nat) (s : pystr) : option (regex * nat * pystr) :=
  match fuel with
  | O => None
  | S f =>
      match s with
      | [] => Some (Empty, g, s)
      | c :: _ =>
          if (c =? ch "|") || (c =? ch ")") then Some (Empty, g, s)
          else
            '(a, g1, s1) ← parse_atom f g s;
            '(a, s2) ← parse_quant a s1;
            '(r, g2, s3) ← parse_seq f g1 s2;
            Some (Cat a r, g2, s3)
      end
  end
with parse_atom (fuel : nat) (g : nat) (s : pystr) : option (regex * nat * pystr) :=
  match fuel with
  | O => None
  | S f =>
      match s with
      | [] => None
      | c :: s1 =>
          if c =? ch "(" then
            match s1 with
            | q :: s2 =>
                if q =? ch "?" then
                  match s2 with
                  | k :: s3 =>
                      if k =? ch ":" then
                        '(r, g1, s4) ← parse_alt f g s3;
                        match s4 with
                        | e :: s5 => if e =? ch ")" then Some (r, g1, s5) else None
                        | [] => None
                        end
                      else None
                  | [] => None
                  end
                else
                  '(r, g1, s4) ← parse_alt f (S g) s1;
                  match s4 with
                  | e :: s5 => if e =? ch ")" then Some (Group (S g) r, g1, s5) else None
                  | [] => None
                  end
            | [] => None
            end
          else if c =? ch "[" then
            match s1 with
            | n :: s2 =>
                if n =? ch "^"
                then '(items, s3) ← parse_set (length s2) s2; Some (CharSet true items, g, s3)
                else '(items, s3) ← parse_set (length s1) s1; Some (CharSet false items, g, s3)
            | [] => None
            end
          else if c =? ch "\" then
            match s1 with
            | e :: s2 =>
                if e =? ch "b" then Some (WordBoundary, g, s2)
                else
                  match escape_item e with
                  | SChar x => Some (Lit x, g, s2)
                  | item => Some (CharSet false [item], g, s2)
                  end
            | [] => None
            end
          else if (c =? ch "*") || (c =? ch "+") || (c =? ch "?") || (c =? ch ".")
                  || (c =? ch "^") || (c =? ch "$") || (c =? ch "{")
          then None
          else Some (Lit c, g, s1)
      end
  end.

(** [re.compile(pattern)]; [None] for a pattern outside the fragment. *)
Definition parse (pattern : string) : option regex :=
  let s := py pattern in
  match parse_alt (3 * length s + 3) 0 s with
  | Some (r, _, []) => Some r
  | _ => None
  end.

(** A pattern that matches nothing stands for one that does not parse; every
    pattern used below parses (see [patterns_parse]). *)
Definition compile (pattern : string) : regex :=
  default (CharSet false []) (parse pattern).

(** *** Matching *)

(** Under [IGNORECASE] characters are compared after lower-casing; the
    dotless i and the long s are in the classes of [i] and [s]. *)
Definition fold_case (c : N) : N :=
  let l := lower_char c in
  if l =? 0x131 then 0x69 else if l =? 0x17F then 0x73
  else if l =? 0x3BC then 0xB5 else l.

Definition char_matches (ic : bool) (c x : N) : bool :=
  if ic then fold_case c =? fold_case x else c =? x.

Definition range_matches (ic : bool) (lo hi x : N) : bool :=
  if ic then
    let x' := fold_case x in
    existsb (fun c => (lo <=? c) && (c <=? hi) && (fold_case c =? x'))
      [x; x'; x' - 32; 0x130; 0x131; 0x17F; 0x212A; 0x212B; 0x3BC]
  else (lo <=? x) && (x <=? hi).

Definition item_matches (ic : bool) (x : N) (it : set_item) : bool :=
  match it with
  | SChar c => char_matches ic c x
  | SRange lo hi => range_matches ic lo hi x
  | SDigit => is_decimal x
  | SSpace => isspace x
  | SWord => is_word x
  | SNotWord => negb (is_word x)
  end.

Definition set_matches (ic negated : bool) (items : list set_item) (x : N) : bool :=
  xorb negated (existsb (item_matches ic x) items).

(** The state of a match attempt: the character before the current position,
    the text from the current position on, the position, and the spans of the
    groups closed so far (latest first). *)
Record mstate : Type := MState {
  m_prev : option N;
  m_rest : pystr;
  m_pos : nat;
  m_groups : list (nat * (nat * nat))
}.

Definition advance (st : mstate) (x : N) (r : pystr) : mstate :=
  MState (Some x) r (S (m_pos st)) (m_groups st).

Definition at_word_boundary (st : mstate) : bool :=
  let before := match m_prev st with Some c => is_word c | None => false end in
  let after := match m_rest st with c :: _ => is_word c | [] => false end in
  xorb before after.

Definition under (count : nat) (hi : option nat) : bool :=
  match hi with
  | Some h => (count <? h)%nat
  | None => true
  end.

(** [match_re ic r st k] matches [r] at [st] and hands the state after the
    match to the continuation [k]; the first success in Python's order
    (greedy repetition, left alternative first) is returned. *)
Fixpoint match_re (ic : bool) (r : regex) (st : mstate)
    (k : mstate -> option mstate) {struct r} : option mstate :=
  match r with
  | Empty => k st
  | Lit c =>
      match m_rest st with
      | x :: rest => if char_matches ic c x then k (advance st x rest) else None
      | [] => None
      end
  | CharSet negated items =>
      match m_rest st with
      | x :: rest => if set_matches ic negated items x then k (advance st x rest) else None
      | [] => None
      end
  | WordBoundary => if at_word_boundary st then k st else None
  | Cat r1 r2 => match_re ic r1 st (fun st1 => match_re ic r2 st1 k)
  | Or r1 r2 =>
      match match_re ic r1 st k with
      | Some res => Some res
      | None => match_re ic r2 st k
      end
  | Group i r1 =>
      match_re ic r1 st
        (fun st1 =>
           k (MState (m_prev st1) (m_rest st1) (m_pos st1)
                ((i, (m_pos st, m_pos st1)) :: m_groups st1)))
  | Repeat lo hi r1 =>
      (fix loop (fuel count : nat) (st : mstate) (k : mstate -> option mstate)
           {struct fuel} : option mstate :=
         match fuel with
         | O => None
         | S fuel' =>
             let more :=
               if under count hi then
                 match_re ic r1 st
                   (fun st1 =>
                      if (m_pos st <? m_pos st1)%nat
                      then loop fuel' (S count) st1 k else None)
               else None in
             match more with
             | Some res => Some res
             | None => if (lo <=? count)%nat then k st else None
             end
         end) (S (length (m_rest st))) O st k
  end.

(** A match object: [m.start()], [m.end()] and the group spans, with the
    text that follows the match. *)
Record match_obj : Type := Match {
  start : nat;
  end_ : nat;
  groups : list (nat * (nat * nat));
  after : option N * pystr
}.

Definition match_at (ic : bool) (r : regex) (prev : option N) (s : pystr) (pos : nat)
  : option match_obj :=
  match match_re ic r (MState prev s pos []) Some with
  | Some st => Some (Match pos (m_pos st) (m_groups st) (m_prev st, m_rest st))
  | None => None
  end.

(** The leftmost match at or after the current position. *)
Fixpoint search_from (ic : bool) (r : regex) (prev : option N) (s : pystr) (pos : nat)
  : option match_obj :=
  match match_at ic r prev s pos with
  | Some m => Some m
  | None =>
      match s with
      | [] => None
      | c :: s' => search_from ic r (Some c) s' (S pos)
      end
  end.

(** [re.search(pattern, text, flags)] *)
Definition search (ic : bool) (r : regex) (text : pystr) : option match_obj :=
  search_from ic r None text O.

(** [bool(re.search(...))] *)
Definition found (ic : bool) (r : regex) (text : pystr) : bool :=
  match search ic r text with Some _ => true | None => false end.

(** [re.finditer(pattern, text, flags)] for patterns that match at least one
    character: the next search starts where the last match ended. *)
Fixpoint finditer_from (fuel : nat) (ic : bool) (r : regex)
    (prev : option N) (s : pystr) (pos : nat) : list match_obj :=
  match fuel with
  | O => []
  | S f =>
      match search_from ic r prev s pos with
      | None => []
      | Some m =>
          if (start m <? end_ m)%nat
          then m :: finditer_from f ic r (fst (after m)) (snd (after m)) (end_ m)
          else [m]
      end
  end.

Definition finditer (ic : bool) (r : regex) (text : pystr) : list match_obj :=
  finditer_from (S (length text)) ic r None text O.

(** [m.start(i)] and [m.group(i)] of a group that took part in the match. *)
Definition group_span (m : match_obj) (i : nat) : nat * nat :=
  match List.find (fun g => (fst g =? i)%nat) (groups m) with
  | Some g => snd g
  | None => (O, O)
  end.

Definition start_of (m : match_obj) (i : nat) : nat := fst (group_span m i).

Definition group (text : pystr) (m : match_obj) (i : nat) : pystr :=
  slice (fst (group_span m i)) (snd (group_span m i)) text.

(** [re.findall(pattern, text)] for a pattern without groups that matches at
    least one character: the matched substrings. *)
Definition findall (ic : bool) (r : regex) (text : pystr) : list pystr :=
  map (fun m => slice (start m) (end_ m) text) (finditer ic r text).

(** [re.sub(pattern, repl, text)] for a replacement without escapes: the
    matches that [finditer] yields are replaced from left to right, and the
    text between them is kept. *)
Fixpoint sub_from (repl : pystr) (pos : nat) (ms : list match_obj) (text : pystr)
  : pystr :=
  match ms with
  | [] => drop pos text
  | m :: rest => slice pos (start m) text ++ repl ++ sub_from repl (end_ m) rest text
  end.

Definition sub (ic : bool) (r : regex) (repl text : pystr) : pystr :=
  sub_from repl 0 (finditer ic r text) text.

End Re.

(** ** Classifier and RUT candidates ([process_itau_unified_v1.py]) *)

Module ItauUnified.

Import Re.

(** [sum(1 for indicator in indicators if indicator in text)] *)
Definition count_present (indicators : list pystr) (text : pystr) : Z :=
  Z.of_nat (length (List.filter (fun indicator => contains indicator text) indicators)).

Definition pp_indicators : list pystr :=
  map py [ "PAGARÉ"; "PAGARE"; "PAGARÁ"; "DOCUMENTO MERCANTIL";
           "VALOR RECIBIDO"; "CONTRAVALOR RECIBIDO"; "ME OBLIGO A PAGAR";
           "VENCIMIENTO" ]%string.

Definition cc_indicators : list pystr :=
  map py [ "CRÉDITO DE CONSUMO"; "CREDITO DE CONSUMO"; "LÍNEA DE CRÉDITO";
           "CONTRATO DE MUTUO"; "CUOTAS"; "TASA DE INTERÉS"; "CRONOGRAMA";
           "TABLA DE DESARROLLO"; "PLAN DE PAGOS" ]%string.

Definition re_en_n_cuotas := compile "\ben\s+\d+\s+cuotas\b".
Definition re_pagare_credito_consumo := compile "pagar[ée]?\s+cr[ée]dito\s+de?\s+consumo".
Definition re_pagare_obligo := compile "pagar[ée]|me\s+obligo\s+a\s+pagar".
Definition re_nombre_deudor := compile "Nombre\s+y\s+Apellidos\s+del\s+deudor".
Definition re_cedula_identidad := compile "C[eé]dula\s+de\s+Identidad".

(** The debug log written by [write_debug] is not part of the model. *)
Definition detect_document_type (text_pages : list pystr) : pystr :=
  let combined_text := join newline text_pages in
  let combined_up := upper combined_text in
  let pp_score := count_present pp_indicators combined_up in
  let cc_score := count_present cc_indicators combined_up in
  let cc_score :=
    if found true re_en_n_cuotas combined_text then (cc_score + 3)%Z else cc_score in
  let cc_score :=
    if found true re_pagare_credito_consumo combined_text then (cc_score + 10)%Z else cc_score in
  let pp_score :=
    if found true re_pagare_obligo combined_text then (pp_score + 3)%Z else pp_score in
  let cc_score :=
    if found true re_nombre_deudor combined_text && found true re_cedula_identidad combined_text
    then (cc_score + 4)%Z else cc_score in
  if (pp_score >? cc_score)%Z then py "PP" else py "CC".

(** *** RUT candidates *)

(** A candidate of [find_all_ruts]: the tuple [(start, rut, dv, ctx, base)]. *)
Record candidate : Type := Candidate {
  c_pos : nat;
  c_rut : pystr;
  c_dv : pystr;
  c_ctx : pystr;
  c_base : Z
}.

Definition labelled_patterns : list (regex * Z) :=
  [ (compile "C\.L[\/\\]RUT\s+N\*?\s*[:\s]+([\d\.\,]{6,})\s*[-–—]?\s*([0-9Kk])", 20%Z);
    (compile "C\.L\s*\/\s*RUT\s+N\*?\s*[:\s]+([\d\.\,]{6,})\s*[-–—]?\s*([0-9Kk])", 19%Z);
    (compile "C\.I[\/\\]RUT\s+N[°º\*]?\s*[:\s]+([\d\.\,]{6,})\s*[-–—]?\s*([0-9Kk])", 18%Z);
    (compile "C\.I\s*\/\s*RUT\s+N[°º\*]?\s*[:\s]+([\d\.\,]{6,})\s*[-–—]?\s*([0-9Kk])", 17%Z);
    (compile "C\.I\s*\/\s*RUT\s*[:\s]+([\d\.\,]{6,})\s*[-–—]?\s*([0-9Kk])", 16%Z);
    (compile "C\s*\.\s*I\s*[\/\\]\s*RUT\s+N[°º\*]?\s*[:\s]+([\d\.\,]{6,})\s*[-–—]?\s*([0-9Kk])", 15%Z);
    (compile "C[eé]dula\s+de\s+Identidad\s*N[°\*]?\s*[:\s]+([\d\.\,]{6,})\s*[-–—]?\s*([0-9Kk])", 12%Z);
    (compile "(?:C\.I\.\/RUT|C\.L\/RUT|RUT)[^:\d]{0,10}[:\s]*([\d\.\,]{6,})\s*[-–—]?\s*([0-9Kk])", 10%Z) ].

Definition re_generic_dotted := compile "([0-9]{1,3}(?:\.[0-9]{3}){1,2})\s*[-\s–—]*([0-9Kk])".
Definition re_generic_plain := compile "\b(\d{7,8})\s*[-\s–—]*([0-9Kk])".
Definition re_operacion_producto := compile "Operaci[oó]n|Producto".

(** [text[max(0, start-80):start+120]] *)
Definition context_of (text : pystr) (start : nat) : pystr :=
  slice (start - 80) (start + 120) text.

Definition labelled_candidates (text : pystr) (pb : regex * Z) : list candidate :=
  map (fun m =>
         let start := start_of m 1 in
         Candidate start (Geocoding.sub_non_digits (group text m 1))
           (upper (group text m 2)) (context_of text start) (snd pb))
      (finditer true (fst pb) text).

(** The two loops over the generic patterns; [digits_only] tells whether
    group 1 goes through [re.sub(r'[^\d]', '', ...)]. *)
Definition generic_candidates (text : pystr) (r : regex) (digits_only : bool) (base : Z)
  : list candidate :=
  flat_map (fun m =>
              let start := start_of m 1 in
              let ctx := context_of text start in
              if found true re_operacion_producto ctx then []
              else
                let rut := if digits_only then Geocoding.sub_non_digits (group text m 1)
                           else group text m 1 in
                [Candidate start rut (upper (group text m 2)) ctx base])
           (finditer false r text).

Definition find_all_ruts (text : pystr) : list candidate :=
  flat_map (labelled_candidates text) labelled_patterns
  ++ generic_candidates text re_generic_dotted true 3
  ++ generic_candidates text re_generic_plain false 2.

Definition re_sus :=
  compile "(Nombre\s+y\s+Apellidos\s+del\s+deudor|Suscriptor(?:\s+o\s+Deudor)?|Deudor|Cliente\/Deudor)".
Definition banco_pat := compile "\bBanco\b|\bIta[uú]\b|Representado por".
Definition re_cl_rut := compile "C\.L[\/\\]RUT\s+N\*?\s*:".
Definition re_ci_rut := compile "C\.I[\/\\]RUT\s+N[°º]".

(** [abs(pos - sus_pos)] on positions. *)
Definition distance (a b : nat) : Z := Z.abs (Z.of_nat a - Z.of_nat b).

(** The score that the loop of [choose_rut_for_doc] gives to a candidate. *)
Definition score_of (sus_pos : option nat) (doc_type : pystr) (c : candidate) : Z :=
  let score := c_base c in
  let score := if found true banco_pat (c_ctx c) then (score - 50)%Z else score in
  let score :=
    if str_eqb doc_type (py "PP") then
      let score := if (c_base c >=? 15)%Z then (score + 25)%Z else score in
      let score := if found true re_cl_rut (c_ctx c) then (score + 30)%Z else score in
      let score :=
        match sus_pos with
        | Some sp => (score + Z.max 0 (300 - distance (c_pos c) sp) / 10)%Z
        | None => score
        end in
      let score := if found true re_ci_rut (c_ctx c) then (score + 20)%Z else score in
      score
    else
      if contains (py "Cédula de Identidad") (c_ctx c) then (score + 10)%Z else score in
  let score :=
    if (7 <=? length (c_rut c))%nat && (length (c_rut c) <=? 8)%nat
    then (score + 2)%Z else score in
  score.

(** The candidate that the loop skips: the bank's own RUT. *)
Definition is_bank_rut (c : candidate) : bool :=
  str_eqb (c_rut c) (py "97023000") && str_eqb (c_dv c) (py "9").

(** The loop of [choose_rut_for_doc] with its two variables [best] and
    [best_score]. *)
Fixpoint choose_loop (sus_pos : option nat) (doc_type : pystr) (ruts : list candidate)
    (best : option (pystr * pystr)) (best_score : Z) : option (pystr * pystr) :=
  match ruts with
  | [] => best
  | c :: rest =>
      if is_bank_rut c then choose_loop sus_pos doc_type rest best best_score
      else
        let score := score_of sus_pos doc_type c in
        if (score >? best_score)%Z
        then choose_loop sus_pos doc_type rest (Some (c_rut c, c_dv c)) score
        else choose_loop sus_pos doc_type rest best best_score
  end.

Definition choose_rut_for_doc (text : pystr) (ruts : list candidate) (doc_type : pystr)
  : pystr * pystr :=
  match ruts with
  | [] => ([], [])
  | _ =>
      let sus := search true re_sus text in
      let sus_pos := start <$> sus in
      match choose_loop sus_pos doc_type ruts None (-1) with
      | Some best => best
      | None => ([], [])
      end
  end.

(** *** Row assembly *)

Definition UNIFIED_COLUMNS : list string :=
  [ "OPERACION_1"; "RUT"; "DV"; "NOMBRE"; "DIRECCION"; "COMUNA";
    "FECHA_SUSCRIPCION_1"; "MONTO_CREDITO_1"; "CUOTAS_1"; "TASA_1"; "MONTO_CUOTA_1";
    "MONTO_ULTIMA_CUOTA_1";
    "FECHA_VENCIMIENTO_1_CUOTA_1"; "FECHA_VENCIMIENTO_ULTIMA_CUOTA_1";
    "CUOTA_MOROSA_1"; "FECHA_CUOTA_MOROSA_1";
    "CAPITAL_1"; "EXHORTO"; "SUCURSAL"; "PRODUCTO"; "NOMBRE_APODERADO"; "NOMBRE_APODERADO_2" ]%string.

(** The dictionary [ident] of [extract_cc_identity_block]. *)
Record identity : Type := Identity {
  id_name : pystr;
  id_rut : pystr;
  id_dv : pystr;
  id_address : pystr;
  id_comuna : pystr
}.

(** The field extractors that the row assembly calls and the properties below
    do not look into: string functions of the page texts and of the file
    name. *)
Record extractors : Type := Extractors {
  extract_producto_hint : pystr -> pystr;
  extract_operation_from_text : pystr -> pystr;
  extract_operation_from_filename : pystr -> pystr;
  extract_nombre_generic : pystr -> pystr;
  extract_domicilio_and_comuna_pp : pystr -> pystr * pystr;
  parse_spanish_date : pystr -> pystr;
  extract_amount : pystr -> pystr;  (* the formatted amount, first component *)
  extract_fecha_vencimiento_primera_cuota : pystr -> pystr;
  extract_fecha_vencimiento_ultima_cuota : pystr -> pystr;
  extract_cc_identity_block : list pystr -> identity;
  extract_representantes_allpages : list pystr -> pystr * pystr;
  clean_and_fix_address : pystr -> pystr;
  fix_comuna_ocr : pystr -> pystr;
  fix_n_to_ene : pystr -> pystr
}.

(** [a or b] on strings. *)
Definition or_else (a b : pystr) : pystr := if truthy a then a else b.

(** [d.get(k, "")] and [d.get(k)] used as a condition. *)
Definition get_str (d : gmap string pystr) (k : string) : pystr :=
  default [] (d !! k).

(** [max(rows, key=f)]: the first row with the greatest key. *)
Fixpoint max_by {A : Type} (f : A -> Z) (best : A) (rows : list A) : A :=
  match rows with
  | [] => best
  | r :: rest => if (f r >? f best)%Z then max_by f r rest else max_by f best rest
  end.

(** The first non-empty value of a field over the page rows. *)
Definition first_filled (k : string) (rows : list (gmap string pystr)) : pystr :=
  fold_left (fun acc row => if negb (truthy acc) && truthy (get_str row k)
                           then get_str row k else acc) rows [].

Section Assembly.

Variable ex : extractors.

Definition extract_operation_allpages (text_pages : list pystr) : pystr :=
  fold_left (fun op t => if truthy op then op else extract_operation_from_text ex t)
    text_pages [].

(** [choose_rut_for_doc(text, ruts, doc_type) if ruts else ("", "")] *)
Definition page_rut (text doc_type : pystr) : pystr * pystr :=
  let ruts := find_all_ruts text in
  match ruts with
  | [] => ([], [])
  | _ => choose_rut_for_doc text ruts doc_type
  end.

Definition pagare_page_row (text : pystr) : gmap string pystr :=
  let '(rut, dv) := page_rut text (py "PP") in
  let '(direccion, comuna) := extract_domicilio_and_comuna_pp ex text in
  list_to_map
    [ ("text", text);
      ("OPERACIÓN", extract_operation_from_text ex text); ("RUT", rut); ("DV", dv);
      ("NOMBRE", extract_nombre_generic ex text);
      ("DIRECCION", direccion); ("COMUNA", comuna);
      ("FECHA_SUSCRIPCION", parse_spanish_date ex text);
      ("MONTO_CREDITO", extract_amount ex text);
      ("FECHA_VENC_1", extract_fecha_vencimiento_primera_cuota ex text);
      ("FECHA_VENC_ULTIMA", extract_fecha_vencimiento_ultima_cuota ex text) ]%string.

Definition score_row_basic (name_key : string) (r : gmap string pystr) : Z :=
  ((if truthy (get_str r "OPERACIÓN") then 50 else 0)
   + (if truthy (get_str r "RUT") then 30 else 0)
   + (if truthy (get_str r name_key) then 20 else 0)
   + (if truthy (get_str r "MONTO_CREDITO") then 10 else 0))%Z.

(** [max(rows, key=score_row_basic) if rows else {}] *)
Definition best_row (name_key : string) (rows : list (gmap string pystr))
  : gmap string pystr :=
  match rows with
  | [] => ∅
  | r :: rest => max_by (score_row_basic name_key) r rest
  end.

Definition process_pagare (text_pages : list pystr) (source_name : option pystr)
  : gmap string pystr :=
  let rows := map pagare_page_row text_pages in
  let operation := extract_operation_allpages text_pages in
  let op_from_file := extract_operation_from_filename ex (default [] source_name) in
  let best := best_row "NOMBRE" rows in
  let '(rep1, rep2) := extract_representantes_allpages ex text_pages in
  let direccion := clean_and_fix_address ex (get_str best "DIRECCION") in
  let comuna := fix_comuna_ocr ex (get_str best "COMUNA") in
  let nombre_corregido := fix_n_to_ene ex (get_str best "NOMBRE") in
  let direccion_corregida := fix_n_to_ene ex direccion in
  let comuna_corregida := fix_n_to_ene ex comuna in
  let fecha_sus_final := first_filled "FECHA_SUSCRIPCION" rows in
  let fecha_venc_1_final := first_filled "FECHA_VENC_1" rows in
  let fecha_venc_ultima_final := first_filled "FECHA_VENC_ULTIMA" rows in
  let producto_out := py "PP" in
  list_to_map
    [ ("OPERACION_1", or_else operation (or_else (get_str best "OPERACIÓN") op_from_file));
      ("RUT", get_str best "RUT"); ("DV", get_str best "DV"); ("NOMBRE", nombre_corregido);
      ("DIRECCION", direccion_corregida); ("COMUNA", comuna_corregida);
      ("FECHA_SUSCRIPCION_1", or_else fecha_sus_final (get_str best "FECHA_SUSCRIPCION"));
      ("MONTO_CREDITO_1", get_str best "MONTO_CREDITO");
      ("CUOTAS_1", []); ("TASA_1", []); ("MONTO_CUOTA_1", []); ("MONTO_ULTIMA_CUOTA_1", []);
      ("FECHA_VENCIMIENTO_1_CUOTA_1",
        or_else fecha_venc_1_final (get_str best "FECHA_SUSCRIPCION"));
      ("FECHA_VENCIMIENTO_ULTIMA_CUOTA_1",
        or_else fecha_venc_ultima_final (get_str best "FECHA_SUSCRIPCION"));
      ("CUOTA_MOROSA_1", []); ("FECHA_CUOTA_MOROSA_1", []);
      ("CAPITAL_1", get_str best "MONTO_CREDITO");
      ("EXHORTO", py "TEMUCO"); ("SUCURSAL", py "SANTIAGO"); ("PRODUCTO", producto_out);
      ("NOMBRE_APODERADO", fix_n_to_ene ex rep1);
      ("NOMBRE_APODERADO_2", fix_n_to_ene ex rep2) ]%string.

Definition consumo_page_row (text : pystr) : gmap string pystr :=
  let '(rut_gen, dv_gen) := page_rut text (py "CC") in
  list_to_map
    [ ("text", text);
      ("OPERACIÓN", extract_operation_from_text ex text); ("RUT", rut_gen); ("DV", dv_gen);
      ("NOMBRE_G", extract_nombre_generic ex text);
      ("FECHA_SUSCRIPCION", parse_spanish_date ex text);
      ("MONTO_CREDITO", extract_amount ex text);
      ("FECHA_VENC_1", extract_fecha_vencimiento_primera_cuota ex text);
      ("FECHA_VENC_ULTIMA", extract_fecha_vencimiento_ultima_cuota ex text) ]%string.

Definition process_credito_consumo (text_pages : list pystr) (source_name : option pystr)
  : gmap string pystr :=
  let ident := extract_cc_identity_block ex text_pages in
  let rows := map consumo_page_row text_pages in
  let best := best_row "NOMBRE_G" rows in
  let operation :=
    or_else (extract_operation_allpages (map (fun r => get_str r "text") rows))
            (get_str best "OPERACIÓN") in
  let op_from_file := extract_operation_from_filename ex (default [] source_name) in
  let nombre := or_else (id_name ident) (or_else (get_str best "NOMBRE_G") []) in
  let rut := or_else (id_rut ident) (or_else (get_str best "RUT") []) in
  let dv := or_else (id_dv ident) (or_else (get_str best "DV") []) in
  let direccion := clean_and_fix_address ex (or_else (id_address ident) []) in
  let comuna := fix_comuna_ocr ex (or_else (id_comuna ident) []) in
  let nombre_corregido := fix_n_to_ene ex nombre in
  let direccion_corregida := fix_n_to_ene ex direccion in
  let comuna_corregida := fix_n_to_ene ex comuna in
  let fecha_venc_1_final := first_filled "FECHA_VENC_1" rows in
  let fecha_venc_ultima_final := first_filled "FECHA_VENC_ULTIMA" rows in
  let '(rep1, rep2) := extract_representantes_allpages ex text_pages in
  list_to_map
    [ ("OPERACION_1", or_else operation op_from_file);
      ("RUT", rut); ("DV", dv); ("NOMBRE", nombre_corregido);
      ("DIRECCION", direccion_corregida); ("COMUNA", comuna_corregida);
      ("FECHA_SUSCRIPCION_1", get_str best "FECHA_SUSCRIPCION");
      ("MONTO_CREDITO_1", get_str best "MONTO_CREDITO");
      ("CUOTAS_1", []); ("TASA_1", []); ("MONTO_CUOTA_1", []); ("MONTO_ULTIMA_CUOTA_1", []);
      ("FECHA_VENCIMIENTO_1_CUOTA_1", fecha_venc_1_final);
      ("FECHA_VENCIMIENTO_ULTIMA_CUOTA_1", fecha_venc_ultima_final);
      ("CUOTA_MOROSA_1", []); ("FECHA_CUOTA_MOROSA_1", []);
      ("CAPITAL_1", get_str best "MONTO_CREDITO");
      ("EXHORTO", py "TEMUCO"); ("SUCURSAL", py "SANTIAGO"); ("PRODUCTO", py "CC");
      ("NOMBRE_APODERADO", fix_n_to_ene ex rep1);
      ("NOMBRE_APODERADO_2", fix_n_to_ene ex rep2) ]%string.

Definition process_document_unified (text_pages : list pystr) (doc_type : pystr)
    (source_name : option pystr) : gmap string pystr :=
  if str_eqb doc_type (py "PP")
  then process_pagare text_pages source_name
  else process_credito_consumo text_pages source_name.

(** *** The batch loop of [main]

    [convert_pdf_to_images] returns the page images of a PDF, the empty list
    when the rasterizer failed; [ocr_image_to_text] returns the empty string
    when the OCR engine failed.  The embedded extraction functions are total,
    so the [except] branch of the loop, which also appends no row, has no
    counterpart here. *)

Variable pdf image : Type.
Variable pdf_name : pdf -> pystr.
Variable convert_pdf_to_images : pdf -> list image.
Variable ocr_image_to_text : image -> pystr.



(** *** The loop of [process_pdf_files]

    [pdf_exists] is [Path(pdf).exists()].  Unlike the loop of [main], this
    loop has no guard on the page images: the page texts of a PDF that the
    rasterizer failed on are the empty list. *)

Variable pdf_exists : pdf -> bool.



End Assembly.

(** *** The script's own extractors

    Functions that the rows above take from the record [extractors], as the
    script defines them. *)

Module Impl.

(** **** The operation number *)

Definition operation_patterns : list regex :=
  map compile
    [ "N[°º\*\?\W]?\s*(?:Operaci[oó]n|Operación)[:\s]*([0-9]{6,})";
      "\b(?:Operaci[oó]n|Operación)\s*N[°º\*\?\W]?\s*([0-9]{6,})";
      "N[°º\*\?\W]?\s*Producto[:\s]*([0-9]{6,})";
      "\bProducto\s*N[°º\*\?\W]?\s*[:\s]*([0-9]{6,})" ]%string.

(** The loop over the patterns: the first one that is found returns. *)
Fixpoint first_operation (pats : list regex) (text : pystr) : pystr :=
  match pats with
  | [] => []
  | pat :: rest =>
      match search true pat text with
      | Some m => strip (group text m 1)
      | None => first_operation rest text
      end
  end.

Definition extract_operation_from_text (text : pystr) : pystr :=
  first_operation operation_patterns text.

Definition re_long_number : regex := compile "(\d{6,})".

(** The key [(-len(s), stem.find(s))] of the sort, and its order on tuples. *)
Definition operation_key (stem s : pystr) : Z * Z :=
  ((- Z.of_nat (length s))%Z,
   match find_from s stem 0 with Some i => Z.of_nat i | None => (-1)%Z end).

Definition key_lt (a b : Z * Z) : bool :=
  (fst a <? fst b)%Z || ((fst a =? fst b)%Z && (snd a <? snd b)%Z).

(** [nums.sort(key=...)]: the sort is stable, numbers with equal keys keep
    the order they arrive in. *)
Fixpoint insert_by_key (key : pystr -> Z * Z) (x : pystr) (l : list pystr) : list pystr :=
  match l with
  | [] => [x]
  | y :: r => if key_lt (key y) (key x) then y :: insert_by_key key x r else x :: l
  end.

Definition sorted_by_key (key : pystr -> Z * Z) (nums : list pystr) : list pystr :=
  foldr (insert_by_key key) [] nums.

Section FileName.

(** [Path(filename).stem], which depends on the path flavour of the
    platform; [None] stands for a raised exception. *)
Variable path_stem : pystr -> option pystr.

Definition extract_operation_from_filename (filename : pystr) : pystr :=
  if negb (truthy filename) then []
  else
    let stem := default filename (path_stem filename) in
    let nums := map (fun m => group stem m 1) (finditer false re_long_number stem) in
    match nums with
    | [] => []
    | _ :: _ => default [] (head (sorted_by_key (operation_key stem) nums))
    end.

End FileName.

(** **** N for Ñ

    The dictionary display of [fix_n_to_ene], entry by entry as it is
    written. *)
Definition corrections_display : list (string * string) :=
    [
      ("\bPENA\b", "PEÑA");
      ("\bMUNOZ\b", "MUÑOZ");
      ("\bNUNEZ\b", "NÚÑEZ");
      ("\bNUNEZ\b", "NUÑEZ");
      ("\bIBANEZ\b", "IBAÑEZ");
      ("\bYANEZ\b", "YÁÑEZ");
      ("\bACUNA\b", "ACUÑA");
      ("\bARGANARAZ\b", "ARGAÑARAZ");
      ("\bZUNIGA\b", "ZÚÑIGA");
      ("\bNIGON\b", "ÑIGÓN");
      ("\bVICUNA\b", "VICUÑA");
      ("\bNIQUEN\b", "ÑIQUÉN");
      ("\bARANA\b", "ARAÑA");
      ("\bARANO\b", "ARAÑO");
      ("\bMONTANA\b", "MONTAÑA");
      ("\bCASTANEDA\b", "CASTAÑEDA");
      ("\bESPINOSA\b", "ESPINOZA");
      ("\bNINO\b", "NIÑO");
      ("\bNINO\s*\(NOMBRE\)\b", "NIÑO (NOMBRE)");
      ("\bNINA\b", "NIÑA");
      ("\bINIGO\b", "IÑIGO");
      ("\bINAKI\b", "IÑAKI");
      ("\bMANE\b", "MAÑE");
      ("\bMANUE\b", "MAÑE");
      ("\bESPANA\b", "ESPAÑA");
      ("\bVINA\s+DEL\s+MAR\b", "VIÑA DEL MAR");
      ("\bPENALOLEN\b", "PEÑALOLÉN");
      ("\bPENAFLOR\b", "PEÑAFLOR");
      ("\bPENALBA\b", "PEÑALBA");
      ("\bNUNOA\b", "ÑUÑOA");
      ("\bNUNOA\s*\(COMUNA\)\b", "ÑUÑOA (COMUNA)");
      ("\bNUBLE\b", "ÑUBLE");
      ("\bNANCUL\b", "ÑANCUL");
      ("\bNACULEO\b", "ÑACULEO");
      ("\bNICULIPE\b", "ÑACULIPE");
      ("\bSAN\s+NICASIO\b", "SAN IGNACIO");
      ("\bSENOR\b", "SEÑOR");
      ("\bSENORA\b", "SEÑORA");
      ("\bDUENO\b", "DUEÑO");
      ("\bANO\b", "AÑO");
      ("\bANOS\b", "AÑOS") ]%string.

(** The items of a dictionary display, in iteration order: a key that is
    written again keeps its place and takes the later value. *)
Fixpoint dict_set (k v : string) (items : list (string * string))
  : list (string * string) :=
  match items with
  | [] => [(k, v)]
  | (k', v') :: rest =>
      if String.eqb k' k then (k', v) :: rest else (k', v') :: dict_set k v rest
  end.

Definition dict_items (display : list (string * string)) : list (string * string) :=
  fold_left (fun items '(k, v) => dict_set k v items) display [].

Definition corrections : list (regex * pystr) :=
  map (fun '(pattern, replacement) => (compile pattern, py replacement))
    (dict_items corrections_display).

Definition fix_n_to_ene (text : pystr) : pystr :=
  if negb (truthy text) then text
  else
    fold_left (fun result '(pattern, replacement) => sub true pattern replacement result)
      corrections text.

End Impl.

End ItauUnified.

(** ** Page OCR driver and batch loop ([ocr_to_csv.py]) *)

Module OcrToCsv.

(** The columns that [write_csv] writes. *)
Definition headers : list string :=
  [ "OPERACION"; "RUT"; "DV"; "NOMBRE"; "DIRECCION"; "COMUNA";
    "FECHA_SUSCRIPCION"; "MONTO_CREDITO"; "CUOTAS"; "TASA";
    "MONTO_CUOTA"; "MONTO_ULTIMA_CUOTA";
    "FECHA_VENCIMIENTO_1_CUOTA"; "FECHA_VENCIMIENTO_ULTIMA_CUOTA";
    "CUOTA_MOROSA"; "FECHA_CUOTA_MOROSA";
    "CAPITAL"; "PRODUCTO"; "NOMBRE_APODERADO"; "NOMBRE_APODERADO_2" ]%string.

Definition create_empty_row (pdf_name : pystr) : gmap string pystr :=
  list_to_map
    [ ("OPERACION", replace (py ".pdf") [] pdf_name);
      ("RUT", []); ("DV", []); ("NOMBRE", []); ("DIRECCION", []); ("COMUNA", []);
      ("FECHA_SUSCRIPCION", []); ("MONTO_CREDITO", []); ("CUOTAS", []); ("TASA", []);
      ("MONTO_CUOTA", []); ("MONTO_ULTIMA_CUOTA", []);
      ("FECHA_VENCIMIENTO_1_CUOTA", []); ("FECHA_VENCIMIENTO_ULTIMA_CUOTA", []);
      ("CUOTA_MOROSA", []); ("FECHA_CUOTA_MOROSA", []);
      ("CAPITAL", []);
      ("PRODUCTO", py "CREDITO CONSUMO");
      ("NOMBRE_APODERADO", py "YASNA DEL CARMEN OLAVE MARTINEZ");
      ("NOMBRE_APODERADO_2", py "ERWIN ORLANDO ALIAGA MARILLAN") ]%string.

(** [max(texts, key=len)]: the first of the longest texts. *)
Fixpoint longest (best : pystr) (texts : list pystr) : pystr :=
  match texts with
  | [] => best
  | t :: rest =>
      if (length best <? length t)%nat then longest t rest else longest best rest
  end.

(** [sorted(lines, key=len, reverse=True)]: longest first; the sort is stable,
    lines of equal length keep the order they arrive in. *)
Fixpoint insert_by_len (x : pystr) (l : list pystr) : list pystr :=
  match l with
  | [] => [x]
  | y :: r => if (length x <? length y)%nat then y :: insert_by_len x r else x :: l
  end.

Definition sorted_by_len_desc (lines : list pystr) : list pystr :=
  foldr insert_by_len [] lines.

Definition configs : list string :=
  [ "--oem 3 --psm 6"; "--oem 3 --psm 4"; "--oem 3 --psm 3"; "--oem 1 --psm 6" ]%string.

(** *** Post-processing of the extracted fields *)

(** [any(x in s for x in subs)] *)
Definition contains_any (subs : list string) (s : pystr) : bool :=
  existsb (fun x => contains (py x) s) subs.

(** [for wrong, correct in fixes.items(): value = value.replace(wrong, correct)] *)
Definition replace_each (fixes : list (string * string)) (value : pystr) : pystr :=
  fold_left (fun value kv => replace (py (fst kv)) (py (snd kv)) value) fixes value.

(** [re.sub(pattern, ' ', s)] for a pattern that is one negated set: the
    characters outside the set [keep] become spaces. *)
Definition sub_others_by_space (keep : N -> bool) (s : pystr) : pystr :=
  map (fun c => if keep c then c else 0x20) s.

(** The set [\w\sÁÉÍÓÚáéíóúñÑ]; the digits that the pattern of the address
    adds are word characters already. *)
Definition name_char (c : N) : bool :=
  is_word c || isspace c || existsb (N.eqb c) (py "ÁÉÍÓÚáéíóúñÑ").

Definition address_char (c : N) : bool :=
  name_char c || ((0x30 <=? c) && (c <=? 0x39)).

Definition re_fecha_iso := Re.compile "(\d{4})[-\/](\d{1,2})[-\/](\d{1,2})".

Definition monto_fields : list string :=
  [ "MONTO_CREDITO"; "MONTO_CUOTA"; "MONTO_ULTIMA_CUOTA" ]%string.

Definition fecha_fields : list string :=
  [ "FECHA_SUSCRIPCION"; "FECHA_VENCIMIENTO_1_CUOTA"; "FECHA_VENCIMIENTO_ULTIMA_CUOTA" ]%string.

Definition post_process_field (field_name : string) (value : pystr) : pystr :=
  if negb (truthy value) then []
  else if String.eqb field_name "RUT" then
    if contains (py "4191896500082450") value || contains (py "4499116") value
    then py "4499116-0"
    else if contains (py "60247566") value || contains (py "15657067") value
    then py "15657067-2"
    else
      let value_corrected := upper value in
      let value_corrected :=
        replace_each [ ("O", "0"); ("I", "1"); ("L", "1"); ("S", "5"); ("G", "6");
                       ("B", "8") ]%string value_corrected in
      let rut_clean :=
        List.filter (fun c => is_decimal c || (c =? 0x2D) || (c =? 0x4B)) value_corrected in
      if (8 <=? length rut_clean)%nat && negb (contains (py "-") rut_clean)
      then removelast rut_clean ++ py "-" ++ last_char rut_clean
      else rut_clean
  else if String.eqb field_name "NOMBRE" then
    if contains_any [ "FERNANDO"; "FERNANDEZ"; "CAMPOS" ]%string (upper value)
    then py "FERNANDO SEGUNDO FERNANDEZ CAMPOS"
    else if contains_any [ "MIGUEL"; "ALEJANDRO"; "ROA"; "GARCIA" ]%string (upper value)
    then py "MIGUEL ALEJANDRO ROA GARCIA"
    else
      let value := sub_others_by_space name_char value in
      let value := join (py " ") (split_ws value) in
      upper value
  else if String.eqb field_name "DIRECCION" then
    if contains_any [ "LORENZO"; "ACEITON" ]%string (upper value)
    then py "LORENZO ACEITON 2185"
    else if contains_any [ "PING"; "PINGUINO"; "447" ]%string (upper value)
    then py "LOS PINGÜINOS 0447"
    else
      let value := sub_others_by_space address_char value in
      let value := join (py " ") (split_ws value) in
      upper value
  else if String.eqb field_name "COMUNA" then
    if contains (py "TEMUCO") (upper value) then py "TEMUCO"
    else strip (upper value)
  else if existsb (String.eqb field_name) monto_fields then
    if contains (py "5713357") value then py "5713357"
    else if contains (py "21481761") value then py "21481761"
    else if contains (py "566331") value then py "566331"
    else if contains (py "566310") value then py "566310"
    else
      let clean_value := Geocoding.sub_non_digits value in
      if truthy clean_value then clean_value else py "0"
  else if String.eqb field_name "TASA" then
    if contains (py "0") value && (length (strip value) <=? 4)%nat then py "0.00"
    else if contains (py "1.62") value || contains (py "162") value then py "1.62"
    else List.filter (fun c => is_decimal c || (c =? 0x2E) || (c =? 0x2C)) value
  else if String.eqb field_name "CUOTAS" then
    if contains (py "60") value then py "60"
    else if contains (py "1") value && (length (strip value) <=? 2)%nat then py "1"
    else
      let clean_value := Geocoding.sub_non_digits value in
      if truthy clean_value then clean_value else py "1"
  else if String.eqb field_name "PRODUCTO" then
    if contains_any [ "PP"; "PAGAR" ]%string (upper value) then py "PP"
    else if contains_any [ "CC"; "CONSUMO"; "CREDITO" ]%string (upper value) then py "CC"
    else py "CC"
  else if existsb (String.eqb field_name) fecha_fields then
    if contains (py "2025") value && contains (py "09") value && contains (py "25") value
    then py "2025-09-25"
    else if contains (py "2023") value && contains (py "05") value && contains (py "29") value
    then py "2023-05-29"
    else if contains (py "2023") value && contains (py "06") value && contains (py "29") value
    then py "2023-06-29"
    else if contains (py "2028") value && contains (py "05") value && contains (py "29") value
    then py "2028-05-29"
    else
      match Re.search false re_fecha_iso value with
      | Some date_match =>
          Re.group value date_match 1 ++ py "-" ++ zfill 2 (Re.group value date_match 2)
          ++ py "-" ++ zfill 2 (Re.group value date_match 3)
      | None => value
      end
  else strip value.

(** *** The CSV row *)

Definition extract_rut_parts (rut_text pdf_name : pystr) : pystr * pystr :=
  if contains (py "4191896500082450") pdf_name then (py "4499116", py "0")
  else if contains (py "60247566") pdf_name then (py "15657067", py "2")
  else if negb (truthy rut_text) || str_eqb rut_text [] then ([], [])
  else
    let hyphenated :=
      if contains (py "-") rut_text then
        match split_char 0x2D rut_text with
        | [number; dv] => Some (strip number, strip dv)
        | _ => None
        end
      else None in
    match hyphenated with
    | Some parts => parts
    | None =>
        let clean_rut := Geocoding.sub_non_digits rut_text in
        if (8 <=? length clean_rut)%nat then (removelast clean_rut, last_char clean_rut)
        else if (7 <=? length clean_rut)%nat then (clean_rut, [])
        else (rut_text, [])
    end.

Section CsvRow.

(** The builtin [int] on strings; [None] is its [ValueError]. *)
Variable int : pystr -> option Z.

(** [None] is the exception of [int(cuotas)]. *)
Definition determine_product_type (fields : gmap string pystr) (pdf_name : pystr)
  : option pystr :=
  if contains (py "4191896500082450") pdf_name then Some (py "PP")
  else if contains (py "60247566") pdf_name then Some (py "CC")
  else
    let cuotas := ItauAuto.get_str fields "CUOTAS" in
    let monto_cuota := ItauAuto.get_str fields "MONTO_CUOTA" in
    if str_eqb cuotas (py "1") && (str_eqb monto_cuota (py "0") || str_eqb monto_cuota [])
    then Some (py "PP")
    else if truthy cuotas then
      n ← int cuotas;
      if (n >? 1)%Z then Some (py "CC") else Some (py "CC")
    else Some (py "CC").

Definition create_csv_row (fields : gmap string pystr) (pdf_name : pystr)
  : option (gmap string pystr) :=
  let rut_text := ItauAuto.get_str fields "RUT" in
  let '(rut_number, rut_dv) := extract_rut_parts rut_text pdf_name in
  let operacion :=
    if truthy (ItauAuto.get_str fields "OPERACION") then ItauAuto.get_str fields "OPERACION"
    else replace (py ".pdf") [] pdf_name in
  producto ← determine_product_type fields pdf_name;
  Some (list_to_map
    [ ("OPERACION", operacion);
      ("RUT", rut_number);
      ("DV", rut_dv);
      ("NOMBRE", ItauAuto.get_str fields "NOMBRE");
      ("DIRECCION", ItauAuto.get_str fields "DIRECCION");
      ("COMUNA", ItauAuto.get_str fields "COMUNA");
      ("FECHA_SUSCRIPCION", ItauAuto.get_str fields "FECHA_SUSCRIPCION");
      ("MONTO_CREDITO", ItauAuto.get_str fields "MONTO_CREDITO");
      ("CUOTAS", ItauAuto.get_str fields "CUOTAS");
      ("TASA", ItauAuto.get_str fields "TASA");
      ("MONTO_CUOTA", ItauAuto.get_str fields "MONTO_CUOTA");
      ("MONTO_ULTIMA_CUOTA", ItauAuto.get_str fields "MONTO_ULTIMA_CUOTA");
      ("FECHA_VENCIMIENTO_1_CUOTA", ItauAuto.get_str fields "FECHA_VENCIMIENTO_1_CUOTA");
      ("FECHA_VENCIMIENTO_ULTIMA_CUOTA",
        ItauAuto.get_str fields "FECHA_VENCIMIENTO_ULTIMA_CUOTA");
      ("CUOTA_MOROSA", []);
      ("FECHA_CUOTA_MOROSA", []);
      ("CAPITAL", ItauAuto.get_str fields "MONTO_CREDITO");
      ("PRODUCTO", producto);
      ("NOMBRE_APODERADO", py "YASNA DEL CARMEN OLAVE MARTINEZ");
      ("NOMBRE_APODERADO_2", py "ERWIN ORLANDO ALIAGA MARILLAN") ]%string).

End CsvRow.

(** *** Helpers for RUT numbers and dates

    The patterns of these two methods are written with a doubled backslash
    in a raw string: they ask for a backslash followed by the letter "d". *)

Definition re_escaped_d_plus := Re.compile "\\d+".

Definition extract_rut_number (rut_text : pystr) : pystr :=
  if negb (truthy rut_text) then []
  else
    let clean_rut :=
      List.filter
        (fun c => negb ((c =? 0x2E) || (c =? 0x2D) || (c =? 0x4B) || (c =? 0x6B))) rut_text in
    let numbers := Re.findall false re_escaped_d_plus clean_rut in
    match numbers with
    | number :: _ => number
    | [] => []
    end.

Definition date_patterns : list Re.regex :=
  [ Re.compile "(\\d{1,2})[/-](\\d{1,2})[/-](\\d{4})";
    Re.compile "(\\d{4})[/-](\\d{1,2})[/-](\\d{1,2})" ].

(** The loop over [date_patterns]; [result] is the value that an earlier
    pattern returned. *)
Definition normalize_date_step (date_text : pystr) (result : option pystr)
    (pattern : Re.regex) : option pystr :=
  match result with
  | Some _ => result
  | None =>
      match Re.search false pattern date_text with
      | Some m =>
          let part0 := Re.group date_text m 1 in
          let part1 := Re.group date_text m 2 in
          let part2 := Re.group date_text m 3 in
          if (length part0 =? 4)%nat
          then Some (zfill 2 part2 ++ py "/" ++ zfill 2 part1 ++ py "/" ++ part0)
          else Some (zfill 2 part0 ++ py "/" ++ zfill 2 part1 ++ py "/" ++ part2)
      | None => None
      end
  end.

Definition normalize_date (date_text : pystr) : pystr :=
  if negb (truthy date_text) then []
  else default [] (fold_left (normalize_date_step date_text) date_patterns None).

Section Driver.

(** The OCR engine: [pytesseract.image_to_string(image, lang, config)], with
    [None] for a raised exception. *)
Variable image : Type.
Variable image_to_string : image -> string -> option pystr.

(** The order in which Python iterates over a set of strings: some
    enumeration of its elements. *)
Variable iter_set : gset pystr -> list pystr.

(** The loop over [configs]. *)
Definition run_configs (img : image) : list pystr :=
  fold_left
    (fun text_results config =>
       match image_to_string img config with
       | Some text =>
           let text := strip text in
           if truthy text then text_results ++ [text] else text_results
       | None => text_results
       end)
    configs [].

(** [opened] is the result of [Image.open], which is outside the [try] block:
    its exception escapes the function. *)
Definition extract_text_from_image (opened : option image) : option pystr :=
  match opened with
  | None => None
  | Some img =>
      let text_results := run_configs img in
      match text_results with
      | [] => Some []
      | t :: rest =>
          let best_text := longest t rest in
          let all_lines : gset pystr :=
            fold_left (fun all_lines text => all_lines ∪ list_to_set (split_char 0x0A text))
              text_results ∅ in
          let combined_text := join newline (sorted_by_len_desc (iter_set all_lines)) in
          Some combined_text
      end
  end.

(** *** The batch loop *)

Variable path : Type.
Variable name : path -> pystr.

(** [pdf_to_images]: the image files of the pages, the empty list when the
    conversion failed. *)
Variable pdf_to_images : path -> list path.
Variable image_open : path -> option image.

(** [create_csv_row(extract_fields_from_text(all_text, name), name)], with
    [None] for a raised exception. *)
Variable fields_to_row : pystr -> pystr -> option (gmap string pystr).




End Driver.

End OcrToCsv.

(** * Definitions used in the statements *)

Module Spec.

Import Geocoding ItauAuto.

(** *** Text normalizer and check digit *)

(** The check digit as a function of the weighted sum: the last step of
    [calculate_dv]. *)
Definition dv_of_total (total : Z) : pystr :=
  let remainder := (11 - total mod 11)%Z in
  if (remainder =? 11)%Z then py "0"
  else if (remainder =? 10)%Z then py "K"
  else str_of_Z remainder.

(** White space in normal form: every white-space character is a space
    U+0020 that does not follow white space; [prev_space] tells whether the
    position before the string counts as white space, so [spaced_ok true]
    also excludes a leading space. *)
Fixpoint spaced_ok (prev_space : bool) (s : pystr) : bool :=
  match s with
  | [] => true
  | c :: r =>
      if isspace c then (c =? 0x20) && negb prev_space && spaced_ok true r
      else spaced_ok false r
  end.

Definition no_trailing_space (s : pystr) : bool :=
  match last s with
  | Some c => negb (isspace c)
  | None => true
  end.

(** An already-normalized clean ASCII string: ASCII characters other than the
    double quote, single interior spaces, no white space at either end. *)
Definition clean_ascii (s : pystr) : bool :=
  forallb (fun c => (c <? 0x80) && negb (c =? 0x22)) s
  && spaced_ok true s && no_trailing_space s.

(** An "e", a zero-width space and a combining acute accent: the accent
    cannot compose with the letter until the cleaner removes the space. *)
Definition e_zwsp_acute : pystr := [0x65; 0x200B; 0x301].

(** *** The fill policy of the debug merge, in the words of the specification *)

(** The fields that the merge looks at. *)
Definition merge_fields : list string := map fst pairs.

(** Whether the policy [mode] copies the trace value of field [f] into the
    row: [only_blanks] where the row's value is empty and the trace's is not,
    [prefer_debug] where the trace's value is not empty and differs; values
    are compared after normalization. *)
Definition fills (ftfy : option (pystr -> option pystr)) (mode : pystr)
    (cand row : gmap string pystr) (f : string) : bool :=
  let v_csv := clean_text_value ftfy (Some (get_str row f)) in
  let v_dbg := clean_text_value ftfy (Some (get_str cand f)) in
  if str_eqb mode (py "only_blanks") then negb (truthy v_csv) && truthy v_dbg
  else if str_eqb mode (py "prefer_debug") then truthy v_dbg && negb (str_eqb v_dbg v_csv)
  else false.

(** The keys under which a row is looked up in the trace. *)
Definition key_operacion (row : gmap string pystr) : pystr :=
  strip (get_str row "OPERACION").

Definition key_composite (row : gmap string pystr) : pystr :=
  strip_chars (py "-")
    (get_str row "RUT" ++ py "-" ++ get_str row "DV" ++ py "-" ++ get_str row "NOMBRE").

(** A usable trace entry: present and not empty. *)
Definition entry_at (debug_map : gmap pystr (gmap string pystr)) (k : pystr)
  : option (gmap string pystr) :=
  if truthy k then
    match debug_map !! k with
    | Some d => if bool_decide (d = ∅) then None else Some d
    | None => None
    end
  else None.

(** The trace entry that matches a row: by operation id first, by the
    composite key otherwise. *)
Definition matched_entry (debug_map : gmap pystr (gmap string pystr))
    (row : gmap string pystr) : option (gmap string pystr) :=
  match entry_at debug_map (key_operacion row) with
  | Some d => Some d
  | None => entry_at debug_map (key_composite row)
  end.

(** A row and a trace that agree on the operation id and differ on the RUT
    and on the name; the name of the row is a single space. *)
Definition row_860418 : gmap string pystr :=
  list_to_map [ ("OPERACION", py "860418"); ("RUT", py "11111111");
                ("NOMBRE", py " ") ]%string.

Definition trace_860418 : gmap pystr (gmap string pystr) :=
  {[ py "860418" :=
       list_to_map [ ("OPERACION", py "860418"); ("RUT", py "22222222");
                     ("NOMBRE", py "JUAN PEREZ") ]%string ]}.

(** *** The classifier, in the words of the specification *)

(** One point for each phrase of the list that occurs in the text. *)
Fixpoint keyword_score (phrases : list string) (text : pystr) : Z :=
  match phrases with
  | [] => 0
  | phrase :: rest =>
      ((if contains (py phrase) text then 1 else 0) + keyword_score rest text)%Z
  end.

(** The phrases that indicate a promissory note. *)
Definition pp_phrases : list string :=
  [ "PAGARÉ"; "PAGARE"; "PAGARÁ"; "DOCUMENTO MERCANTIL"; "VALOR RECIBIDO";
    "CONTRAVALOR RECIBIDO"; "ME OBLIGO A PAGAR"; "VENCIMIENTO" ]%string.

(** The phrases that indicate an installment loan. *)
Definition cc_phrases : list string :=
  [ "CRÉDITO DE CONSUMO"; "CREDITO DE CONSUMO"; "LÍNEA DE CRÉDITO"; "CONTRATO DE MUTUO";
    "CUOTAS"; "TASA DE INTERÉS"; "CRONOGRAMA"; "TABLA DE DESARROLLO";
    "PLAN DE PAGOS" ]%string.

Definition bonus (weight : Z) (present : bool) : Z :=
  if present then weight else 0%Z.

(** The structural signals: the phrase "en N cuotas", and the header of the
    debtor identity block, which is the name label together with the
    identity-card label. *)
Definition in_n_installments (text : pystr) : bool :=
  Re.found true (Re.compile "\ben\s+\d+\s+cuotas\b") text.

Definition identity_block_header (text : pystr) : bool :=
  Re.found true (Re.compile "Nombre\s+y\s+Apellidos\s+del\s+deudor") text
  && Re.found true (Re.compile "C[eé]dula\s+de\s+Identidad") text.

(** The classifier as the specification words it: the keyword scores over the
    upper-cased text, and the two structural bonuses, both for the
    installment loan; the specification leaves their weights open. *)
Definition claimed_pp_score (text : pystr) : Z := keyword_score pp_phrases (upper text).

Definition claimed_cc_score (w_installments w_identity : Z) (text : pystr) : Z :=
  (keyword_score cc_phrases (upper text)
   + bonus w_installments (in_n_installments text)
   + bonus w_identity (identity_block_header text))%Z.

Definition claimed_type (w_installments w_identity : Z) (text : pystr) : pystr :=
  if (claimed_cc_score w_installments w_identity text <? claimed_pp_score text)%Z
  then py "PP" else py "CC".

(** The two wordings that the specification does not name: "pagaré crédito de
    consumo", and "pagaré" or "me obligo a pagar". *)
Definition loan_promissory_wording (text : pystr) : bool :=
  Re.found true (Re.compile "pagar[ée]?\s+cr[ée]dito\s+de?\s+consumo") text.

Definition promissory_wording (text : pystr) : bool :=
  Re.found true (Re.compile "pagar[ée]|me\s+obligo\s+a\s+pagar") text.

(** Promissory-note score: the keyword score, and three more for a "pagaré"
    or "me obligo a pagar" wording. *)
Definition pp_total (text : pystr) : Z :=
  (keyword_score pp_phrases (upper text) + bonus 3 (promissory_wording text))%Z.

(** Installment-loan score: the keyword score, three more for an "en N
    cuotas" phrase, ten for "pagaré crédito de consumo", four for the header
    of the debtor identity block. *)
Definition cc_total (text : pystr) : Z :=
  (keyword_score cc_phrases (upper text)
   + bonus 3 (in_n_installments text)
   + bonus 10 (loan_promissory_wording text)
   + bonus 4 (identity_block_header text))%Z.

(** A page that promises to pay in installments. *)
Definition text_obligo_cuotas : pystr := py "me obligo a pagar cuotas".

(** *** Page texts for the RUT chooser *)

(** A debtor label followed by two RUTs. *)
Definition text_two_ruts : pystr := py "Deudor 1234567-8 y 12.345.678-5".

(** The bank's RUT in a "Representado por" context and the debtor's RUT after
    a "Suscriptor:" label, on one short page. *)
Definition text_bank_and_debtor : pystr :=
  py "Representado por Banco X, RUT 97.030.000-7. Suscriptor: Juan Perez, RUT 12.345.678-5".

(** The bank's RUT under a C.I/RUT label in a "Representado por" context,
    and eighty-five characters further the debtor's RUT right after the
    "Suscriptor:" label. *)
Definition text_labelled_bank_then_debtor : pystr :=
  py "Representado por Banco X, C.I/RUT N°: 97.030.000-7" ++ repeat 0x2E 85
  ++ py " Suscriptor: 12.345.678-5".

(** The same two RUTs with the debtor's more than eighty characters after the
    bank's. *)
Definition text_bank_far_from_debtor : pystr :=
  py "Representado por Banco X, RUT 97.030.000-7." ++ repeat 0x2E 100
  ++ py " Suscriptor: Juan Perez, RUT 12.345.678-5".

(** *** The page text, in the words of the specification *)

(** Longest first. *)
Definition longer_first (a b : pystr) : Prop := (length b <= length a)%nat.

(** The combination that keeps the primary text: the longest result,
    followed by the lines of the other results that it does not have, longest
    first. *)
Definition primary_then_unique_lines (iter_set : gset pystr -> list pystr)
    (text_results : list pystr) : pystr :=
  match text_results with
  | [] => []
  | t :: rest =>
      let primary := OcrToCsv.longest t rest in
      let other_lines : gset pystr :=
        fold_left (fun acc text => acc ∪ list_to_set (split_char 0x0A text)) text_results ∅
        ∖ list_to_set (split_char 0x0A primary) in
      join newline (primary :: OcrToCsv.sorted_by_len_desc (iter_set other_lines))
  end.

(** A configuration contributes nothing when the engine raises or reads only
    white space. *)
Definition contributes_nothing (image : Type)
    (image_to_string : image -> string -> option pystr)
    (img : image) (config : string) : Prop :=
  match image_to_string img config with
  | Some text => strip text = []
  | None => True
  end.

(** A page on which every configuration reads the lines "a" and "bcd". *)
Definition page_a_bcd : pystr := py "a" ++ newline ++ py "bcd".

(** *** Batch runs *)




(** Extractors that find nothing in the page texts and read the operation id
    as the digits of the file name. *)
Definition no_extractors : ItauUnified.extractors :=
  ItauUnified.Extractors
    (fun _ => []) (fun _ => []) (List.filter is_decimal) (fun _ => []) (fun _ => ([], []))
    (fun _ => []) (fun _ => []) (fun _ => []) (fun _ => [])
    (fun _ => ItauUnified.Identity [] [] [] [] [])
    (fun _ => ([], [])) (fun a => a) (fun c => c) (fun t => t).




(** *** Check digit arithmetic *)

(** The validity flag of [validate_rut_dv]; an escaping exception counts as
    not valid. *)
Definition is_valid_rut (rut dv : pystr) : bool :=
  match validate_rut_dv rut dv with
  | Some (_, _, is_valid) => is_valid
  | None => false
  end.

(** The digits of a decimal string as numbers. *)
Definition digits_of (d : pystr) : list Z := map (fun c => (Z.of_N c - 48)%Z) d.

(** The characters that a check digit can be. *)
Definition dv_alphabet : pystr := py "0123456789K".

(** *** Amounts *)

(** Printable ASCII other than the space and the double quote. *)
Definition plain_char (c : N) : bool :=
  (0x21 <=? c) && (c <=? 0x7E) && negb (c =? 0x22).

(** *** Fields of the CSV generator *)

(** The characters of a post-processed RUT: digits, the hyphen and "K". *)
Definition rut_char (c : N) : bool := is_decimal c || (c =? 0x2D) || (c =? 0x4B).


(** *** Patterns that begin with a given character *)

(** Whether the expression [r] asks for the character [c] first. *)
Fixpoint begins_with (c : N) (r : Re.regex) : bool :=
  match r with
  | Re.Lit x => x =? c
  | Re.Cat r1 _ => begins_with c r1
  | Re.Group _ r1 => begins_with c r1
  | _ => false
  end.

(** *** What a match of a regular expression is

    [consumes ic r st st1]: the expression [r] can match from the state [st]
    and leave the state [st1]. *)

Definition within (n : nat) (hi : option nat) : Prop :=
  match hi with
  | Some h => (n <= h)%nat
  | None => True
  end.

(** The state after a group that began at [st] and whose body left [st1]. *)
Definition close_group (i : nat) (st st1 : Re.mstate) : Re.mstate :=
  Re.MState (Re.m_prev st1) (Re.m_rest st1) (Re.m_pos st1)
    ((i, (Re.m_pos st, Re.m_pos st1)) :: Re.m_groups st1).

(** [n] steps, each of which moves forward. *)
Fixpoint times (step : Re.mstate -> Re.mstate -> Prop) (n : nat) (st st1 : Re.mstate)
  : Prop :=
  match n with
  | O => st1 = st
  | S n' =>
      exists st', step st st' /\ (Re.m_pos st < Re.m_pos st')%nat /\ times step n' st' st1
  end.

Fixpoint consumes (ic : bool) (r : Re.regex) (st st1 : Re.mstate) {struct r} : Prop :=
  match r with
  | Re.Empty => st1 = st
  | Re.Lit c =>
      exists x rest,
        Re.m_rest st = x :: rest /\ Re.char_matches ic c x = true
        /\ st1 = Re.advance st x rest
  | Re.CharSet negated items =>
      exists x rest,
        Re.m_rest st = x :: rest /\ Re.set_matches ic negated items x = true
        /\ st1 = Re.advance st x rest
  | Re.WordBoundary => Re.at_word_boundary st = true /\ st1 = st
  | Re.Cat r1 r2 => exists st', consumes ic r1 st st' /\ consumes ic r2 st' st1
  | Re.Or r1 r2 => consumes ic r1 st st1 \/ consumes ic r2 st st1
  | Re.Group i r1 => exists st', consumes ic r1 st st' /\ st1 = close_group i st st'
  | Re.Repeat lo hi r1 =>
      exists n, (lo <= n)%nat /\ within n hi /\ times (consumes ic r1) n st st1
  end.

(** The state is at position [m_pos] of [text]. *)
Definition on_text (text : pystr) (st : Re.mstate) : Prop :=
  Re.m_rest st = drop (Re.m_pos st) text.

(** The groups of an expression, with their bodies. *)
Fixpoint group_bodies (r : Re.regex) : list (nat * Re.regex) :=
  match r with
  | Re.Cat r1 r2 | Re.Or r1 r2 => group_bodies r1 ++ group_bodies r2
  | Re.Group i r1 => (i, r1) :: group_bodies r1
  | Re.Repeat _ _ r1 => group_bodies r1
  | _ => []
  end.

(** The groups that take part in every match. *)
Fixpoint spine_groups (r : Re.regex) : list nat :=
  match r with
  | Re.Cat r1 r2 => spine_groups r1 ++ spine_groups r2
  | Re.Group i r1 => i :: spine_groups r1
  | _ => []
  end.

(** A body that is one set, or one set repeated: the set and the bounds on
    the number of characters. *)
Definition set_word (r : Re.regex) : option (bool * list Re.set_item * nat * option nat) :=
  match r with
  | Re.Cat (Re.CharSet negated items) Re.Empty => Some (negated, items, 1%nat, Some 1%nat)
  | Re.Cat (Re.Repeat lo hi (Re.CharSet negated items)) Re.Empty =>
      Some (negated, items, lo, hi)
  | _ => None
  end.

(** The description of group [i] when it occurs once and is such a body. *)
Definition group_word (r : Re.regex) (i : nat)
  : option (bool * list Re.set_item * nat * option nat) :=
  match List.filter (fun g => (fst g =? i)%nat) (group_bodies r) with
  | [(_, body)] => set_word body
  | _ => None
  end.

(** A text of between [lo] and [hi] characters of the set. *)
Definition word_of (ic : bool) (w : bool * list Re.set_item * nat * option nat)
    (s : pystr) : Prop :=
  let '(negated, items, lo, hi) := w in
  (lo <= length s)%nat /\ within (length s) hi
  /\ forallb (Re.set_matches ic negated items) s = true.

(** A match object of [r] on [text]: the expression consumes the text from
    the start of the match to its end, and the groups are those of the state
    that it leaves. *)
Definition match_of (text : pystr) (ic : bool) (r : Re.regex) (m : Re.match_obj) : Prop :=
  exists st0 st1,
    on_text text st0 /\ Re.m_groups st0 = [] /\ consumes ic r st0 st1
    /\ Re.start m = Re.m_pos st0 /\ Re.end_ m = Re.m_pos st1
    /\ Re.groups m = Re.m_groups st1 /\ Re.after m = (Re.m_prev st1, Re.m_rest st1).

(** The span of a group comes from a match of its body. *)
Definition group_sound (text : pystr) (ic : bool) (bodies : list (nat * Re.regex))
    (g : nat * (nat * nat)) : Prop :=
  exists body sa sb,
    In (fst g, body) bodies /\ consumes ic body sa sb /\ on_text text sa
    /\ Re.m_pos sa = fst (snd g) /\ Re.m_pos sb = snd (snd g).

(** *** RUT candidates and dates *)

(** The decimal digits of Unicode 14, the characters that the class [\d] of
    [re] accepts in a text and that [int] reads: sixty-six runs of ten code
    points, each given by its zero. *)
Definition decimal_zeros : list N :=
  [ 0x30; 0x660; 0x6F0; 0x7C0; 0x966; 0x9E6; 0xA66; 0xAE6;
    0xB66; 0xBE6; 0xC66; 0xCE6; 0xD66; 0xDE6; 0xE50; 0xED0;
    0xF20; 0x1040; 0x1090; 0x17E0; 0x1810; 0x1946; 0x19D0; 0x1A80;
    0x1A90; 0x1B50; 0x1BB0; 0x1C40; 0x1C50; 0xA620; 0xA8D0; 0xA900;
    0xA9D0; 0xA9F0; 0xAA50; 0xABF0; 0xFF10; 0x104A0; 0x10D30; 0x11066;
    0x110F0; 0x11136; 0x111D0; 0x112F0; 0x11450; 0x114D0; 0x11650; 0x116C0;
    0x11730; 0x118E0; 0x11950; 0x11C50; 0x11D50; 0x11DA0; 0x16A60; 0x16AC0;
    0x16B50; 0x1D7CE; 0x1D7D8; 0x1D7E2; 0x1D7EC; 0x1D7F6; 0x1E140; 0x1E2F0;
    0x1E950; 0x1FBF0 ].

Definition is_unicode_decimal (x : N) : bool :=
  existsb (fun zero => (zero <=? x) && (x <=? zero + 9)) decimal_zeros.

(** A text whose decimal digits are all among 0 to 9: on such a text the
    digit class [is_decimal] of the embedding is the class [\d] of [re]. *)
Definition plain_digits (text : pystr) : bool :=
  forallb (fun x => negb (is_unicode_decimal x) || is_decimal x) text.

(** The description of the check digit group [([0-9Kk])]. *)
Definition dv_word : bool * list Re.set_item * nat * option nat :=
  (false, [Re.SRange 0x30 0x39; Re.SChar 0x4B; Re.SChar 0x6B], 1%nat, Some 1%nat).

(** The check digits that a candidate can have: a decimal digit, "K", or the
    Kelvin sign U+212A, which [IGNORECASE] lets match "k" and which
    [str.upper] keeps. *)
Definition dv_char (x : N) : bool := existsb (N.eqb x) dv_alphabet || (x =? 0x212A).



(** An expression every match of which holds the character [c] (or one that
    compares equal to it when case is ignored). *)
Fixpoint needs_char (c : N) (r : Re.regex) : bool :=
  match r with
  | Re.Lit c' => c' =? c
  | Re.Cat r1 r2 => needs_char c r1 || needs_char c r2
  | Re.Or r1 r2 => needs_char c r1 && needs_char c r2
  | Re.Group _ r1 => needs_char c r1
  | Re.Repeat lo _ r1 => (0 <? lo)%nat && needs_char c r1
  | _ => false
  end.

(** The script's own corrections of comuna names and of N for Ñ, with a
    page text that is taken as the comuna; the other extractors find
    nothing. *)
Definition comuna_extractors : ItauUnified.extractors :=
  ItauUnified.Extractors
    (fun _ => []) (fun _ => []) (fun _ => []) (fun _ => []) (fun text => ([], text))
    (fun _ => []) (fun _ => []) (fun _ => []) (fun _ => [])
    (fun _ => ItauUnified.Identity [] [] [] [] [])
    (fun _ => ([], [])) (fun a => a) (Geocoding.fix_comuna_ocr elements)
    ItauUnified.Impl.fix_n_to_ene.

End Spec.

(** * Properties *)

Import Geocoding Spec.

(** ** Patterns *)

(** Every pattern of the embedded functions is in the fragment of the
    matcher. *)
Lemma patterns_parse :
  forallb (fun pattern => bool_decide (is_Some (Re.parse pattern)))
    [ "\ben\s+\d+\s+cuotas\b";
      "pagar[ée]?\s+cr[ée]dito\s+de?\s+consumo";
      "pagar[ée]|me\s+obligo\s+a\s+pagar";
      "Nombre\s+y\s+Apellidos\s+del\s+deudor";
      "C[eé]dula\s+de\s+Identidad";
      "C\.L[\/\\]RUT\s+N\*?\s*[:\s]+([\d\.\,]{6,})\s*[-–—]?\s*([0-9Kk])";
      "C\.L\s*\/\s*RUT\s+N\*?\s*[:\s]+([\d\.\,]{6,})\s*[-–—]?\s*([0-9Kk])";
      "C\.I[\/\\]RUT\s+N[°º\*]?\s*[:\s]+([\d\.\,]{6,})\s*[-–—]?\s*([0-9Kk])";
      "C\.I\s*\/\s*RUT\s+N[°º\*]?\s*[:\s]+([\d\.\,]{6,})\s*[-–—]?\s*([0-9Kk])";
      "C\.I\s*\/\s*RUT\s*[:\s]+([\d\.\,]{6,})\s*[-–—]?\s*([0-9Kk])";
      "C\s*\.\s*I\s*[\/\\]\s*RUT\s+N[°º\*]?\s*[:\s]+([\d\.\,]{6,})\s*[-–—]?\s*([0-9Kk])";
      "C[eé]dula\s+de\s+Identidad\s*N[°\*]?\s*[:\s]+([\d\.\,]{6,})\s*[-–—]?\s*([0-9Kk])";
      "(?:C\.I\.\/RUT|C\.L\/RUT|RUT)[^:\d]{0,10}[:\s]*([\d\.\,]{6,})\s*[-–—]?\s*([0-9Kk])";
      "([0-9]{1,3}(?:\.[0-9]{3}){1,2})\s*[-\s–—]*([0-9Kk])";
      "\b(\d{7,8})\s*[-\s–—]*([0-9Kk])";
      "Operaci[oó]n|Producto";
      "(Nombre\s+y\s+Apellidos\s+del\s+deudor|Suscriptor(?:\s+o\s+Deudor)?|Deudor|Cliente\/Deudor)";
      "\bBanco\b|\bIta[uú]\b|Representado por";
      "C\.L[\/\\]RUT\s+N\*?\s*:";
      "C\.I[\/\\]RUT\s+N[°º]" ]%string = true.
Proof. vm_compute. reflexivity. Qed.

(** ** RUT validator *)

Section CheckDigit.

Lemma sub_non_digits_id (d : pystr) :
  forallb is_decimal d = true -> sub_non_digits d = d.
Proof.
  unfold sub_non_digits. induction d as [|c d IH]; simpl; [done|].
  intros [Hc Hd]%andb_prop. rewrite Hc. f_equal. auto.
Qed.

Lemma isdigit_of_decimal (d : pystr) :
  d <> [] -> forallb is_decimal d = true -> isdigit d = true.
Proof.
  intros Hne Hall. unfold isdigit. apply andb_true_intro. split.
  - destruct d; [done|reflexivity].
  - rewrite forallb_forall in *. intros c Hc.
    unfold isdigit_char. rewrite (Hall c Hc). reflexivity.
Qed.

Lemma ints_of_decimal (d : pystr) :
  forallb is_decimal d = true -> exists ds, ints_of d = Some ds.
Proof.
  induction d as [|c d IH]; simpl; [by eexists|].
  intros [Hc Hd]%andb_prop. destruct (IH Hd) as [ds Hds].
  unfold int_of_char. rewrite Hc, Hds. by eexists.
Qed.

Lemma forallb_rev (p : N -> bool) (d : pystr) :
  forallb p d = true -> forallb p (rev d) = true.
Proof.
  rewrite !forallb_forall. intros H c Hc. apply H. by apply in_rev.
Qed.

Lemma dv_of_total_stable (total : Z) :
  truthy (dv_of_total total) = true /\
  strip (upper (dv_of_total total)) = dv_of_total total.
Proof.
  unfold dv_of_total.
  assert (H : (0 <= total mod 11 < 11)%Z) by (apply Z.mod_pos_bound; lia).
  assert (Hcases : (total mod 11 = 0 \/ total mod 11 = 1 \/ total mod 11 = 2 \/
                    total mod 11 = 3 \/ total mod 11 = 4 \/ total mod 11 = 5 \/
                    total mod 11 = 6 \/ total mod 11 = 7 \/ total mod 11 = 8 \/
                    total mod 11 = 9 \/ total mod 11 = 10)%Z) by lia.
  repeat (destruct Hcases as [-> | Hcases]; [vm_compute; done|]).
  rewrite Hcases. vm_compute. done.
Qed.

Lemma calculate_dv_decimal (d : pystr) :
  d <> [] -> forallb is_decimal d = true ->
  exists total, calculate_dv d = Some (dv_of_total total).
Proof.
  intros Hne Hall. unfold calculate_dv.
  rewrite (isdigit_of_decimal d Hne Hall). simpl.
  destruct (ints_of_decimal (rev d) (forallb_rev _ _ Hall)) as [ds ->].
  exists (weighted_sum 0 ds). unfold dv_of_total. cbv zeta.
  by repeat case_match.
Qed.

Lemma validate_computed_dv (d : pystr) :
  d <> [] -> forallb is_decimal d = true ->
  exists dv, calculate_dv d = Some dv /\ validate_rut_dv d dv = Some (d, dv, true).
Proof.
  intros Hne Hall.
  destruct (calculate_dv_decimal d Hne Hall) as [total Hdv].
  exists (dv_of_total total). split; [done|].
  destruct (dv_of_total_stable total) as [Htruthy Hstable].
  unfold validate_rut_dv.
  rewrite (sub_non_digits_id d Hall).
  assert (Hd : truthy d = true) by (destruct d; done).
  rewrite Hd, Hdv, Htruthy, Hstable. simpl.
  unfold str_eqb. by rewrite bool_decide_eq_true_2.
Qed.

End CheckDigit.

(** C3.  A digit string of length 7 or 8 validates against the check digit
    computed from it, and ["4499116"] validates against ["0"]. *)
Theorem validate_own_check_digit :
  (forall d : pystr,
      forallb is_decimal d = true -> (7 <= length d <= 8)%nat ->
      exists dv, calculate_dv d = Some dv /\
                 validate_rut_dv d dv = Some (d, dv, true))
  /\ validate_rut_dv (py "4499116") (py "0") = Some (py "4499116", py "0", true).
Proof.
  split.
  - intros d Hall Hlen. apply validate_computed_dv; [|done].
    intros ->. simpl in Hlen. lia.
  - vm_compute. reflexivity.
Qed.

Lemma validate_own_check_digit_witness :
  exists dv, calculate_dv (py "15657067") = Some dv /\
             validate_rut_dv (py "15657067") dv = Some (py "15657067", dv, true).
Proof.
  apply (proj1 validate_own_check_digit (py "15657067")).
  - vm_compute. reflexivity.
  - simpl. lia.
Defined.

(** ** Text normalizer *)

Section Normalizer.

Import ItauAuto.

Lemma filter_all {A : Type} (f : A -> bool) (l : list A) :
  forallb f l = true -> List.filter f l = l.
Proof.
  induction l as [|a l IH]; simpl; [done|].
  intros [Ha Hl]%andb_prop. rewrite Ha. f_equal. auto.
Qed.

Lemma remove_char_absent (c : N) (s : pystr) :
  ~ In c s -> remove_char c s = s.
Proof.
  intros Hc. apply filter_all, forallb_forall. intros x Hx.
  apply negb_true_iff, N.eqb_neq. intros ->. contradiction.
Qed.

Lemma in_remove_char (x c : N) (s : pystr) :
  In x (remove_char c s) -> In x s /\ x <> c.
Proof.
  unfold remove_char. rewrite filter_In.
  intros [Hx Hne]. split; [done|]. by apply N.eqb_neq, negb_true_iff.
Qed.

Lemma in_sub_spaces (x : N) (b : bool) (s : pystr) :
  In x (sub_spaces b s) -> x = 0x20 \/ In x s.
Proof.
  revert b. induction s as [|c s IH]; intros b; simpl; [tauto|].
  destruct (isspace c).
  - destruct b; simpl; intros H.
    + destruct (IH _ H); auto.
    + destruct H as [<-|H]; [auto|]. destruct (IH _ H); auto.
  - simpl. intros [<-|H]; [auto|]. destruct (IH _ H); auto.
Qed.

Lemma in_lstrip_by (p : N -> bool) (x : N) (s : pystr) :
  In x (lstrip_by p s) -> In x s.
Proof.
  induction s as [|c s IH]; simpl; [done|].
  destruct (p c); [auto|]. simpl. tauto.
Qed.

Lemma in_rstrip_by (p : N -> bool) (x : N) (s : pystr) :
  In x (rstrip_by p s) -> In x s.
Proof.
  induction s as [|c s IH]; simpl; [done|].
  destruct (rstrip_by p s) as [|y r].
  - destruct (p c); simpl; tauto.
  - simpl in *. tauto.
Qed.

Lemma in_strip (x : N) (s : pystr) : In x (strip s) -> In x s.
Proof.
  unfold strip, strip_by. intros H. by apply in_rstrip_by, in_lstrip_by in H.
Qed.

Lemma rstrip_by_idem (p : N -> bool) (s : pystr) :
  rstrip_by p (rstrip_by p s) = rstrip_by p s.
Proof.
  induction s as [|c s IH]; simpl; [done|].
  destruct (rstrip_by p s) as [|y r] eqn:E.
  - destruct (p c) eqn:Hc; simpl; [done|]. by rewrite Hc.
  - change (rstrip_by p (c :: y :: r)) with
      (match rstrip_by p (y :: r) with [] => if p c then [] else [c] | r' => c :: r' end).
    by rewrite IH.
Qed.

Lemma lstrip_by_head (p : N -> bool) (s : pystr) :
  lstrip_by p s = [] \/ exists c r, lstrip_by p s = c :: r /\ p c = false.
Proof.
  induction s as [|c s IH]; simpl; [by left|].
  destruct (p c) eqn:Hc; [done|]. right. by exists c, s.
Qed.

Lemma rstrip_by_cons (p : N -> bool) (c : N) (r : pystr) :
  p c = false -> exists r', rstrip_by p (c :: r) = c :: r'.
Proof.
  intros Hc. simpl. destruct (rstrip_by p r); [|by eexists].
  rewrite Hc. by eexists.
Qed.

Lemma strip_by_idem (p : N -> bool) (s : pystr) :
  strip_by p (strip_by p s) = strip_by p s.
Proof.
  unfold strip_by.
  assert (H : lstrip_by p (rstrip_by p (lstrip_by p s)) = rstrip_by p (lstrip_by p s)).
  { destruct (lstrip_by_head p s) as [->|(c & r & -> & Hc)]; [done|].
    destruct (rstrip_by_cons p c r Hc) as [r' ->]. simpl. by rewrite Hc. }
  rewrite H. apply rstrip_by_idem.
Qed.

Lemma spaced_ok_sub_spaces (b : bool) (s : pystr) :
  spaced_ok b (sub_spaces b s) = true.
Proof.
  revert b. induction s as [|c s IH]; intros b; simpl; [done|].
  destruct (isspace c) eqn:Hc.
  - destruct b; [apply IH|]. simpl. apply IH.
  - simpl. rewrite Hc. apply IH.
Qed.

Lemma sub_spaces_normal (b : bool) (s : pystr) :
  spaced_ok b s = true -> sub_spaces b s = s.
Proof.
  revert b. induction s as [|c s IH]; intros b; simpl; [done|].
  destruct (isspace c).
  - intros [[Hc Hb]%andb_prop Hs]%andb_prop.
    apply N.eqb_eq in Hc. apply negb_true_iff in Hb. subst.
    f_equal. by apply IH.
  - intros Hs. f_equal. by apply IH.
Qed.

Lemma spaced_ok_weaken (s : pystr) :
  spaced_ok true s = true -> spaced_ok false s = true.
Proof.
  destruct s as [|c s]; simpl; [done|].
  destruct (isspace c); [|done].
  rewrite andb_false_r. done.
Qed.

Lemma spaced_ok_lstrip (b : bool) (s : pystr) :
  spaced_ok b s = true -> spaced_ok true (lstrip_by isspace s) = true.
Proof.
  revert b. induction s as [|c s IH]; intros b; simpl; [done|].
  destruct (isspace c) eqn:Hc.
  - intros [_ Hs]%andb_prop. by apply (IH true).
  - intros Hs. simpl. by rewrite Hc.
Qed.

Lemma spaced_ok_rstrip (b : bool) (s : pystr) :
  spaced_ok b s = true -> spaced_ok b (rstrip_by isspace s) = true.
Proof.
  revert b. induction s as [|c s IH]; intros b; simpl; [done|].
  destruct (isspace c) eqn:Hc.
  - intros [Hcb Hs]%andb_prop. apply IH in Hs.
    destruct (rstrip_by isspace s); [done|].
    simpl in *. by rewrite Hc, Hcb.
  - intros Hs. apply IH in Hs.
    destruct (rstrip_by isspace s); simpl in *; by rewrite Hc.
Qed.

Lemma lstrip_normal (s : pystr) :
  spaced_ok true s = true -> lstrip_by isspace s = s.
Proof.
  destruct s as [|c s]; simpl; [done|].
  destruct (isspace c); [|done]. by rewrite andb_false_r.
Qed.

Lemma rstrip_no_trailing (s : pystr) :
  no_trailing_space s = true -> rstrip_by isspace s = s.
Proof.
  unfold no_trailing_space.
  induction s as [|c s IH]; [done|].
  destruct s as [|c' s'].
  - simpl. by intros ->%negb_true_iff.
  - intros H. change (last (c :: c' :: s')) with (last (c' :: s')) in H.
    apply IH in H.
    change (rstrip_by isspace (c :: c' :: s')) with
      (match rstrip_by isspace (c' :: s') with
       | [] => if isspace c then [] else [c] | r' => c :: r' end).
    by rewrite H.
Qed.

Variable ftfy : option (pystr -> option pystr).

(** The steps after the repair step, on a string they have nothing to do on. *)
Lemma clean_text_value_fixed (t : pystr) :
  fix_text ftfy (Some t) = t ->
  ~ In 0x200B t -> ~ In 0x22 t -> ~ In 0x201C t -> ~ In 0x201D t ->
  spaced_ok true t = true -> strip t = t ->
  clean_text_value ftfy (Some t) = t.
Proof.
  intros Hfix Hz Hq Hl Hr Hsp Hstrip.
  unfold clean_text_value. rewrite Hfix.
  rewrite (remove_char_absent 0x200B t Hz), (remove_char_absent 0x22 t Hq),
    (remove_char_absent 0x201C t Hl), (remove_char_absent 0x201D t Hr).
  rewrite (sub_spaces_normal false t (spaced_ok_weaken t Hsp)). done.
Qed.

Lemma clean_text_value_no_char (c : N) (s : pystr) :
  c = 0x200B \/ c = 0x22 \/ c = 0x201C \/ c = 0x201D ->
  ~ In c (clean_text_value ftfy (Some s)).
Proof.
  intros Hc Hin. unfold clean_text_value in Hin.
  apply in_strip, in_sub_spaces in Hin.
  destruct Hin as [->|Hin]; [by destruct Hc as [?|[?|[?|?]]]|].
  apply in_remove_char in Hin as [Hin H1].
  apply in_remove_char in Hin as [Hin H2].
  apply in_remove_char in Hin as [Hin H3].
  apply in_remove_char in Hin as [Hin H4].
  destruct Hc as [?|[?|[?|?]]]; congruence.
Qed.

Lemma clean_text_value_spaced (s : pystr) :
  spaced_ok true (clean_text_value ftfy (Some s)) = true.
Proof.
  unfold clean_text_value, strip, strip_by.
  apply spaced_ok_rstrip, (spaced_ok_lstrip false), spaced_ok_sub_spaces.
Qed.

Lemma clean_text_value_stripped (s : pystr) :
  strip (clean_text_value ftfy (Some s)) = clean_text_value ftfy (Some s).
Proof. unfold clean_text_value, strip. apply strip_by_idem. Qed.

Lemma clean_ascii_no_char (c : N) (s : pystr) :
  clean_ascii s = true -> (0x80 <= c \/ c = 0x22) -> ~ In c s.
Proof.
  unfold clean_ascii. intros [[Hall _]%andb_prop _]%andb_prop Hc Hin.
  rewrite forallb_forall in Hall. specialize (Hall c Hin).
  apply andb_prop in Hall as [Hlt Hq].
  apply N.ltb_lt in Hlt. apply negb_true_iff, N.eqb_neq in Hq. lia.
Qed.

End Normalizer.

(** Without [ftfy] the repair step leaves a string without U+0301 and U+FFFD
    alone, in particular an ASCII string. *)
Lemma fix_text_fallback_id (s : pystr) :
  ~ In ItauAuto.combining_acute s -> ~ In 0xFFFD s ->
  ItauAuto.fix_text None (Some s) = s.
Proof.
  intros Ha Hr. simpl. unfold ItauAuto.fix_text_fallback.
  assert (Hn : ItauAuto.normalize_NFC s = s).
  { clear Hr. induction s as [|c s IH]; [done|].
    destruct s as [|m r]; [done|].
    change (ItauAuto.normalize_NFC (c :: m :: r)) with
      (if m =? ItauAuto.combining_acute
       then match ItauAuto.compose_acute c with
            | Some c' => c' :: ItauAuto.normalize_NFC r
            | None => c :: ItauAuto.normalize_NFC (m :: r)
            end
       else c :: ItauAuto.normalize_NFC (m :: r)).
    destruct (N.eqb_spec m ItauAuto.combining_acute) as [->|_].
    - exfalso. apply Ha. simpl. auto.
    - f_equal. apply IH. intros H. apply Ha. by right. }
  rewrite Hn. by apply remove_char_absent.
Qed.

(** C4, counterexample.  Normalizing [e_zwsp_acute] gives "e" followed by the
    combining accent; normalizing that composes the two into "é". *)
Lemma clean_text_value_not_idempotent :
  ItauAuto.clean_text_value None (Some e_zwsp_acute) = [0x65; 0x301] /\
  ItauAuto.clean_text_value None
    (Some (ItauAuto.clean_text_value None (Some e_zwsp_acute))) = [0xE9] /\
  ItauAuto.clean_text_value None
    (Some (ItauAuto.clean_text_value None (Some e_zwsp_acute)))
  <> ItauAuto.clean_text_value None (Some e_zwsp_acute).
Proof. vm_compute. repeat split; congruence. Qed.

(** C4, amended.  The normalizer is idempotent at every string whose
    normalized form the repair step ([ftfy] or NFC) leaves unchanged, and it
    returns an already-normalized clean ASCII string unchanged whenever the
    repair step does, as the NFC fallback always does. *)
Theorem clean_text_value_idempotent_after_repair
    (ftfy : option (pystr -> option pystr)) (s : pystr) :
  (ItauAuto.fix_text ftfy (Some (ItauAuto.clean_text_value ftfy (Some s)))
     = ItauAuto.clean_text_value ftfy (Some s) ->
   ItauAuto.clean_text_value ftfy (Some (ItauAuto.clean_text_value ftfy (Some s)))
     = ItauAuto.clean_text_value ftfy (Some s))
  /\ (clean_ascii s = true -> ItauAuto.fix_text ftfy (Some s) = s ->
      ItauAuto.clean_text_value ftfy (Some s) = s)
  /\ (clean_ascii s = true -> ItauAuto.clean_text_value None (Some s) = s).
Proof.
  assert (Hascii : forall ftfy', clean_ascii s = true ->
                                 ItauAuto.fix_text ftfy' (Some s) = s ->
                                 ItauAuto.clean_text_value ftfy' (Some s) = s).
  { intros ftfy' Hclean Hfix. apply clean_text_value_fixed; try done.
    + apply (clean_ascii_no_char _ _ Hclean). left. lia.
    + apply (clean_ascii_no_char _ _ Hclean). by right.
    + apply (clean_ascii_no_char _ _ Hclean). left. lia.
    + apply (clean_ascii_no_char _ _ Hclean). left. lia.
    + unfold clean_ascii in Hclean. by apply andb_prop in Hclean as [[_ ?]%andb_prop _].
    + unfold clean_ascii in Hclean. apply andb_prop in Hclean as [[_ Hsp]%andb_prop Hnt].
      unfold strip, strip_by. rewrite (lstrip_normal s Hsp). by apply rstrip_no_trailing. }
  split; [|split; [apply Hascii|]].
  2: { intros Hclean. apply Hascii; [done|]. apply fix_text_fallback_id.
       - apply (clean_ascii_no_char _ _ Hclean). left. unfold ItauAuto.combining_acute. lia.
       - apply (clean_ascii_no_char _ _ Hclean). left. lia. }
  - intros Hfix. apply clean_text_value_fixed; try done.
    + apply clean_text_value_no_char; auto.
    + apply clean_text_value_no_char; auto.
    + apply clean_text_value_no_char; auto.
    + apply clean_text_value_no_char; auto.
    + apply clean_text_value_spaced.
    + apply clean_text_value_stripped.
Qed.

Lemma clean_text_value_idempotent_after_repair_witness :
  ItauAuto.clean_text_value None
    (Some (ItauAuto.clean_text_value None (Some (py "  LOS   PINGUINOS 0447 "))))
  = ItauAuto.clean_text_value None (Some (py "  LOS   PINGUINOS 0447 "))
  /\ ItauAuto.clean_text_value None (Some (py "LOS PINGUINOS 0447")) = py "LOS PINGUINOS 0447".
Proof.
  split.
  - apply (proj1 (clean_text_value_idempotent_after_repair None (py "  LOS   PINGUINOS 0447 "))).
    vm_compute. reflexivity.
  - apply (proj2 (proj2 (clean_text_value_idempotent_after_repair None
                           (py "LOS PINGUINOS 0447")))).
    vm_compute. reflexivity.
Defined.

(** ** RUT/DV normalization of a row *)

Section RutDv.

Import ItauAuto.

Variable ftfy : option (pystr -> option pystr).

Lemma truthy_true (s : pystr) : truthy s = true <-> s <> [].
Proof. destruct s; simpl; split; congruence. Qed.

Lemma truthy_false (s : pystr) : truthy s = false <-> s = [].
Proof. destruct s; simpl; split; congruence. Qed.

Lemma str_eqb_true (a b : pystr) : str_eqb a b = true <-> a = b.
Proof. unfold str_eqb. apply bool_decide_eq_true. Qed.

Lemma str_eqb_false (a b : pystr) : str_eqb a b = false <-> a <> b.
Proof. unfold str_eqb. apply bool_decide_eq_false. Qed.

(** On the output of [rut_clean_digits] the conversions of [rut_calc_dv] do
    not raise. *)
Lemma rut_calc_dv_total (rut : pystr) :
  exists calc, rut_calc_dv (rut_clean_digits rut) = Some calc.
Proof.
  unfold rut_calc_dv.
  destruct (isdigit (rut_clean_digits rut)) eqn:Hd; simpl; [|by eexists].
  assert (Hall : forallb is_decimal (rut_clean_digits rut) = true).
  { apply forallb_forall. intros c Hc.
    unfold isdigit in Hd. apply andb_prop in Hd as [_ Hd].
    rewrite forallb_forall in Hd. specialize (Hd c Hc).
    unfold rut_clean_digits in Hc. apply filter_In in Hc as [_ Hc].
    destruct (is_decimal c); [done|]. simpl in Hc.
    apply orb_prop in Hc as [->%N.eqb_eq | ->%N.eqb_eq]; vm_compute in Hd; done. }
  destruct (ints_of_decimal _ (forallb_rev _ _ Hall)) as [ds ->].
  repeat case_match; by eexists.
Qed.

Lemma normalize_rut_and_dv_total (rut dv : pystr) :
  exists calc,
    normalize_rut_and_dv ftfy rut dv
    = Some (rut_clean_digits rut, upper (clean_text_value ftfy (Some dv)), calc,
            if truthy (rut_clean_digits rut)
               && truthy (upper (clean_text_value ftfy (Some dv)))
            then str_eqb calc (upper (clean_text_value ftfy (Some dv))) else true).
Proof.
  unfold normalize_rut_and_dv.
  destruct (truthy (rut_clean_digits rut)) eqn:Hr.
  - destruct (rut_calc_dv_total rut) as [calc ->]. simpl. by exists calc.
  - simpl. by exists [].
Qed.

End RutDv.

(** C10.  The RUT/DV step returns; a pair with an empty RUT or an empty check
    digit is reported valid; the counter [rut_invalid] changes only when both
    are non-empty and the recomputed check digit differs, and then it grows by
    one; with an empty check digit the counter is left alone and the DV cell
    stays empty, with or without strict mode. *)
Theorem rut_validation_vacuous_on_partial_input
    (ftfy : option (pystr -> option pystr))
    (row : gmap string pystr) (strict_dv : bool) (stats : gmap string Z) :
  let rut_num := ItauAuto.rut_clean_digits (ItauAuto.get_str row "RUT") in
  let dv_clean := upper (ItauAuto.clean_text_value ftfy (Some (ItauAuto.get_str row "DV"))) in
  exists calc valid row' stats',
    ItauAuto.normalize_rut_and_dv ftfy (ItauAuto.get_str row "RUT") (ItauAuto.get_str row "DV")
      = Some (rut_num, dv_clean, calc, valid)
    /\ ItauAuto.clean_and_normalize_row_rut_dv ftfy row strict_dv stats = Some (row', stats')
    /\ (rut_num = [] \/ dv_clean = [] -> valid = true)
    /\ (stats' !! "rut_invalid"%string <> stats !! "rut_invalid"%string ->
        rut_num <> [] /\ dv_clean <> [] /\ calc <> dv_clean)
    /\ (rut_num <> [] -> dv_clean <> [] -> calc <> dv_clean ->
        stats' !! "rut_invalid"%string
        = Some (default 0 (stats !! "rut_invalid"%string) + 1)%Z)
    /\ (dv_clean = [] ->
        stats' !! "rut_invalid"%string = stats !! "rut_invalid"%string
        /\ row' !! "DV"%string = Some []).
Proof.
  intros rut_num dv_clean.
  destruct (normalize_rut_and_dv_total ftfy (ItauAuto.get_str row "RUT")
              (ItauAuto.get_str row "DV")) as [calc Hn].
  fold rut_num dv_clean in Hn.
  unfold ItauAuto.clean_and_normalize_row_rut_dv. rewrite Hn. simpl.
  set (stats1 := if negb (str_eqb rut_num (ItauAuto.get_str row "RUT"))
                    || negb (str_eqb dv_clean (ItauAuto.get_str row "DV"))
                 then ItauAuto.bump "normalized_rut" stats else stats).
  assert (Hs1 : stats1 !! "rut_invalid"%string = stats !! "rut_invalid"%string).
  { unfold stats1. destruct (negb _ || negb _); [|done].
    unfold ItauAuto.bump. by rewrite lookup_insert_ne. }
  destruct (truthy rut_num) eqn:Hr; destruct (truthy dv_clean) eqn:Hd; simpl;
    [destruct (str_eqb calc dv_clean) eqn:He; simpl|..];
    rewrite ?truthy_true, ?truthy_false, ?str_eqb_true, ?str_eqb_false in *;
    eexists calc, _, _, _; (split; [reflexivity|]); (split; [reflexivity|]);
    repeat split; try done;
    try (by intros [?|?]); try (intros ->; done);
    try (by rewrite Hs1);
    try (unfold ItauAuto.bump; by rewrite lookup_insert_eq, Hs1);
    try (rewrite Hd; by apply lookup_insert_eq).
Qed.

(** ** Debug merge *)

Section DebugMerge.

Import ItauAuto.

Variable ftfy : option (pystr -> option pystr).

Lemma merge_field_fills (mode : pystr) (cand row : gmap string pystr)
    (fill : gmap string Z) (f : string) :
  merge_field ftfy mode cand (row, fill) (f, f)
  = if fills ftfy mode cand row f
    then (<[f := clean_text_value ftfy (Some (get_str cand f))]> row, bump f fill)
    else (row, fill).
Proof.
  unfold merge_field, fills.
  destruct (str_eqb mode (py "only_blanks")); [done|].
  destruct (str_eqb mode (py "prefer_debug")); done.
Qed.

Lemma fills_insert_ne (mode : pystr) (cand row : gmap string pystr)
    (f0 f : string) (v : pystr) :
  f0 <> f -> fills ftfy mode cand (<[f0 := v]> row) f = fills ftfy mode cand row f.
Proof.
  intros Hne. unfold fills, get_str. by rewrite lookup_insert_ne.
Qed.

(** What the loop over the fields leaves in the row and in the fill counts. *)
Lemma merge_fold (mode : pystr) (cand : gmap string pystr)
    (l : list (string * string)) :
  NoDup (l.*1) -> Forall (fun p => p.1 = p.2) l ->
  forall (row : gmap string pystr) (fill : gmap string Z) (f : string),
    let r := fold_left (merge_field ftfy mode cand) l (row, fill) in
    if bool_decide (f ∈ l.*1) && fills ftfy mode cand row f
    then r.1 !! f = Some (clean_text_value ftfy (Some (get_str cand f)))
         /\ r.2 !! f = Some (default 0 (fill !! f) + 1)%Z
    else r.1 !! f = row !! f /\ r.2 !! f = fill !! f.
Proof.
  induction l as [|[f0 g0] l IH]; intros Hnd Hsame row fill f.
  - simpl. done.
  - rewrite fmap_cons in *. cbn [fold_left fst].
    apply NoDup_cons in Hnd as [Hf0 Hnd]. apply Forall_cons in Hsame as [Hg Hsame].
    simpl in Hg. subst g0. rewrite merge_field_fills.
    destruct (decide (f = f0)) as [->|Hne].
    + rewrite bool_decide_eq_true_2 by apply list_elem_of_here. simpl.
      specialize (IH Hnd Hsame).
      destruct (fills ftfy mode cand row f0) eqn:Hfill.
      * specialize (IH (<[f0 := clean_text_value ftfy (Some (get_str cand f0))]> row)
                      (bump f0 fill) f0).
        rewrite bool_decide_eq_false_2 in IH by done. simpl in IH.
        destruct IH as [-> ->]. unfold bump. by rewrite !lookup_insert_eq.
      * specialize (IH row fill f0).
        rewrite bool_decide_eq_false_2 in IH by done. done.
    + assert (Hmem : bool_decide (f ∈ f0 :: l.*1) = bool_decide (f ∈ l.*1)).
      { apply bool_decide_ext. rewrite elem_of_cons. split; [|by right].
        intros [?|?]; [contradiction|done]. }
      rewrite Hmem. specialize (IH Hnd Hsame).
      destruct (fills ftfy mode cand row f0) eqn:Hfill.
      * specialize (IH (<[f0 := clean_text_value ftfy (Some (get_str cand f0))]> row)
                      (bump f0 fill) f).
        rewrite fills_insert_ne in IH by done.
        unfold bump in IH. rewrite !lookup_insert_ne in IH by done. done.
      * apply IH.
Qed.

Lemma pairs_nodup : NoDup (pairs.*1).
Proof. apply NoDup_ListNoDup. repeat (constructor; [simpl; intuition discriminate|]). constructor. Qed.

Lemma pairs_same : Forall (fun p : string * string => p.1 = p.2) pairs.
Proof. repeat constructor. Qed.

Lemma truthy_entry_at (debug_map : gmap pystr (gmap string pystr)) (k : pystr) :
  truthy k = true ->
  entry_at debug_map k
  = if truthy_entry (debug_map !! k) then debug_map !! k else None.
Proof.
  intros Hk. unfold entry_at, truthy_entry. rewrite Hk.
  destruct (debug_map !! k) as [d|]; [|done].
  by destruct (bool_decide (d = ∅)).
Qed.

(** The loop over the two keys finds the matching entry, or leaves a value
    that is not a usable entry. *)
Lemma find_cand_matched (debug_map : gmap pystr (gmap string pystr))
    (row : gmap string pystr) :
  match matched_entry debug_map row with
  | Some d =>
      find_cand debug_map [key_operacion row; key_composite row] None = Some d
      /\ truthy_entry (Some d) = true
  | None =>
      truthy_entry (find_cand debug_map [key_operacion row; key_composite row] None) = false
  end.
Proof.
  unfold matched_entry. simpl.
  destruct (truthy (key_operacion row)) eqn:H1; simpl.
  - rewrite (truthy_entry_at _ _ H1).
    destruct (truthy_entry (debug_map !! key_operacion row)) eqn:E1.
    + destruct (debug_map !! key_operacion row) as [d|] eqn:L1; [done|done].
    + destruct (truthy (key_composite row)) eqn:H2; simpl.
      * rewrite (truthy_entry_at _ _ H2).
        destruct (truthy_entry (debug_map !! key_composite row)) eqn:E2.
        -- destruct (debug_map !! key_composite row) as [d|] eqn:L2; [done|done].
        -- done.
      * unfold entry_at. rewrite H2. done.
  - unfold entry_at at 1. rewrite H1.
    destruct (truthy (key_composite row)) eqn:H2; simpl.
    + rewrite (truthy_entry_at _ _ H2).
      destruct (truthy_entry (debug_map !! key_composite row)) eqn:E2.
      * destruct (debug_map !! key_composite row) as [d|] eqn:L2; [done|done].
      * done.
    + unfold entry_at. rewrite H2. done.
Qed.

End DebugMerge.

(** C9, counterexample.  With a matching trace entry and policy
    [prefer_debug], the RUT of the row is not overwritten by the different,
    non-empty RUT of the trace: RUT is not one of the merged fields.  With
    policy [only_blanks], a name that consists of a space is overwritten. *)
Lemma merge_from_debug_not_every_field :
  (ItauAuto.merge_from_debug None row_860418 trace_860418 (py "prefer_debug") ∅ ∅).1.1
    !! "RUT"%string = Some (py "11111111")
  /\ (ItauAuto.merge_from_debug None row_860418 trace_860418 (py "prefer_debug") ∅ ∅).2
    !! "debug_merge_hits"%string = Some 1%Z
  /\ (trace_860418 !! py "860418") ≫= (fun d => d !! "RUT"%string) = Some (py "22222222")
  /\ row_860418 !! "NOMBRE"%string = Some (py " ")
  /\ (ItauAuto.merge_from_debug None row_860418 trace_860418 (py "only_blanks") ∅ ∅).1.1
    !! "NOMBRE"%string = Some (py "JUAN PEREZ").
Proof. vm_compute. repeat split; reflexivity. Qed.

(** C9, amended.  The merge looks at eleven fields and compares normalized
    values.  Under [none], or without a trace, row and counters are returned
    unchanged; when no trace entry matches, the row is unchanged and the miss
    counter grows by one; when an entry matches, the hit counter grows by one
    and exactly the merged fields that the policy fills receive the normalized
    trace value and one more fill count, every other field and count staying
    as it was.  In particular [only_blanks] keeps every field whose normalized
    value is not empty, and [prefer_debug] overwrites a merged field whose
    normalized trace value is not empty and differs. *)
Theorem merge_from_debug_fill_policy
    (ftfy : option (pystr -> option pystr))
    (row : gmap string pystr) (debug_map : gmap pystr (gmap string pystr))
    (mode : pystr) (stats_fill stats : gmap string Z) :
  let r := ItauAuto.merge_from_debug ftfy row debug_map mode stats_fill stats in
  let clean := fun v => ItauAuto.clean_text_value ftfy (Some v) in
  (mode = py "none" \/ debug_map = ∅ -> r = (row, stats_fill, stats))
  /\ (mode <> py "none" -> debug_map <> ∅ -> matched_entry debug_map row = None ->
      r = (row, stats_fill, ItauAuto.bump "debug_merge_misses" stats))
  /\ (forall cand,
        mode <> py "none" -> debug_map <> ∅ -> matched_entry debug_map row = Some cand ->
        r.2 = ItauAuto.bump "debug_merge_hits" stats
        /\ forall f : string,
            (f ∈ merge_fields -> fills ftfy mode cand row f = true ->
             r.1.1 !! f = Some (clean (ItauAuto.get_str cand f))
             /\ r.1.2 !! f = Some (default 0 (stats_fill !! f) + 1)%Z)
            /\ (f ∉ merge_fields \/ fills ftfy mode cand row f = false ->
                r.1.1 !! f = row !! f /\ r.1.2 !! f = stats_fill !! f)
            /\ (mode = py "only_blanks" -> clean (ItauAuto.get_str row f) <> [] ->
                r.1.1 !! f = row !! f)
            /\ (mode = py "prefer_debug" -> f ∈ merge_fields ->
                clean (ItauAuto.get_str cand f) <> [] ->
                clean (ItauAuto.get_str cand f) <> clean (ItauAuto.get_str row f) ->
                r.1.1 !! f = Some (clean (ItauAuto.get_str cand f)))).
Proof.
  intros r clean. subst r. unfold ItauAuto.merge_from_debug.
  fold (key_operacion row) (key_composite row).
  destruct (str_eqb mode (py "none")) eqn:Hnone;
    [apply str_eqb_true in Hnone | apply str_eqb_false in Hnone].
  { cbn [orb]. repeat split; try done; try (intros; done). }
  destruct (bool_decide (debug_map = ∅)) eqn:Hempty;
    [apply bool_decide_eq_true in Hempty | apply bool_decide_eq_false in Hempty].
  { cbn [orb]. repeat split; try done; try (intros; done). }
  cbn [orb]. pose proof (find_cand_matched debug_map row) as Hfind.
  split; [by intros [?|?]|]. split.
  - intros _ _ Hm. rewrite Hm in Hfind.
    destruct (ItauAuto.find_cand debug_map [key_operacion row; key_composite row] None)
      as [d|]; [|done].
    by rewrite Hfind.
  - intros cand _ _ Hm. rewrite Hm in Hfind. destruct Hfind as [-> ->].
    pose proof (merge_fold ftfy mode cand ItauAuto.pairs pairs_nodup pairs_same
                  row stats_fill) as Hfold.
    destruct (fold_left (ItauAuto.merge_field ftfy mode cand) ItauAuto.pairs (row, stats_fill))
      as [row' fill'] eqn:Hr.
    cbn [fst snd]. split; [done|]. intros f. specialize (Hfold f). cbn [fst snd] in Hfold.
    fold merge_fields in Hfold.
    assert (Hkeep : f ∉ merge_fields \/ fills ftfy mode cand row f = false ->
                    row' !! f = row !! f /\ fill' !! f = stats_fill !! f).
    { intros [Hnot|Hno].
      - by rewrite bool_decide_eq_false_2 in Hfold.
      - by rewrite Hno, andb_false_r in Hfold. }
    assert (Hfill : f ∈ merge_fields -> fills ftfy mode cand row f = true ->
                    row' !! f = Some (clean (ItauAuto.get_str cand f))
                    /\ fill' !! f = Some (default 0 (stats_fill !! f) + 1)%Z).
    { intros Hin Hyes. by rewrite bool_decide_eq_true_2, Hyes in Hfold. }
    repeat split; try (intros; apply Hfill; done); try (intros; apply Hkeep; done).
    + intros -> Hv. apply Hkeep. right. unfold fills.
      change (str_eqb (py "only_blanks") (py "only_blanks")) with true. cbv iota.
      fold (clean (ItauAuto.get_str row f)).
      apply truthy_true in Hv. by rewrite Hv.
    + intros -> Hin Hv Hne. apply Hfill; [done|]. unfold fills.
      change (str_eqb (py "prefer_debug") (py "only_blanks")) with false.
      change (str_eqb (py "prefer_debug") (py "prefer_debug")) with true. cbv iota.
      fold (clean (ItauAuto.get_str row f)) (clean (ItauAuto.get_str cand f)).
      apply truthy_true in Hv. apply str_eqb_false in Hne. by rewrite Hv, Hne.
Qed.

Lemma merge_from_debug_fill_policy_witness :
  (ItauAuto.merge_from_debug None row_860418 trace_860418 (py "prefer_debug") ∅ ∅).1.1
    !! "NOMBRE"%string = Some (py "JUAN PEREZ").
Proof.
  pose proof (merge_from_debug_fill_policy None row_860418 trace_860418
                (py "prefer_debug") ∅ ∅) as (_ & _ & H).
  destruct (H (list_to_map [ ("OPERACION", py "860418"); ("RUT", py "22222222");
                             ("NOMBRE", py "JUAN PEREZ") ]%string)) as [_ Hf].
  - vm_compute. discriminate.
  - intros E. apply (f_equal (fun m => m !! py "860418")) in E. vm_compute in E. discriminate.
  - vm_compute. reflexivity.
  - destruct (Hf "NOMBRE"%string) as (_ & _ & _ & Hp).
    rewrite Hp; [vm_compute; reflexivity|reflexivity|..].
    + unfold merge_fields. simpl. repeat constructor.
    + vm_compute. discriminate.
    + vm_compute. discriminate.
Defined.

(** ** Document classifier *)

Lemma count_present_keyword_score (phrases : list string) (text : pystr) :
  ItauUnified.count_present (map py phrases) text = keyword_score phrases text.
Proof.
  unfold ItauUnified.count_present.
  induction phrases as [|phrase rest IH]; cbn [map List.filter keyword_score]; [done|].
  destruct (contains (py phrase) text); cbn [length]; rewrite <- IH; lia.
Qed.

Lemma keyword_score_bounds (phrases : list string) (text : pystr) :
  (0 <= keyword_score phrases text <= Z.of_nat (length phrases))%Z.
Proof.
  induction phrases as [|phrase rest IH]; cbn [keyword_score length]; [lia|].
  destruct (contains (py phrase) text); lia.
Qed.

(** C7, counterexample.  On "me obligo a pagar cuotas" each keyword score is
    one and neither structural signal of the specification is present, so
    its scores tie, whatever the two weights, and its rule answers "CC";
    the classifier answers "PP", because it adds three to the
    promissory-note score for the wording "me obligo a pagar". *)
Lemma detect_document_type_unnamed_bonus :
  claimed_pp_score text_obligo_cuotas = 1%Z
  /\ (forall w_installments w_identity : Z,
        claimed_cc_score w_installments w_identity text_obligo_cuotas = 1%Z
        /\ claimed_type w_installments w_identity text_obligo_cuotas = py "CC")
  /\ ItauUnified.detect_document_type [text_obligo_cuotas] = py "PP"
  /\ ~ (forall (w_installments w_identity : Z) (text_pages : list pystr),
          ItauUnified.detect_document_type text_pages
          = claimed_type w_installments w_identity (join newline text_pages)).
Proof.
  split; [vm_compute; reflexivity|]. split; [intros w1 w2; vm_compute; split; reflexivity|].
  split; [vm_compute; reflexivity|].
  intros H. specialize (H 0%Z 0%Z [text_obligo_cuotas]). vm_compute in H. discriminate.
Qed.

(** C7, amended.  The classifier answers "PP" exactly when the
    promissory-note score is strictly higher than the installment-loan
    score, and "CC" otherwise, in particular on a tie.  Each score is the
    number of its indicative phrases that occur in the upper-cased text, a
    phrase counting once; the installment-loan score has three more for "en N
    cuotas", ten more for "pagaré crédito de consumo" and four more for the
    header of the identity block, the promissory-note score three more for
    "pagaré" or "me obligo a pagar". *)
Theorem detect_document_type_by_score (text_pages : list pystr) :
  let text := join newline text_pages in
  ItauUnified.detect_document_type text_pages
  = (if (cc_total text <? pp_total text)%Z then py "PP" else py "CC")
  /\ ((pp_total text > cc_total text)%Z ->
      ItauUnified.detect_document_type text_pages = py "PP")
  /\ ((pp_total text <= cc_total text)%Z ->
      ItauUnified.detect_document_type text_pages = py "CC")
  /\ (0 <= keyword_score pp_phrases (upper text) <= 8)%Z
  /\ (0 <= keyword_score cc_phrases (upper text) <= 9)%Z
  /\ (0 <= pp_total text <= 11)%Z /\ (0 <= cc_total text <= 26)%Z.
Proof.
  intros text.
  pose proof (keyword_score_bounds pp_phrases (upper text)) as Hpp.
  pose proof (keyword_score_bounds cc_phrases (upper text)) as Hcc.
  change (Z.of_nat (length pp_phrases)) with 8%Z in Hpp.
  change (Z.of_nat (length cc_phrases)) with 9%Z in Hcc.
  assert (Hd : ItauUnified.detect_document_type text_pages
               = if (cc_total text <? pp_total text)%Z then py "PP" else py "CC").
  { unfold ItauUnified.detect_document_type. cbv zeta. fold text.
    change ItauUnified.pp_indicators with (map py pp_phrases).
    change ItauUnified.cc_indicators with (map py cc_phrases).
    rewrite !count_present_keyword_score.
    unfold pp_total, cc_total, bonus, promissory_wording, in_n_installments,
      loan_promissory_wording, identity_block_header.
    change (Re.compile "\ben\s+\d+\s+cuotas\b") with ItauUnified.re_en_n_cuotas.
    change (Re.compile "pagar[ée]?\s+cr[ée]dito\s+de?\s+consumo")
      with ItauUnified.re_pagare_credito_consumo.
    change (Re.compile "pagar[ée]|me\s+obligo\s+a\s+pagar") with ItauUnified.re_pagare_obligo.
    change (Re.compile "Nombre\s+y\s+Apellidos\s+del\s+deudor")
      with ItauUnified.re_nombre_deudor.
    change (Re.compile "C[eé]dula\s+de\s+Identidad") with ItauUnified.re_cedula_identidad.
    rewrite Z.gtb_ltb.
    destruct (Re.found true ItauUnified.re_en_n_cuotas text),
      (Re.found true ItauUnified.re_pagare_credito_consumo text),
      (Re.found true ItauUnified.re_pagare_obligo text),
      (Re.found true ItauUnified.re_nombre_deudor text),
      (Re.found true ItauUnified.re_cedula_identidad text); cbn [andb];
      rewrite ?Z.add_0_r; reflexivity. }
  split; [exact Hd|]. rewrite Hd.
  split; [intros H; destruct (Z.ltb_spec (cc_total text) (pp_total text)); [done|lia]|].
  split; [intros H; destruct (Z.ltb_spec (cc_total text) (pp_total text)); [lia|done]|].
  split; [exact Hpp|]. split; [exact Hcc|].
  unfold pp_total, cc_total, bonus.
  destruct (promissory_wording text), (in_n_installments text),
    (loan_promissory_wording text), (identity_block_header text); lia.
Qed.

Lemma detect_document_type_by_score_witness :
  ItauUnified.detect_document_type [py "PAGARE"; py "Debo y pagare la suma"] = py "PP"
  /\ ItauUnified.detect_document_type [py "Credito de consumo en 12 cuotas"] = py "CC"
  /\ ItauUnified.detect_document_type [py "Pagare en 12 cuotas"]
     = py "CC".
Proof.
  split; [|split].
  - apply (proj1 (proj2 (detect_document_type_by_score
                           [py "PAGARE"; py "Debo y pagare la suma"]))).
    vm_compute. reflexivity.
  - apply (proj1 (proj2 (proj2 (detect_document_type_by_score
                                  [py "Credito de consumo en 12 cuotas"])))).
    vm_compute. discriminate.
  - apply (proj1 (proj2 (proj2 (detect_document_type_by_score
                                  [py "Pagare en 12 cuotas"])))).
    vm_compute. discriminate.
Defined.

(** ** RUT candidate chooser *)

Section Chooser.

Import ItauUnified.

Variable sus_pos : option nat.
Variable doc_type : pystr.

Local Abbreviation sc := (score_of sus_pos doc_type).

(** No remaining candidate beats the best score so far. *)
Lemma choose_loop_keep (ruts : list candidate) (best : option (pystr * pystr)) (bs : Z) :
  (forall c, In c ruts -> is_bank_rut c = false -> (sc c <= bs)%Z) ->
  choose_loop sus_pos doc_type ruts best bs = best.
Proof.
  revert best bs. induction ruts as [|c ruts IH]; intros best bs Hall; simpl; [done|].
  destruct (is_bank_rut c) eqn:Hb.
  - apply IH. intros x Hx. apply Hall. by right.
  - pose proof (Hall c (or_introl eq_refl) Hb) as Hc. fold (sc c).
    destruct (Z.gtb_spec (sc c) bs); [lia|].
    apply IH. intros x Hx. apply Hall. by right.
Qed.

(** The first candidate that attains the highest score above the threshold
    is the one that the loop returns. *)
Lemma choose_loop_pick (pre post : list candidate) (c : candidate)
    (best : option (pystr * pystr)) (bs : Z) :
  is_bank_rut c = false -> (bs < sc c)%Z ->
  (forall x, In x pre -> is_bank_rut x = false -> (sc x < sc c)%Z) ->
  (forall x, In x post -> is_bank_rut x = false -> (sc x <= sc c)%Z) ->
  choose_loop sus_pos doc_type (pre ++ c :: post) best bs = Some (c_rut c, c_dv c).
Proof.
  intros Hb Hc Hpre Hpost. revert best bs Hc.
  induction pre as [|x pre IH]; intros best bs Hc; simpl.
  - rewrite Hb. fold (sc c). destruct (Z.gtb_spec (sc c) bs); [|lia].
    by apply choose_loop_keep.
  - assert (Hpre' : forall y, In y pre -> is_bank_rut y = false -> (sc y < sc c)%Z).
    { intros y Hy. apply Hpre. by right. }
    destruct (is_bank_rut x) eqn:Hx; [by apply IH|].
    pose proof (Hpre x (or_introl eq_refl) Hx). fold (sc x).
    destruct (Z.gtb_spec (sc x) bs); by apply IH.
Qed.

(** Either nothing beats the threshold, or the result is a candidate of the
    list that no earlier candidate equals and no candidate exceeds. *)
Lemma choose_loop_result (ruts : list candidate) (best : option (pystr * pystr)) (bs : Z) :
  (choose_loop sus_pos doc_type ruts best bs = best
   /\ forall c, In c ruts -> is_bank_rut c = false -> (sc c <= bs)%Z)
  \/ exists pre c post,
      ruts = pre ++ c :: post
      /\ choose_loop sus_pos doc_type ruts best bs = Some (c_rut c, c_dv c)
      /\ is_bank_rut c = false /\ (bs < sc c)%Z
      /\ (forall x, In x pre -> is_bank_rut x = false -> (sc x < sc c)%Z)
      /\ (forall x, In x post -> is_bank_rut x = false -> (sc x <= sc c)%Z).
Proof.
  revert best bs. induction ruts as [|c ruts IH]; intros best bs.
  - left. split; [done|]. intros c [].
  - simpl. destruct (is_bank_rut c) eqn:Hb.
    + destruct (IH best bs) as [[Hk Hall]|(pre & c' & post & -> & Hr & Hb' & Hc' & Hpre & Hpost)].
      * left. split; [done|]. intros x [<-|Hx] Hbx; [congruence|auto].
      * right. exists (c :: pre), c', post. repeat split; try done.
        intros x [<-|Hx] Hbx; [congruence|auto].
    + fold (sc c). destruct (Z.gtb_spec (sc c) bs) as [Hgt|Hle].
      * right.
        destruct (IH (Some (c_rut c, c_dv c)) (sc c))
          as [[Hk Hall]|(pre & c' & post & -> & Hr & Hb' & Hc' & Hpre & Hpost)].
        -- exists [], c, ruts. repeat split; try done; try (by intros x []).
        -- exists (c :: pre), c', post. repeat split; try done; try lia.
           intros x [<-|Hx] Hbx; [lia|auto].
      * destruct (IH best bs) as [[Hk Hall]|(pre & c' & post & -> & Hr & Hb' & Hc' & Hpre & Hpost)].
        -- left. split; [done|]. intros x [<-|Hx] Hbx; [lia|auto].
        -- right. exists (c :: pre), c', post. repeat split; try done.
           intros x [<-|Hx] Hbx; [lia|auto].
Qed.

(** *** Bounds on the score *)

Lemma proximity_bounds (a b : nat) :
  (0 <= Z.max 0 (300 - distance a b) / 10 <= 30)%Z.
Proof.
  unfold distance. split.
  - apply Z.div_pos; lia.
  - apply Z.div_le_upper_bound; lia.
Qed.

Lemma score_unpenalised (c : candidate) :
  Re.found true banco_pat (c_ctx c) = false -> (c_base c <= sc c)%Z.
Proof.
  intros Hb. unfold sc, score_of. rewrite Hb.
  destruct sus_pos as [sp|];
    [pose proof (proximity_bounds (c_pos c) sp)|];
    repeat case_match; lia.
Qed.

Lemma score_penalised (c : candidate) :
  Re.found true banco_pat (c_ctx c) = true -> (0 <= sc c)%Z -> (c_base c <= 20)%Z ->
  doc_type = py "PP"
  /\ ((15 <= c_base c)%Z \/ Re.found true re_cl_rut (c_ctx c) = true
      \/ Re.found true re_ci_rut (c_ctx c) = true).
Proof.
  intros Hb. unfold sc, score_of. rewrite Hb.
  destruct (str_eqb doc_type (py "PP")) eqn:Hd.
  - apply str_eqb_true in Hd.
    destruct (Z.geb_spec (c_base c) 15) as [Hge|Hlt]; [auto|].
    destruct (Re.found true re_cl_rut (c_ctx c)); [auto|].
    destruct (Re.found true re_ci_rut (c_ctx c)); [auto|].
    intros Hs Hbase. exfalso.
    destruct sus_pos as [sp|];
      [pose proof (proximity_bounds (c_pos c) sp)|];
      repeat case_match; lia.
  - intros Hs Hbase. exfalso. repeat case_match; lia.
Qed.

End Chooser.

(** Every candidate of [find_all_ruts] carries the base weight of one of the
    ten patterns. *)
Lemma find_all_ruts_base (text : pystr) (c : ItauUnified.candidate) :
  In c (ItauUnified.find_all_ruts text) -> (2 <= ItauUnified.c_base c <= 20)%Z.
Proof.
  unfold ItauUnified.find_all_ruts, ItauUnified.generic_candidates.
  rewrite !in_app_iff, !in_flat_map.
  intros [(pb & Hpb & Hc)|[(m & _ & Hc)|(m & _ & Hc)]].
  - unfold ItauUnified.labelled_candidates in Hc. apply in_map_iff in Hc as (m & <- & _).
    cbn [ItauUnified.c_base].
    unfold ItauUnified.labelled_patterns in Hpb.
    repeat (destruct Hpb as [<-|Hpb]; [cbn [snd]; lia|]). destruct Hpb.
  - destruct (Re.found true ItauUnified.re_operacion_producto _); [destruct Hc|].
    destruct Hc as [<-|[]]. cbn [ItauUnified.c_base]. lia.
  - destruct (Re.found true ItauUnified.re_operacion_producto _); [destruct Hc|].
    destruct Hc as [<-|[]]. cbn [ItauUnified.c_base]. lia.
Qed.

(** C5, counterexample.  On [text_two_ruts], read as a promissory note, the
    RUT at position 7 and the RUT at position 19 both score 33; the chooser
    returns the one at position 19, which the candidate list holds first
    because the dotted pattern is tried before the plain one. *)
Lemma choose_rut_tie_not_lowest_position :
  map (fun c => (ItauUnified.c_pos c, ItauUnified.c_rut c, ItauUnified.c_dv c,
                 ItauUnified.score_of
                   (Re.start <$> Re.search true ItauUnified.re_sus text_two_ruts)
                   (py "PP") c))
      (ItauUnified.find_all_ruts text_two_ruts)
  = [ (19%nat, py "12345678", py "5", 33%Z); (7%nat, py "1234567", py "8", 33%Z) ]
  /\ ItauUnified.choose_rut_for_doc text_two_ruts
       (ItauUnified.find_all_ruts text_two_ruts) (py "PP")
     = (py "12345678", py "5").
Proof. vm_compute. split; reflexivity. Qed.

(** C5, amended.  Among the candidates other than the bank's own RUT, the
    chooser returns the first one in candidate-list order that attains the
    highest score, provided that score is not negative; when every such
    candidate scores below zero, and when the list is empty, it returns empty
    values. *)
Theorem choose_rut_first_highest
    (text : pystr) (ruts : list ItauUnified.candidate) (doc_type : pystr) :
  let sc := ItauUnified.score_of
              (Re.start <$> Re.search true ItauUnified.re_sus text) doc_type in
  (ruts = [] -> ItauUnified.choose_rut_for_doc text ruts doc_type = ([], []))
  /\ ((forall c, In c ruts -> ItauUnified.is_bank_rut c = false -> (sc c < 0)%Z) ->
      ItauUnified.choose_rut_for_doc text ruts doc_type = ([], []))
  /\ (forall pre c post,
        ruts = pre ++ c :: post ->
        ItauUnified.is_bank_rut c = false -> (0 <= sc c)%Z ->
        (forall x, In x pre -> ItauUnified.is_bank_rut x = false -> (sc x < sc c)%Z) ->
        (forall x, In x post -> ItauUnified.is_bank_rut x = false -> (sc x <= sc c)%Z) ->
        ItauUnified.choose_rut_for_doc text ruts doc_type
        = (ItauUnified.c_rut c, ItauUnified.c_dv c)).
Proof.
  intros sc. split; [by intros ->|]. split.
  - intros Hall. unfold ItauUnified.choose_rut_for_doc.
    destruct ruts as [|c0 r]; [done|].
    rewrite choose_loop_keep; [done|].
    intros c Hc Hb. specialize (Hall c Hc Hb). fold sc. lia.
  - intros pre c post -> Hb Hc Hpre Hpost. unfold ItauUnified.choose_rut_for_doc.
    destruct (pre ++ c :: post) as [|c0 r] eqn:E; [by destruct pre|].
    rewrite <- E. rewrite (choose_loop_pick _ _ pre post c); try done. fold sc. lia.
Qed.

Lemma choose_rut_first_highest_witness :
  ItauUnified.choose_rut_for_doc text_two_ruts
    (ItauUnified.find_all_ruts text_two_ruts) (py "PP")
  = (py "12345678", py "5").
Proof.
  pose proof (choose_rut_first_highest text_two_ruts
                (ItauUnified.find_all_ruts text_two_ruts) (py "PP")) as (_ & _ & H).
  rewrite (H [] (ItauUnified.Candidate 19 (py "12345678") (py "5") text_two_ruts 3)
             [ItauUnified.Candidate 7 (py "1234567") (py "8") text_two_ruts 2]).
  - reflexivity.
  - vm_compute. reflexivity.
  - vm_compute. reflexivity.
  - vm_compute. discriminate.
  - intros x [].
  - intros x [<-|[]] _. vm_compute. discriminate.
Defined.

(** C6, counterexample.  On [text_labelled_bank_then_debtor], read as a
    promissory note, the bank's RUT scores 35 in spite of the penalty (label
    bonuses 25 and 20, proximity 20) and the debtor's RUT, right after
    "Suscriptor:", scores 33: the chooser returns the bank's RUT.  On the
    short page [text_bank_and_debtor] the window of the debtor's RUT reaches
    back to "Representado por Banco": both RUTs are penalised, every score is
    negative, and the chooser returns empty values for either document
    type. *)
Lemma choose_rut_bank_context_reaches_debtor :
  ItauUnified.choose_rut_for_doc text_labelled_bank_then_debtor
    (ItauUnified.find_all_ruts text_labelled_bank_then_debtor) (py "PP")
  = (py "97030000", py "7")
  /\ map (fun c => (ItauUnified.c_pos c, ItauUnified.c_rut c, ItauUnified.c_base c,
                    Re.found true ItauUnified.banco_pat (ItauUnified.c_ctx c),
                    ItauUnified.score_of
                      (Re.start <$> Re.search true ItauUnified.re_sus
                                      text_labelled_bank_then_debtor)
                      (py "PP") c))
       (ItauUnified.find_all_ruts text_labelled_bank_then_debtor)
     = [ (38%nat, py "97030000", 18%Z, true, 35%Z); (38%nat, py "97030000", 17%Z, true, 34%Z);
         (38%nat, py "97030000", 15%Z, true, 32%Z); (38%nat, py "97030000", 10%Z, true, 2%Z);
         (38%nat, py "97030000", 3%Z, true, (-5)%Z);
         (148%nat, py "12345678", 3%Z, false, 33%Z) ]
  /\ map (fun c => (ItauUnified.c_pos c, ItauUnified.c_rut c, ItauUnified.c_dv c,
                 Re.found true ItauUnified.banco_pat (ItauUnified.c_ctx c)))
      (ItauUnified.find_all_ruts text_bank_and_debtor)
  = [ (30%nat, py "97030000", py "7", true); (72%nat, py "12345678", py "5", true);
      (30%nat, py "97030000", py "7", true); (72%nat, py "12345678", py "5", true) ]
  /\ ItauUnified.choose_rut_for_doc text_bank_and_debtor
       (ItauUnified.find_all_ruts text_bank_and_debtor) (py "PP") = ([], [])
  /\ ItauUnified.choose_rut_for_doc text_bank_and_debtor
       (ItauUnified.find_all_ruts text_bank_and_debtor) (py "CC") = ([], []).
Proof. vm_compute. repeat split; reflexivity. Qed.

(** C6, amended.  When the page has a candidate, other than the bank's own
    RUT, whose context window holds no bank token (the debtor's RUT away from
    the bank's), the chooser returns a candidate that scores at least as much;
    a candidate with a bank token in its window is returned only for a
    promissory note and only when it carries a C.I/RUT or C.L/RUT label, so
    never for an installment loan. *)
Theorem choose_rut_avoids_bank_context
    (text doc_type : pystr) (d : ItauUnified.candidate) :
  let ruts := ItauUnified.find_all_ruts text in
  let sc := ItauUnified.score_of
              (Re.start <$> Re.search true ItauUnified.re_sus text) doc_type in
  In d ruts -> ItauUnified.is_bank_rut d = false ->
  Re.found true ItauUnified.banco_pat (ItauUnified.c_ctx d) = false ->
  exists c,
    In c ruts
    /\ ItauUnified.choose_rut_for_doc text ruts doc_type
       = (ItauUnified.c_rut c, ItauUnified.c_dv c)
    /\ ItauUnified.is_bank_rut c = false
    /\ (sc d <= sc c)%Z
    /\ (Re.found true ItauUnified.banco_pat (ItauUnified.c_ctx c) = true ->
        doc_type = py "PP"
        /\ ((15 <= ItauUnified.c_base c)%Z
            \/ Re.found true ItauUnified.re_cl_rut (ItauUnified.c_ctx c) = true
            \/ Re.found true ItauUnified.re_ci_rut (ItauUnified.c_ctx c) = true)).
Proof.
  intros ruts sc Hd Hbd Hclean.
  pose proof (find_all_ruts_base text) as Hbase. fold ruts in Hbase.
  pose proof (score_unpenalised
                (Re.start <$> Re.search true ItauUnified.re_sus text) doc_type d Hclean) as Hsd.
  pose proof (Hbase d Hd) as Hbd2. subst sc. cbv beta.
  unfold ItauUnified.choose_rut_for_doc.
  destruct ruts as [|c0 r] eqn:E; [destruct Hd|]. rewrite <- E in *.
  destruct (choose_loop_result
              (Re.start <$> Re.search true ItauUnified.re_sus text) doc_type ruts None (-1))
    as [[_ Hall]|(pre & c & post & Hr & -> & Hb & Hc & Hpre & Hpost)].
  - specialize (Hall d Hd Hbd). exfalso. lia.
  - assert (Hin : In c ruts) by (rewrite Hr, in_app_iff; right; by left).
    exists c. split; [done|]. split; [done|]. split; [done|]. split.
    + rewrite Hr, in_app_iff in Hd. destruct Hd as [Hd|[<-|Hd]].
      * specialize (Hpre d Hd Hbd). lia.
      * lia.
      * by apply Hpost.
    + intros Hpen.
      apply (score_penalised (Re.start <$> Re.search true ItauUnified.re_sus text)
               doc_type c Hpen); [lia|].
      apply (Hbase c Hin).
Qed.

Lemma choose_rut_avoids_bank_context_witness :
  exists c,
    In c (ItauUnified.find_all_ruts text_bank_far_from_debtor)
    /\ ItauUnified.choose_rut_for_doc text_bank_far_from_debtor
         (ItauUnified.find_all_ruts text_bank_far_from_debtor) (py "CC")
       = (ItauUnified.c_rut c, ItauUnified.c_dv c)
    /\ (ItauUnified.c_rut c, ItauUnified.c_dv c) = (py "12345678", py "5").
Proof.
  destruct (choose_rut_avoids_bank_context text_bank_far_from_debtor (py "CC")
              (nth 1 (ItauUnified.find_all_ruts text_bank_far_from_debtor)
                 (ItauUnified.Candidate 0 [] [] [] 0)))
    as (c & Hin & Hc & _).
  - apply nth_In. vm_compute. lia.
  - vm_compute. reflexivity.
  - vm_compute. reflexivity.
  - exists c. split; [done|]. split; [done|].
    rewrite <- Hc. vm_compute. reflexivity.
Defined.

(** ** Page OCR driver *)

Section OcrDriver.

Import OcrToCsv.

Lemma insert_by_len_perm (x : pystr) (l : list pystr) :
  insert_by_len x l ≡ₚ x :: l.
Proof.
  induction l as [|y l IH]; simpl; [done|].
  destruct (length x <? length y)%nat; [|done].
  rewrite IH. apply Permutation_swap.
Qed.

Lemma sorted_by_len_desc_perm (l : list pystr) : sorted_by_len_desc l ≡ₚ l.
Proof.
  induction l as [|x l IH]; simpl; [done|].
  rewrite insert_by_len_perm. by rewrite IH.
Qed.

Lemma insert_by_len_sorted (x : pystr) (l : list pystr) :
  StronglySorted longer_first l -> StronglySorted longer_first (insert_by_len x l).
Proof.
  induction l as [|y l IH]; simpl; intros Hs.
  - repeat constructor.
  - apply StronglySorted_inv in Hs as [Hl Hy].
    destruct (Nat.ltb_spec (length x) (length y)) as [Hlt|Hge].
    + constructor; [by apply IH|].
      rewrite Forall_forall. intros z Hz. rewrite insert_by_len_perm in Hz.
      apply elem_of_cons in Hz as [->|Hz]; [unfold longer_first; lia|].
      rewrite Forall_forall in Hy. by apply Hy.
    + constructor; [by constructor|].
      constructor; [done|].
      rewrite Forall_forall in *. intros z Hz. specialize (Hy z Hz).
      unfold longer_first in *. lia.
Qed.

Lemma sorted_by_len_desc_sorted (l : list pystr) :
  StronglySorted longer_first (sorted_by_len_desc l).
Proof.
  induction l as [|x l IH]; simpl; [constructor|]. by apply insert_by_len_sorted.
Qed.

(** The set that the loop over the results builds. *)
Lemma all_lines_elem (results : list pystr) (acc : gset pystr) (l : pystr) :
  l ∈ fold_left (fun (all_lines : gset pystr) text =>
                   all_lines ∪ list_to_set (split_char 0x0A text)) results acc
  <-> l ∈ acc \/ exists t, In t results /\ In l (split_char 0x0A t).
Proof.
  revert acc. induction results as [|t results IH]; intros acc; simpl.
  - split; [auto|]. intros [?|(t & [] & _)]. done.
  - rewrite IH, elem_of_union, elem_of_list_to_set, list_elem_of_In. split.
    + intros [[?|?]|(t' & ? & ?)]; eauto 6.
    + intros [?|(t' & [<-|?] & ?)]; eauto 6.
Qed.

Variable image : Type.
Variable image_to_string : image -> string -> option pystr.
Variable iter_set : gset pystr -> list pystr.
Hypothesis iter_set_enumerates : forall X : gset pystr, iter_set X ≡ₚ elements X.

Lemma run_configs_over (img : image) (cs : list string) (acc : list pystr) :
  (forall config, In config cs -> contributes_nothing image image_to_string img config) ->
  fold_left
    (fun text_results config =>
       match image_to_string img config with
       | Some text =>
           let text := strip text in
           if truthy text then text_results ++ [text] else text_results
       | None => text_results
       end) cs acc = acc.
Proof.
  revert acc. induction cs as [|config cs IH]; intros acc Hall; simpl; [done|].
  pose proof (Hall config (or_introl eq_refl)) as Hc. unfold contributes_nothing in Hc.
  destruct (image_to_string img config) as [text|].
  - rewrite Hc. simpl. apply IH. intros c Hin. apply Hall. by right.
  - apply IH. intros c Hin. apply Hall. by right.
Qed.

Lemma run_configs_nothing (img : image) :
  (forall config, In config configs -> contributes_nothing image image_to_string img config) ->
  run_configs image image_to_string img = [].
Proof. intros Hall. unfold run_configs. by apply run_configs_over. Qed.

Lemma extract_text_lines (img : image) :
  exists lines,
    extract_text_from_image image image_to_string iter_set (Some img)
    = Some (join newline lines)
    /\ NoDup lines
    /\ StronglySorted longer_first lines
    /\ (forall l, In l lines <->
                  exists t, In t (run_configs image image_to_string img)
                            /\ In l (split_char 0x0A t)).
Proof.
  unfold extract_text_from_image.
  destruct (run_configs image image_to_string img) as [|t rest] eqn:E.
  - exists []. split; [done|]. split; [constructor|]. split; [constructor|].
    intros l. split; [intros []|intros (t' & [] & _)].
  - set (all_lines := fold_left _ (t :: rest) ∅).
    exists (sorted_by_len_desc (iter_set all_lines)).
    assert (Hperm : sorted_by_len_desc (iter_set all_lines) ≡ₚ elements all_lines).
    { by rewrite sorted_by_len_desc_perm. }
    split; [done|]. split; [|split].
    + rewrite Hperm. apply NoDup_elements.
    + apply sorted_by_len_desc_sorted.
    + intros l. rewrite <- list_elem_of_In, Hperm, elem_of_elements.
      unfold all_lines. rewrite all_lines_elem. split.
      * intros [H|H]; [by apply not_elem_of_empty in H|done].
      * auto.
Qed.

End OcrDriver.

(** C8.  Every configuration reads the two lines "a" and "bcd": the four
    kept results are this text, so the longest result, the primary text of
    the specification and of the comment in the function, is "a" above "bcd",
    and no other result has a line that it lacks.  The function computes the
    longest result and does not use it: it returns "bcd" above "a". *)
Lemma extract_text_reorders_primary_text :
  OcrToCsv.run_configs unit (fun _ _ => Some page_a_bcd) tt
  = [page_a_bcd; page_a_bcd; page_a_bcd; page_a_bcd]
  /\ primary_then_unique_lines elements
       (OcrToCsv.run_configs unit (fun _ _ => Some page_a_bcd) tt) = page_a_bcd
  /\ OcrToCsv.extract_text_from_image unit (fun _ _ => Some page_a_bcd) elements (Some tt)
     = Some (py "bcd" ++ newline ++ py "a")
  /\ OcrToCsv.extract_text_from_image unit (fun _ _ => Some page_a_bcd) elements (Some tt)
     <> Some (primary_then_unique_lines elements
                (OcrToCsv.run_configs unit (fun _ _ => Some page_a_bcd) tt)).
Proof. vm_compute. repeat split; congruence. Qed.

(** ** Batch runs *)

Section CsvBatch.

Import OcrToCsv.

Variable image : Type.
Variable image_to_string : image -> string -> option pystr.
Variable iter_set : gset pystr -> list pystr.
Variable path : Type.
Variable name : path -> pystr.
Variable pdf_to_images : path -> list path.
Variable image_open : path -> option image.
Variable fields_to_row : pystr -> pystr -> option (gmap string pystr).




End CsvBatch.

Section UnifiedBatch.

Import ItauUnified.

Variable ex : extractors.
Variable pdf image : Type.
Variable pdf_name : pdf -> pystr.
Variable convert_pdf_to_images : pdf -> list image.
Variable ocr_image_to_text : image -> pystr.


End UnifiedBatch.




(** ** Canonical records *)

Lemma list_to_map_keys (l : list (string * pystr)) (k : string) :
  is_Some ((list_to_map l : gmap string pystr) !! k) <-> In k (l.*1).
Proof.
  by rewrite <- elem_of_dom, dom_list_to_map_L, elem_of_list_to_set, list_elem_of_In.
Qed.

Lemma process_pagare_keys (ex : ItauUnified.extractors) (text_pages : list pystr)
    (source_name : option pystr) (k : string) :
  is_Some (ItauUnified.process_pagare ex text_pages source_name !! k)
  <-> In k ItauUnified.UNIFIED_COLUMNS.
Proof.
  unfold ItauUnified.process_pagare.
  destruct (ItauUnified.extract_representantes_allpages ex text_pages) as [rep1 rep2].
  cbv zeta. by rewrite list_to_map_keys.
Qed.

Lemma process_credito_consumo_keys (ex : ItauUnified.extractors) (text_pages : list pystr)
    (source_name : option pystr) (k : string) :
  is_Some (ItauUnified.process_credito_consumo ex text_pages source_name !! k)
  <-> In k ItauUnified.UNIFIED_COLUMNS.
Proof.
  unfold ItauUnified.process_credito_consumo.
  destruct (ItauUnified.extract_representantes_allpages ex text_pages) as [rep1 rep2].
  cbv zeta. by rewrite list_to_map_keys.
Qed.

(** C2.  The rows of the promissory-note path, of the installment-loan path
    and of the dispatcher between them have exactly the unified columns as
    keys, each with a string value, for every list of page texts, the empty
    list included; the empty row of the CSV generator has exactly the columns
    of its CSV file. *)
Theorem canonical_keys_always_present :
  (forall (ex : ItauUnified.extractors) (text_pages : list pystr)
          (source_name : option pystr) (k : string),
      (is_Some (ItauUnified.process_pagare ex text_pages source_name !! k)
       <-> In k ItauUnified.UNIFIED_COLUMNS)
      /\ (is_Some (ItauUnified.process_credito_consumo ex text_pages source_name !! k)
          <-> In k ItauUnified.UNIFIED_COLUMNS)
      /\ forall doc_type : pystr,
          is_Some (ItauUnified.process_document_unified ex text_pages doc_type source_name !! k)
          <-> In k ItauUnified.UNIFIED_COLUMNS)
  /\ (forall (pdf_name : pystr) (k : string),
        is_Some (OcrToCsv.create_empty_row pdf_name !! k) <-> In k OcrToCsv.headers)
  /\ (forall (ex : ItauUnified.extractors) (source_name : option pystr) (k : string),
        In k ItauUnified.UNIFIED_COLUMNS ->
        exists v : pystr,
          ItauUnified.process_document_unified ex []
            (ItauUnified.detect_document_type []) source_name !! k = Some v).
Proof.
  assert (Hunified : forall ex text_pages source_name k doc_type,
             is_Some (ItauUnified.process_document_unified ex text_pages doc_type
                        source_name !! k)
             <-> In k ItauUnified.UNIFIED_COLUMNS).
  { intros. unfold ItauUnified.process_document_unified.
    destruct (str_eqb doc_type (py "PP"));
      [apply process_pagare_keys | apply process_credito_consumo_keys]. }
  split; [|split].
  - intros ex text_pages source_name k.
    split; [apply process_pagare_keys|]. split; [apply process_credito_consumo_keys|].
    intros doc_type. apply Hunified.
  - intros pdf_name k. unfold OcrToCsv.create_empty_row. by rewrite list_to_map_keys.
  - intros ex source_name k Hk. by apply Hunified.
Qed.

Lemma canonical_keys_always_present_witness :
  exists v : pystr,
    ItauUnified.process_document_unified no_extractors []
      (ItauUnified.detect_document_type []) (Some (py "860418.pdf")) !! "OPERACION_1"%string
    = Some v.
Proof.
  apply (proj2 (proj2 canonical_keys_always_present) no_extractors
           (Some (py "860418.pdf")) "OPERACION_1"%string).
  simpl. auto.
Defined.

(** * Further properties of the embedded code *)

(** ** Check digit arithmetic *)

Section CheckDigitAlgebra.

Lemma ints_of_digits (d : pystr) :
  forallb is_decimal d = true -> ints_of d = Some (digits_of d).
Proof.
  induction d as [|c d IH]; simpl; [done|].
  intros [Hc Hd]%andb_prop. unfold int_of_char. rewrite Hc, (IH Hd). done.
Qed.

Lemma digits_of_range (d : pystr) :
  forallb is_decimal d = true -> Forall (fun x => (0 <= x <= 9)%Z) (digits_of d).
Proof.
  induction d as [|c d IH]; simpl; [constructor|].
  intros [Hc Hd]%andb_prop. constructor; [|auto].
  unfold is_decimal in Hc. apply andb_prop in Hc as [H1 H2].
  apply N.leb_le in H1, H2. lia.
Qed.

Lemma calculate_dv_of_total (d : pystr) :
  d <> [] -> forallb is_decimal d = true ->
  calculate_dv d = Some (dv_of_total (weighted_sum 0 (digits_of (rev d)))).
Proof.
  intros Hne Hall. unfold calculate_dv.
  rewrite (isdigit_of_decimal d Hne Hall). simpl.
  rewrite (ints_of_digits (rev d) (forallb_rev _ _ Hall)).
  unfold dv_of_total. cbv zeta. by repeat case_match.
Qed.

Lemma weighted_sum_app (i : nat) (l1 l2 : list Z) :
  weighted_sum i (l1 ++ l2)
  = (weighted_sum i l1 + weighted_sum (i + length l1) l2)%Z.
Proof.
  revert i. induction l1 as [|d l1 IH]; intros i; simpl.
  - by rewrite Nat.add_0_r.
  - rewrite IH. replace (S i + length l1)%nat with (i + S (length l1))%nat by lia. lia.
Qed.

(** The weight of the digit at index [i] from the right. *)
Lemma factor_cases (i : nat) :
  let w := nth (i mod length factors) factors 0%Z in
  let w' := nth (S i mod length factors) factors 0%Z in
  (2 <= w <= 7)%Z /\ (w' - w = 1 \/ w' - w = -5)%Z.
Proof.
  change (length factors) with 6%nat.
  assert (Hs : (S i mod 6 = S (i mod 6) mod 6)%nat).
  { replace (S i) with (i + 1)%nat by lia.
    rewrite <- Nat.Div0.add_mod_idemp_l. f_equal. lia. }
  rewrite Hs.
  pose proof (Nat.mod_upper_bound i 6 ltac:(lia)) as Hb.
  destruct (i mod 6)%nat as [|[|[|[|[|[|n]]]]]]; simpl; try lia.
Qed.

Lemma dv_of_total_mod (a b : Z) :
  dv_of_total a = dv_of_total b -> (a mod 11 = b mod 11)%Z.
Proof.
  unfold dv_of_total.
  assert (Ha : (0 <= a mod 11 < 11)%Z) by (apply Z.mod_pos_bound; lia).
  assert (Hb : (0 <= b mod 11 < 11)%Z) by (apply Z.mod_pos_bound; lia).
  assert (Ca : (a mod 11 = 0 \/ a mod 11 = 1 \/ a mod 11 = 2 \/
                a mod 11 = 3 \/ a mod 11 = 4 \/ a mod 11 = 5 \/
                a mod 11 = 6 \/ a mod 11 = 7 \/ a mod 11 = 8 \/
                a mod 11 = 9 \/ a mod 11 = 10)%Z) by lia.
  assert (Cb : (b mod 11 = 0 \/ b mod 11 = 1 \/ b mod 11 = 2 \/
                b mod 11 = 3 \/ b mod 11 = 4 \/ b mod 11 = 5 \/
                b mod 11 = 6 \/ b mod 11 = 7 \/ b mod 11 = 8 \/
                b mod 11 = 9 \/ b mod 11 = 10)%Z) by lia.
  clear Ha Hb.
  repeat (destruct Ca as [-> | Ca]);
    try rewrite Ca;
    repeat (destruct Cb as [-> | Cb]);
    try rewrite Cb;
    vm_compute; congruence.
Qed.

Lemma dv_of_total_alphabet (a : Z) :
  exists c, dv_of_total a = [c] /\ In c dv_alphabet.
Proof.
  unfold dv_of_total.
  assert (Ha : (0 <= a mod 11 < 11)%Z) by (apply Z.mod_pos_bound; lia).
  assert (Ca : (a mod 11 = 0 \/ a mod 11 = 1 \/ a mod 11 = 2 \/
                a mod 11 = 3 \/ a mod 11 = 4 \/ a mod 11 = 5 \/
                a mod 11 = 6 \/ a mod 11 = 7 \/ a mod 11 = 8 \/
                a mod 11 = 9 \/ a mod 11 = 10)%Z) by lia.
  clear Ha.
  repeat (destruct Ca as [-> | Ca]); try rewrite Ca;
    eexists; (split; [vm_compute; reflexivity|]); vm_compute; tauto.
Qed.

(** The flag of [validate_rut_dv] on a RUT of decimal digits. *)
Lemma is_valid_rut_decimal (d dv : pystr) :
  d <> [] -> forallb is_decimal d = true ->
  is_valid_rut d dv
  = str_eqb (if truthy dv then strip (upper dv) else [])
      (dv_of_total (weighted_sum 0 (digits_of (rev d)))).
Proof.
  intros Hne Hall. unfold is_valid_rut, validate_rut_dv.
  rewrite (sub_non_digits_id d Hall).
  assert (Hd : truthy d = true) by (destruct d; done).
  rewrite Hd, (calculate_dv_of_total d Hne Hall). done.
Qed.

(** Two totals that differ by a multiple of a weight and a digit difference
    have different check digits. *)
Lemma totals_differ (t delta w : Z) :
  (delta <> 0 -> -9 <= delta <= 9 -> (2 <= w <= 7 \/ w = 1 \/ w = -5) ->
   dv_of_total (t + delta * w) <> dv_of_total t)%Z.
Proof.
  intros Hd Hr Hw Heq. apply dv_of_total_mod in Heq.
  assert (Cw : (w = 2 \/ w = 3 \/ w = 4 \/ w = 5 \/ w = 6 \/ w = 7 \/ w = 1 \/ w = -5)%Z) by lia.
  clear Hw.
  repeat (destruct Cw as [-> | Cw]); try subst w;
    Z.div_mod_to_equations; lia.
Qed.

Lemma weighted_sum_cons (i : nat) (d : Z) (r : list Z) :
  weighted_sum i (d :: r)
  = (d * nth (i mod length factors) factors 0 + weighted_sum (S i) r)%Z.
Proof. reflexivity. Qed.

Lemma total_at (pre post : pystr) (x : N) :
  weighted_sum 0 (digits_of (rev (pre ++ x :: post)))
  = (weighted_sum 0 (digits_of (rev post))
     + (Z.of_N x - 48) * nth (length post mod length factors) factors 0
     + weighted_sum (S (length post)) (digits_of (rev pre)))%Z.
Proof.
  rewrite rev_app_distr. cbn [rev]. rewrite <- app_assoc. cbn [app].
  unfold digits_of. rewrite map_app, weighted_sum_app. cbn [map].
  rewrite weighted_sum_cons, length_map, length_rev, Nat.add_0_l. lia.
Qed.

Lemma total_at2 (pre post : pystr) (x y : N) :
  weighted_sum 0 (digits_of (rev (pre ++ x :: y :: post)))
  = (weighted_sum 0 (digits_of (rev post))
     + (Z.of_N y - 48) * nth (length post mod length factors) factors 0
     + (Z.of_N x - 48) * nth (S (length post) mod length factors) factors 0
     + weighted_sum (S (S (length post))) (digits_of (rev pre)))%Z.
Proof.
  rewrite rev_app_distr. cbn [rev]. rewrite <- !app_assoc. cbn [app].
  unfold digits_of. rewrite map_app, weighted_sum_app. cbn [map].
  rewrite !weighted_sum_cons, length_map, length_rev, Nat.add_0_l. lia.
Qed.

Lemma decimal_middle (pre post : pystr) (x : N) :
  forallb is_decimal (pre ++ x :: post) = true ->
  forallb is_decimal pre = true /\ is_decimal x = true /\ forallb is_decimal post = true.
Proof.
  rewrite forallb_app. simpl. intros [Hp [Hx Hq]%andb_prop]%andb_prop. done.
Qed.

Lemma is_decimal_value (x : N) : is_decimal x = true -> (0 <= Z.of_N x - 48 <= 9)%Z.
Proof.
  unfold is_decimal. intros [H1 H2]%andb_prop. apply N.leb_le in H1, H2. lia.
Qed.

End CheckDigitAlgebra.

(** X1.  A RUT of decimal digits that validates against a check digit stops
    validating when exactly one of its digits is replaced by another
    digit. *)
Theorem validate_detects_single_digit_error (pre post : pystr) (x y : N) (dv : pystr) :
  forallb is_decimal (pre ++ x :: post) = true -> is_decimal y = true -> x <> y ->
  is_valid_rut (pre ++ x :: post) dv = true ->
  is_valid_rut (pre ++ y :: post) dv = false.
Proof.
  intros Hall Hy Hne.
  destruct (decimal_middle _ _ _ Hall) as (Hpre & Hx & Hpost).
  assert (Hall' : forallb is_decimal (pre ++ y :: post) = true).
  { rewrite forallb_app. simpl. by rewrite Hpre, Hy, Hpost. }
  rewrite !is_valid_rut_decimal; try done; try (by destruct pre).
  rewrite !total_at.
  set (A := weighted_sum 0 (digits_of (rev post))).
  set (B := weighted_sum (S (length post)) (digits_of (rev pre))).
  set (w := nth (length post mod length factors) factors 0%Z).
  intros Hv%str_eqb_true. apply str_eqb_false. rewrite Hv.
  replace (A + (Z.of_N x - 48) * w + B)%Z
    with (A + (Z.of_N y - 48) * w + B + (Z.of_N x - Z.of_N y) * w)%Z by lia.
  apply totals_differ.
  - lia.
  - apply is_decimal_value in Hx, Hy. lia.
  - left. apply (factor_cases (length post)).
Qed.

Lemma validate_detects_single_digit_error_witness :
  is_valid_rut (py "4499216") (py "0") = false.
Proof.
  apply (validate_detects_single_digit_error (py "4499") (py "16") 0x31 0x32 (py "0"));
    vm_compute; congruence.
Defined.

(** X2.  A RUT of decimal digits that validates against a check digit stops
    validating when two adjacent digits that differ are exchanged. *)
Theorem validate_detects_adjacent_transposition (pre post : pystr) (x y : N) (dv : pystr) :
  forallb is_decimal (pre ++ x :: y :: post) = true -> x <> y ->
  is_valid_rut (pre ++ x :: y :: post) dv = true ->
  is_valid_rut (pre ++ y :: x :: post) dv = false.
Proof.
  intros Hall Hne.
  destruct (decimal_middle _ _ _ Hall) as (Hpre & Hx & Hpost').
  simpl in Hpost'. apply andb_prop in Hpost' as [Hy Hpost].
  assert (Hall' : forallb is_decimal (pre ++ y :: x :: post) = true).
  { rewrite forallb_app. simpl. by rewrite Hpre, Hy, Hx, Hpost. }
  rewrite !is_valid_rut_decimal; try done; try (by destruct pre).
  rewrite !total_at2.
  set (A := weighted_sum 0 (digits_of (rev post))).
  set (B := weighted_sum (S (S (length post))) (digits_of (rev pre))).
  pose proof (factor_cases (length post)) as Hw. cbv zeta in Hw.
  set (w := nth (length post mod length factors) factors 0%Z) in *.
  set (w' := nth (S (length post) mod length factors) factors 0%Z) in *.
  intros Hv%str_eqb_true. apply str_eqb_false. rewrite Hv.
  replace (A + (Z.of_N y - 48) * w + (Z.of_N x - 48) * w' + B)%Z
    with (A + (Z.of_N x - 48) * w + (Z.of_N y - 48) * w' + B
          + (Z.of_N x - Z.of_N y) * (w' - w))%Z by lia.
  apply totals_differ.
  - lia.
  - apply is_decimal_value in Hx, Hy. lia.
  - right. tauto.
Qed.

Lemma validate_detects_adjacent_transposition_witness :
  is_valid_rut (py "4499161") (py "0") = false.
Proof.
  apply (validate_detects_adjacent_transposition (py "44991") [] 0x31 0x36 (py "0"));
    vm_compute; congruence.
Defined.

(** X3.  [validate_rut_dv] never raises.  When the RUT has no decimal digit it
    returns empty values and the flag false; otherwise it returns the digits
    of the RUT and a check digit that is one character among 0-9 and K. *)
Theorem validate_rut_dv_returns_check_digit (rut dv : pystr) :
  exists rut_clean dv_calc is_valid,
    validate_rut_dv rut dv = Some (rut_clean, dv_calc, is_valid)
    /\ (sub_non_digits rut = [] -> rut_clean = [] /\ dv_calc = [] /\ is_valid = false)
    /\ (sub_non_digits rut <> [] ->
        rut_clean = sub_non_digits rut
        /\ exists c, dv_calc = [c] /\ In c dv_alphabet).
Proof.
  unfold validate_rut_dv. set (rc := sub_non_digits rut).
  destruct (truthy rut) eqn:Hr; cbn [negb].
  2: { apply truthy_false in Hr. subst rut. exists [], [], false.
       split; [done|]. split; [done|]. intros H. by destruct H. }
  assert (Hall : forallb is_decimal rc = true).
  { apply forallb_forall. intros z Hz.
    unfold rc, sub_non_digits in Hz. by apply filter_In in Hz as [_ Hz]. }
  destruct rc as [|c' d] eqn:E; cbn [truthy negb].
  { exists [], [], false. split; [done|]. split; [done|]. intros H. by destruct H. }
  rewrite (calculate_dv_of_total (c' :: d)) by done.
  destruct (dv_of_total_alphabet (weighted_sum 0 (digits_of (rev (c' :: d)))))
    as (k & Hk & Hin).
  eexists _, _, _. split; [reflexivity|]. split; [done|].
  intros _. split; [done|]. by exists k.
Qed.

(** ** Integer fields *)

Section Formatting.

Import ItauAuto.

Lemma join_cons (sep p q : pystr) (rest : list pystr) :
  join sep (p :: q :: rest) = p ++ sep ++ join sep (q :: rest).
Proof. reflexivity. Qed.

Lemma join_snoc (sep p : pystr) (l : list pystr) :
  join sep (l ++ [p]) = match l with [] => p | _ => join sep l ++ sep ++ p end.
Proof.
  induction l as [|a l IH]; [done|].
  destruct l as [|b l]; [reflexivity|].
  change ((a :: b :: l) ++ [p]) with (a :: b :: (l ++ [p])).
  rewrite !join_cons. change (b :: l ++ [p]) with ((b :: l) ++ [p]).
  rewrite IH. by rewrite <- !app_assoc.
Qed.

Lemma rev_join (sep : pystr) (l : list pystr) :
  rev (join sep l) = join (rev sep) (map (@rev N) (rev l)).
Proof.
  induction l as [|p l IH]; [done|].
  destruct l as [|q l]; [simpl; done|].
  rewrite join_cons, !rev_app_distr, IH.
  change (rev (p :: q :: l)) with (rev (q :: l) ++ [p]).
  rewrite map_app. cbn [map]. rewrite join_snoc.
  destruct (map (@rev N) (rev (q :: l))) eqn:E.
  - apply (f_equal (@length _)) in E. rewrite length_map, length_rev in E. done.
  - by rewrite <- app_assoc.
Qed.

Lemma rev_concat_groups (l : list pystr) :
  concat (map (@rev N) (rev l)) = rev (concat l).
Proof.
  induction l as [|g l IH]; [done|].
  cbn [rev concat]. rewrite map_app, concat_app, IH, rev_app_distr. simpl.
  by rewrite app_nil_r.
Qed.

(** The slices of three that [format_int] cuts. *)
Lemma groups_from (s : pystr) (f a : nat) :
  (length s <= a + f)%nat ->
  let gs := map (fun i => slice i (i + 3) s) (range_from f a (length s) 3) in
  concat gs = drop a s
  /\ Forall (fun g => (1 <= length g <= 3)%nat) gs
  /\ Forall (fun g => length g = 3%nat) (removelast gs).
Proof.
  revert a. induction f as [|f IH]; intros a Hf; cbv zeta; cbn [range_from map].
  - simpl. rewrite drop_ge by lia. repeat split; constructor.
  - destruct (Nat.ltb_spec a (length s)) as [Hlt|Hge].
    + specialize (IH (a + 3)%nat ltac:(lia)). cbv zeta in IH.
      destruct IH as (Hc & Hr & Hl).
      set (gs := map _ (range_from f (a + 3) (length s) 3)) in *.
      assert (Hg : slice a (a + 3) s = take 3 (drop a s)).
      { unfold slice. f_equal. lia. }
      cbn [map concat]. fold gs. rewrite Hg, Hc. split; [|split].
      * rewrite <- drop_drop. apply take_drop.
      * constructor; [|done]. rewrite length_take, length_drop. lia.
      * destruct gs as [|g' gs'] eqn:E; [constructor|].
        change (removelast (take 3 (drop a s) :: g' :: gs'))
          with (take 3 (drop a s) :: removelast (g' :: gs')).
        constructor; [|done].
        assert (Hne : drop (a + 3) s <> []).
        { rewrite <- Hc. apply Forall_cons in Hr as [Hg' _].
          destruct g'; simpl in *; [lia|done]. }
        rewrite length_take, length_drop.
        assert (length (drop (a + 3) s) <> 0)%nat by (by destruct (drop (a + 3) s)).
        rewrite length_drop in *. lia.
    + simpl. rewrite drop_ge by lia. repeat split; constructor.
Qed.

Lemma remove_char_join (c : N) (groups : list pystr) :
  Forall (fun g => ~ In c g) groups ->
  remove_char c (join [c] groups) = concat groups.
Proof.
  unfold remove_char. induction groups as [|g l IH]; [done|].
  intros [Hg Hl]%Forall_cons.
  assert (Hgg : List.filter (fun x => negb (x =? c)) g = g).
  { by apply remove_char_absent. }
  destruct l as [|h l]; [simpl; by rewrite app_nil_r|].
  rewrite join_cons, !List.filter_app, Hgg, (IH Hl). simpl.
  by rewrite N.eqb_refl.
Qed.

Lemma isdigit_truthy (s : pystr) : isdigit s = true -> s <> [].
Proof. by destruct s. Qed.

Lemma isdigit_no_sep (s : pystr) (c : N) :
  isdigit s = true -> c = 0x2E \/ c = 0x2C -> ~ In c s.
Proof.
  unfold isdigit. intros [_ Hall]%andb_prop Hc Hin.
  rewrite forallb_forall in Hall. specialize (Hall c Hin).
  destruct Hc as [-> | ->]; vm_compute in Hall; done.
Qed.


(** The shape of a formatted digit string. *)
Lemma format_int_shape (value thousand_sep : pystr) :
  let sep := if str_eqb thousand_sep (py "dot") then 0x2E else 0x2C in
  isdigit value = true -> thousand_sep <> py "none" ->
  exists g rest,
    format_int value thousand_sep = join [sep] (g :: rest)
    /\ concat (g :: rest) = value
    /\ (1 <= length g <= 3)%nat
    /\ Forall (fun h => length h = 3%nat) rest
    /\ remove_char sep (format_int value thousand_sep) = value.
Proof.
  intros sep Hd Hn. unfold format_int.
  assert (Ht : truthy value = true) by (by destruct value).
  rewrite Hd, Ht. cbn [negb orb].
  apply str_eqb_false in Hn. rewrite Hn.
  assert (Hsep : (if str_eqb thousand_sep (py "dot") then py "." else py ",") = [sep]).
  { unfold sep. by destruct (str_eqb thousand_sep (py "dot")). }
  rewrite Hsep. unfold range.
  pose proof (groups_from (rev value) (length (rev value)) 0 ltac:(lia)) as H.
  cbv zeta in H. destruct H as (Hc & Hr & Hl).
  set (gs := map _ (range_from _ _ _ _)) in *.
  rewrite rev_join. cbn [rev app].
  assert (Hne : gs <> []).
  { intros E. rewrite E in Hc. simpl in Hc. rewrite drop_0 in Hc.
    apply (f_equal (@rev N)) in Hc. rewrite rev_involutive in Hc. simpl in Hc.
    subst value. done. }
  destruct (exists_last Hne) as (front & lst & E).
  rewrite E in *. rewrite rev_app_distr. cbn [rev app map].
  rewrite removelast_last in Hl.
  exists (rev lst), (map (@rev N) (rev front)).
  assert (Hcat : concat (rev lst :: map (@rev N) (rev front)) = value).
  { change (rev lst :: map (@rev N) (rev front)) with (map (@rev N) (lst :: rev front)).
    replace (lst :: rev front) with (rev (front ++ [lst]))
      by (by rewrite rev_app_distr).
    rewrite rev_concat_groups, Hc, drop_0. apply rev_involutive. }
  split; [done|]. split; [done|]. split; [|split].
  + apply Forall_app in Hr as [_ Hlst]. apply Forall_cons in Hlst as [Hlst _].
    by rewrite length_rev.
  + rewrite Forall_forall in *. intros h Hh.
    apply list_elem_of_In, in_map_iff in Hh as (h' & <- & Hh').
    rewrite length_rev. apply Hl, list_elem_of_In. by apply in_rev.
  + rewrite remove_char_join; [done|].
    rewrite Forall_forall. intros h Hh Hin.
    apply (isdigit_no_sep value sep Hd).
    * unfold sep. destruct (str_eqb thousand_sep (py "dot")); auto.
    * rewrite <- Hcat. apply in_concat. exists h. split; [|done].
      by apply list_elem_of_In.
Qed.

End Formatting.


(** X5.  [ItauAuto.format_int] returns a value that is empty or not made of digits as
    it is, and any value under the separator name "none".  Otherwise it cuts
    the digits into groups from the right, every group of three digits
    except the leading one of one to three, and joins them with a dot under
    "dot" and with a comma under every other name; removing the separator
    gives the value back. *)
Theorem format_int_groups (value thousand_sep : pystr) :
  let sep := if str_eqb thousand_sep (py "dot") then 0x2E else 0x2C in
  (isdigit value = false -> ItauAuto.format_int value thousand_sep = value)
  /\ (thousand_sep = py "none" -> ItauAuto.format_int value thousand_sep = value)
  /\ (isdigit value = true -> thousand_sep <> py "none" ->
      exists g rest,
        ItauAuto.format_int value thousand_sep = join [sep] (g :: rest)
        /\ concat (g :: rest) = value
        /\ (1 <= length g <= 3)%nat
        /\ Forall (fun h => length h = 3%nat) rest
        /\ ItauAuto.remove_char sep (ItauAuto.format_int value thousand_sep) = value).
Proof.
  intros sep. split; [|split].
  - unfold ItauAuto.format_int. intros ->. by rewrite orb_true_r.
  - unfold ItauAuto.format_int. intros ->. by destruct (negb (truthy value) || negb (isdigit value)).
  - apply format_int_shape.
Qed.

Lemma format_int_groups_witness :
  exists g rest,
    ItauAuto.format_int (py "5713357") (py "dot") = join [0x2E] (g :: rest)
    /\ concat (g :: rest) = py "5713357"
    /\ (1 <= length g <= 3)%nat
    /\ Forall (fun h => length h = 3%nat) rest
    /\ ItauAuto.remove_char 0x2E (ItauAuto.format_int (py "5713357") (py "dot")) = py "5713357".
Proof.
  apply (proj2 (proj2 (format_int_groups (py "5713357") (py "dot")))).
  - vm_compute. reflexivity.
  - vm_compute. discriminate.
Defined.

(** ** Amounts and rates *)

Section Amounts.

Import ItauAuto.

Variable ftfy : option (pystr -> option pystr).

Lemma split_char_nonempty (sep : N) (s : pystr) : split_char sep s <> [].
Proof.
  induction s as [|c s IH]; simpl; [done|].
  destruct (c =? sep); [done|]. by destruct (split_char sep s).
Qed.

Lemma split_char_no_sep (sep : N) (s : pystr) :
  ~ In sep s -> split_char sep s = [s].
Proof.
  induction s as [|c s IH]; simpl; [done|]. intros H.
  destruct (N.eqb_spec c sep) as [->|Hne]; [tauto|].
  rewrite IH; [done|tauto].
Qed.

Lemma split_char_head (sep : N) (a b : pystr) :
  ~ In sep a -> hd [] (split_char sep (a ++ sep :: b)) = a.
Proof.
  induction a as [|c a IH]; simpl; intros H.
  - by rewrite N.eqb_refl.
  - destruct (N.eqb_spec c sep) as [->|Hne]; [tauto|].
    specialize (IH ltac:(tauto)).
    pose proof (split_char_nonempty sep (a ++ sep :: b)) as Hn.
    destruct (split_char sep (a ++ sep :: b)) as [|p ps]; [done|].
    simpl in *. by subst.
Qed.

Lemma plain_char_facts (c : N) :
  plain_char c = true ->
  isspace c = false /\ c <> 0x200B /\ c <> 0x22 /\ c <> 0x201C /\ c <> 0x201D.
Proof.
  unfold plain_char, isspace.
  rewrite !andb_true_iff, negb_true_iff, !N.leb_le, N.eqb_neq. intros [[H1 H2] H3].
  repeat split; try lia.
  rewrite !orb_false_iff, !andb_false_iff, !N.leb_gt, !N.eqb_neq. lia.
Qed.

Lemma no_space_spaced_ok (b : bool) (t : pystr) :
  forallb (fun c => negb (isspace c)) t = true -> spaced_ok b t = true.
Proof.
  revert b. induction t as [|c t IH]; intros b; simpl; [done|].
  intros [Hc Ht]%andb_prop. apply negb_true_iff in Hc. rewrite Hc. by apply IH.
Qed.

Lemma no_space_strip (t : pystr) :
  forallb (fun c => negb (isspace c)) t = true -> strip t = t.
Proof.
  intros H. unfold strip, strip_by.
  rewrite (lstrip_normal t (no_space_spaced_ok true t H)).
  apply rstrip_no_trailing. unfold no_trailing_space.
  destruct (last t) as [c|] eqn:E; [|done].
  rewrite forallb_forall in H. apply H.
  apply last_Some in E as [l' ->]. apply in_app_iff. right. by left.
Qed.

(** The cleaner leaves a string of plain characters that the repair step
    leaves alone as it is. *)
Lemma clean_text_value_plain (t : pystr) :
  fix_text ftfy (Some t) = t -> forallb plain_char t = true ->
  clean_text_value ftfy (Some t) = t.
Proof.
  intros Hfix Hall.
  assert (Hf : forall c, In c t -> plain_char c = true) by (by apply forallb_forall).
  assert (Hns : forallb (fun c => negb (isspace c)) t = true).
  { apply forallb_forall. intros c Hc.
    destruct (plain_char_facts c (Hf c Hc)) as [-> _]. done. }
  apply clean_text_value_fixed; try done.
  - intros H. destruct (plain_char_facts _ (Hf _ H)) as (_ & ? & _). done.
  - intros H. destruct (plain_char_facts _ (Hf _ H)) as (_ & _ & ? & _). done.
  - intros H. destruct (plain_char_facts _ (Hf _ H)) as (_ & _ & _ & ? & _). done.
  - intros H. destruct (plain_char_facts _ (Hf _ H)) as (_ & _ & _ & _ & ?). done.
  - by apply no_space_spaced_ok.
  - by apply no_space_strip.
Qed.

Lemma in_join (x : N) (sep : pystr) (l : list pystr) :
  In x (join sep l) -> In x sep \/ exists g, In g l /\ In x g.
Proof.
  induction l as [|p l IH]; [done|].
  destruct l as [|q l].
  - simpl. intros H. right. exists p. auto.
  - rewrite join_cons, !in_app_iff. intros [H|[H|H]].
    + right. exists p. split; [by left|done].
    + by left.
    + destruct (IH H) as [?|(g & Hg & Hx)]; [by left|].
      right. exists g. split; [by right|done].
Qed.

Lemma decimal_plain (c : N) : is_decimal c = true -> plain_char c = true.
Proof.
  unfold is_decimal, plain_char.
  rewrite !andb_true_iff, negb_true_iff, !N.leb_le, N.eqb_neq. lia.
Qed.

Lemma decimal_not (c : N) (s : pystr) :
  forallb is_decimal s = true -> is_decimal c = false -> ~ In c s.
Proof.
  rewrite forallb_forall. intros H Hc Hin. specialize (H c Hin). congruence.
Qed.

(** The digits that [normalize_int_digits] reads in a string of plain
    characters. *)
Lemma normalize_int_digits_plain (t : pystr) :
  t <> [] -> fix_text ftfy (Some t) = t -> forallb plain_char t = true ->
  normalize_int_digits ftfy t
  = Geocoding.sub_non_digits (hd [] (split_char 0x2C (remove_char 0x2E t))).
Proof.
  intros Hne Hfix Hall. unfold normalize_int_digits.
  apply truthy_true in Hne. rewrite Hne. cbn [negb].
  rewrite (clean_text_value_plain t Hfix Hall).
  rewrite (remove_char_absent 0x20 (remove_char 0x2E t)); [done|].
  intros Hin. apply in_remove_char in Hin as [Hin _].
  rewrite forallb_forall in Hall. specialize (Hall _ Hin). done.
Qed.

Lemma format_int_plain (value thousand_sep : pystr) :
  forallb is_decimal value = true -> forallb plain_char (format_int value thousand_sep) = true.
Proof.
  intros Hall.
  assert (Hv : forallb plain_char value = true).
  { apply forallb_forall. intros c Hc. apply decimal_plain.
    rewrite forallb_forall in Hall. by apply Hall. }
  destruct (isdigit value) eqn:Hd.
  2: { unfold format_int. by rewrite Hd, orb_true_r. }
  destruct (str_eqb thousand_sep (py "none")) eqn:Hn.
  { unfold format_int. rewrite Hn. by destruct (negb (truthy value) || negb (isdigit value)). }
  apply str_eqb_false in Hn.
  destruct (format_int_shape value thousand_sep Hd Hn) as (g & rest & -> & Hc & _).
  apply forallb_forall. intros x Hx. apply in_join in Hx as [Hx|(h & Hh & Hx)].
  - destruct (str_eqb thousand_sep (py "dot")); destruct Hx as [<-|[]]; reflexivity.
  - rewrite forallb_forall in Hv. apply Hv. rewrite <- Hc.
    apply in_concat. by exists h.
Qed.

Lemma concat_length_three (rest : list pystr) :
  Forall (fun h => length h = 3%nat) rest -> length (concat rest) = (3 * length rest)%nat.
Proof.
  induction 1 as [|h l Hh _ IH]; [done|].
  cbn [concat length]. rewrite length_app, Hh, IH. lia.
Qed.

(** What [normalize_int_digits] reads back from a formatted amount. *)
Lemma normalize_int_digits_formatted (value thousand_sep : pystr) :
  value <> [] -> forallb is_decimal value = true -> thousand_sep <> py "none" ->
  fix_text ftfy (Some (format_int value thousand_sep)) = format_int value thousand_sep ->
  normalize_int_digits ftfy (format_int value thousand_sep)
  = if str_eqb thousand_sep (py "dot") then value
    else take ((length value - 1) mod 3 + 1) value.
Proof.
  intros Hne Hall Hn Hfix.
  pose proof (isdigit_of_decimal value Hne Hall) as Hd.
  pose proof (format_int_plain value thousand_sep Hall) as Hplain.
  destruct (format_int_shape value thousand_sep Hd Hn) as (g & rest & HF & Hc & Hg & Hrest & Hrem).
  assert (HFne : format_int value thousand_sep <> []).
  { intros E. rewrite E in Hrem. simpl in Hrem. congruence. }
  rewrite (normalize_int_digits_plain _ HFne Hfix Hplain).
  destruct (str_eqb thousand_sep (py "dot")) eqn:Hdot.
  - rewrite Hrem, split_char_no_sep by (by apply (decimal_not _ _ Hall)).
    by apply sub_non_digits_id.
  - assert (Hgdec : forallb is_decimal g = true).
    { apply forallb_forall. intros x Hx. rewrite forallb_forall in Hall. apply Hall.
      rewrite <- Hc. simpl. apply in_app_iff. by left. }
    assert (Hnodot : ~ In 0x2E (format_int value thousand_sep)).
    { rewrite HF. intros Hin. apply in_join in Hin as [[E|[]]|(h & Hh & Hx)]; [done|].
      apply (decimal_not 0x2E value Hall); [done|].
      rewrite <- Hc. apply in_concat. by exists h. }
    rewrite (remove_char_absent _ _ Hnodot), HF.
    assert (Hhd : hd [] (split_char 0x2C (join [0x2C] (g :: rest))) = g).
    { destruct rest as [|q rest].
      - simpl join. by rewrite split_char_no_sep by (by apply (decimal_not _ _ Hgdec)).
      - rewrite join_cons. cbn [app]. apply split_char_head.
        by apply (decimal_not _ _ Hgdec). }
    rewrite Hhd, (sub_non_digits_id g Hgdec).
    assert (Hlen : length value = (length g + 3 * length rest)%nat).
    { rewrite <- Hc. cbn [concat]. by rewrite length_app, concat_length_three. }
    assert (Hk : ((length value - 1) mod 3 + 1 = length g)%nat).
    { rewrite Hlen. replace (length g + 3 * length rest - 1)%nat
        with (length g - 1 + length rest * 3)%nat by lia.
      rewrite Nat.Div0.mod_add, Nat.mod_small by lia. lia. }
    rewrite Hk, <- Hc. cbn [concat]. by rewrite take_app_length.
Qed.

End Amounts.


(** X6.  The step of [clean_and_normalize_row] on an integer field, run on a
    cell of decimal digits, writes the digits grouped as [ItauAuto.format_int] does.
    Run a second time on its own output, under "none" and "dot" it leaves the
    cell as it is; under "comma" it keeps the leading group only, so that an
    amount of more than three digits is not preserved. *)
Theorem int_field_renormalization
    (ftfy : option (pystr -> option pystr)) (thousand_sep : pystr) (k : string)
    (row : gmap string pystr) (stats : gmap string Z) (value : pystr) :
  row !! k = Some value -> value <> [] -> forallb is_decimal value = true ->
  ItauAuto.fix_text ftfy (Some value) = value ->
  ItauAuto.fix_text ftfy (Some (ItauAuto.format_int value thousand_sep)) = ItauAuto.format_int value thousand_sep ->
  let once := ItauAuto.normalize_int_field ftfy thousand_sep k (row, stats) in
  let twice := ItauAuto.normalize_int_field ftfy thousand_sep k once in
  once.1 !! k = Some (ItauAuto.format_int value thousand_sep)
  /\ (thousand_sep = py "none" \/ thousand_sep = py "dot" -> twice.1 !! k = once.1 !! k)
  /\ (thousand_sep = py "comma" ->
      twice.1 !! k = Some (take ((length value - 1) mod 3 + 1) value)
      /\ ((3 < length value)%nat -> twice.1 !! k <> once.1 !! k)).
Proof.
  intros Hk Hne Hall Hfix HfixF.
  assert (Hvalue : ItauAuto.normalize_int_digits ftfy value = value).
  { rewrite normalize_int_digits_plain; try done.
    - rewrite remove_char_absent by (by apply (decimal_not _ _ Hall)).
      rewrite split_char_no_sep by (by apply (decimal_not _ _ Hall)).
      by apply sub_non_digits_id.
    - apply forallb_forall. intros c Hc. apply decimal_plain.
      rewrite forallb_forall in Hall. by apply Hall. }
  assert (Hstep : forall (r : gmap string pystr) (st : gmap string Z),
             (ItauAuto.normalize_int_field ftfy thousand_sep k (r, st)).1 !! k
             = Some (ItauAuto.format_int (ItauAuto.normalize_int_digits ftfy (ItauAuto.get_str r k)) thousand_sep)).
  { intros r st. unfold ItauAuto.normalize_int_field.
    destruct (negb _); cbn [fst]; apply lookup_insert_eq. }
  assert (Honce : (ItauAuto.normalize_int_field ftfy thousand_sep k (row, stats)).1 !! k
                  = Some (ItauAuto.format_int value thousand_sep)).
  { rewrite Hstep. unfold ItauAuto.get_str. rewrite Hk.
    change (default [] (Some value)) with value. by rewrite Hvalue. }
  cbv zeta. split; [done|].
  destruct (ItauAuto.normalize_int_field ftfy thousand_sep k (row, stats)) as [row1 stats1] eqn:E1.
  cbn [fst] in Honce. cbn [fst]. rewrite Hstep, Honce. unfold ItauAuto.get_str. rewrite Honce.
  change (default [] (Some (ItauAuto.format_int value thousand_sep)))
    with (ItauAuto.format_int value thousand_sep).
  destruct (str_eqb thousand_sep (py "none")) eqn:Hnone.
  - apply str_eqb_true in Hnone. subst thousand_sep.
    assert (Hid : ItauAuto.format_int value (py "none") = value).
    { unfold ItauAuto.format_int. by destruct (negb (truthy value) || negb (isdigit value)). }
    rewrite Hid, Hvalue, Hid. split; [done|]. intros E. vm_compute in E. discriminate.
  - apply str_eqb_false in Hnone.
    rewrite (normalize_int_digits_formatted ftfy value thousand_sep) by done.
    split.
    + intros [->| ->]; [done|].
      change (str_eqb (py "dot") (py "dot")) with true. done.
    + intros ->. change (str_eqb (py "comma") (py "dot")) with false. cbv iota.
      set (g := take _ value).
      assert (Hglen : (length g <= 3)%nat).
      { unfold g. rewrite length_take.
        pose proof (Nat.mod_upper_bound (length value - 1) 3 ltac:(lia)). lia. }
      assert (Hg : ItauAuto.format_int g (py "comma") = g).
      { destruct (isdigit g) eqn:Hd.
        2: { unfold ItauAuto.format_int. by rewrite Hd, orb_true_r. }
        destruct (format_int_shape g (py "comma") Hd ltac:(vm_compute; discriminate))
          as (g0 & rest & -> & Hc & Hg0 & Hrest & _).
        destruct rest as [|q rest]; [simpl in *; by rewrite app_nil_r in Hc|].
        exfalso. apply Forall_cons in Hrest as [Hq _].
        apply (f_equal (@length _)) in Hc. cbn [concat] in Hc.
        rewrite !length_app in Hc. lia. }
      rewrite Hg. split; [done|].
      intros Hlong E. injection E as E.
      pose proof (isdigit_of_decimal value Hne Hall) as Hd.
      destruct (format_int_shape value (py "comma") Hd ltac:(vm_compute; discriminate))
        as (_ & _ & _ & _ & _ & _ & Hrem).
      cbv zeta in Hrem. change (str_eqb (py "comma") (py "dot")) with false in Hrem.
      cbv iota in Hrem. rewrite <- E in Hrem.
      apply (f_equal (@length _)) in Hrem.
      pose proof (filter_length_le (fun x => negb (x =? 0x2C)) g) as Hle.
      unfold ItauAuto.remove_char in Hrem. lia.
Qed.

Lemma int_field_renormalization_witness :
  (ItauAuto.normalize_int_field None (py "comma") "CUOTAS_1"
     (ItauAuto.normalize_int_field None (py "comma") "CUOTAS_1"
        (list_to_map [("CUOTAS_1"%string, py "1234567")], ∅))).1 !! "CUOTAS_1"%string
  = Some (py "1").
Proof.
  refine (proj1 (proj2 (proj2 (int_field_renormalization None (py "comma") "CUOTAS_1"
            (list_to_map [("CUOTAS_1"%string, py "1234567")]) ∅ (py "1234567")
            _ _ _ _ _)) _));
    vm_compute; congruence.
Defined.

(** ** Rates *)

Section Rates.

Import ItauAuto.

Variable ftfy : option (pystr -> option pystr).

Lemma replace_single (c : N) (new s : pystr) :
  replace [c] new s = flat_map (fun x => if c =? x then new else [x]) s.
Proof.
  unfold replace. induction s as [|x s IH]; [done|].
  cbn [replace_aux starts_with flat_map length Nat.pred].
  destruct (c =? x); cbn [andb]; by rewrite IH.
Qed.

Lemma in_replace_single (x c : N) (new s : pystr) :
  In x (replace [c] new s) -> In x new \/ (In x s /\ x <> c).
Proof.
  rewrite replace_single, in_flat_map. intros (y & Hy & Hx).
  destruct (N.eqb_spec c y) as [->|Hne]; [by left|].
  destruct Hx as [<-|[]]. right. split; [done|congruence].
Qed.

Lemma in_removelast (x : N) (s : pystr) : In x (removelast s) -> In x s.
Proof.
  induction s as [|c s IH]; [done|].
  destruct s as [|d s]; [done|].
  change (removelast (c :: d :: s)) with (c :: removelast (d :: s)).
  intros [<-|H]; [by left|]. right. by apply IH.
Qed.

Lemma spaced_ok_space_char (b : bool) (s : pystr) (c : N) :
  spaced_ok b s = true -> In c s -> isspace c = true -> c = 0x20.
Proof.
  revert b. induction s as [|x s IH]; intros b; simpl; [done|].
  destruct (isspace x) eqn:Hx.
  - intros [[Hc _]%andb_prop Hs]%andb_prop [<-|Hin] Hsp.
    + by apply N.eqb_eq.
    + by apply (IH true).
  - intros Hs [<-|Hin] Hsp; [congruence|]. by apply (IH false).
Qed.

(** After the cleaner and the removal of the spaces no white space is
    left. *)
Lemma cleaned_without_spaces (s : pystr) (c : N) :
  In c (remove_char 0x20 (clean_text_value ftfy (Some s))) -> isspace c = false.
Proof.
  intros Hin. apply in_remove_char in Hin as [Hin Hne].
  destruct (isspace c) eqn:Hsp; [|done].
  exfalso. apply Hne.
  by apply (spaced_ok_space_char true _ c (clean_text_value_spaced ftfy s)).
Qed.

Lemma replace_single_absent (c : N) (new s : pystr) :
  ~ In c s -> replace [c] new s = s.
Proof.
  rewrite replace_single. induction s as [|x s IH]; [done|].
  intros H. cbn [flat_map]. destruct (N.eqb_spec c x) as [->|Hne].
  - exfalso. apply H. by left.
  - cbn [app]. f_equal. apply IH. intros Hin. apply H. by right.
Qed.

(** A rate with a decimal comma. *)
Lemma normalize_percent_decimal_comma (a b : pystr) :
  forallb is_decimal a = true -> forallb is_decimal b = true ->
  fix_text ftfy (Some (a ++ py "," ++ b ++ py "%")) = a ++ py "," ++ b ++ py "%" ->
  normalize_percent ftfy (a ++ py "," ++ b ++ py "%") = a ++ py "." ++ b ++ py "%".
Proof.
  intros Ha Hb Hfix. unfold normalize_percent.
  set (t := a ++ py "," ++ b ++ py "%") in *.
  assert (Hplain : forallb plain_char t = true).
  { unfold t. rewrite !forallb_app. repeat (apply andb_true_intro; split); try reflexivity.
    - apply forallb_forall. intros c Hc. apply decimal_plain.
      rewrite forallb_forall in Ha. by apply Ha.
    - apply forallb_forall. intros c Hc. apply decimal_plain.
      rewrite forallb_forall in Hb. by apply Hb. }
  assert (Hne : truthy t = true).
  { unfold t. by destruct a. }
  rewrite Hne. cbn [negb].
  rewrite (clean_text_value_plain ftfy t Hfix Hplain).
  rewrite (remove_char_absent 0x20 t).
  2: { intros Hin. rewrite forallb_forall in Hplain. by specialize (Hplain _ Hin). }
  assert (Hsplit : t = (a ++ py "," ++ b) ++ py "%").
  { unfold t. by rewrite <- !app_assoc. }
  assert (He : ends_with (py "%") t = true).
  { unfold ends_with. rewrite Hsplit, rev_app_distr. reflexivity. }
  rewrite He.
  replace (a ++ py "." ++ b ++ py "%") with ((a ++ py "." ++ b) ++ py "%")
    by (by rewrite <- !app_assoc).
  f_equal.
  rewrite Hsplit. change (py "%") with [0x25].
  rewrite removelast_last.
  change (py ",") with [0x2C].
  pose proof (replace_single_absent 0x2C (py ".") a (decimal_not 0x2C a Ha eq_refl)) as Hia.
  pose proof (replace_single_absent 0x2C (py ".") b (decimal_not 0x2C b Hb eq_refl)) as Hib.
  rewrite replace_single in *. rewrite !flat_map_app, Hia, Hib.
  cbn [flat_map]. by rewrite N.eqb_refl, app_nil_r.
Qed.

End Rates.

(** X7.  [ItauAuto.normalize_percent] returns the empty string on the empty string;
    its result holds no white space at all, and a result that ends with the
    percent sign holds no comma: the decimal comma of a rate has become a
    point. *)
Theorem normalize_percent_shape (ftfy : option (pystr -> option pystr)) (s : pystr) :
  let r := ItauAuto.normalize_percent ftfy s in
  (s = [] -> r = [])
  /\ (forall c, In c r -> isspace c = false)
  /\ (ends_with (py "%") r = true -> ~ In 0x2C r)
  /\ (forall a b : pystr,
        s = a ++ py "," ++ b ++ py "%" ->
        forallb is_decimal a = true -> forallb is_decimal b = true ->
        ItauAuto.fix_text ftfy (Some s) = s ->
        r = a ++ py "." ++ b ++ py "%").
Proof.
  cbv zeta.
  assert (Hshape : s <> [] ->
            ItauAuto.normalize_percent ftfy s
            = let t := ItauAuto.remove_char 0x20 (ItauAuto.clean_text_value ftfy (Some s)) in
              if ends_with (py "%") t
              then replace (py ",") (py ".") (removelast t) ++ py "%" else t).
  { intros Hne. unfold ItauAuto.normalize_percent. apply truthy_true in Hne. by rewrite Hne. }
  pose proof (cleaned_without_spaces ftfy s) as Ht.
  split; [by intros ->|]. split; [|split].
  - intros c. destruct s as [|c0 s0]; [done|].
    rewrite Hshape by done. cbv zeta.
    set (t := ItauAuto.remove_char 0x20 _) in *.
    destruct (ends_with (py "%") t); [|apply Ht].
    intros Hc. apply in_app_iff in Hc as [Hc|[<-|[]]]; [|reflexivity].
    apply in_replace_single in Hc as [[<-|[]]|[Hc _]]; [reflexivity|].
    by apply Ht, in_removelast.
  - destruct s as [|c0 s0]; [done|].
    rewrite Hshape by done. cbv zeta.
    set (t := ItauAuto.remove_char 0x20 _) in *.
    destruct (ends_with (py "%") t) eqn:He; [|congruence].
    intros _ Hc. apply in_app_iff in Hc as [Hc|[Hc|[]]]; [|discriminate].
    apply in_replace_single in Hc as [[Hc|[]]|[_ Hc]]; [discriminate|done].
  - intros a b -> Ha Hb Hfix. by apply normalize_percent_decimal_comma.
Qed.

Lemma normalize_percent_shape_witness :
  ItauAuto.normalize_percent None (py "1,06%") = py "1.06%".
Proof.
  apply (proj2 (proj2 (proj2 (normalize_percent_shape None (py "1,06%")))) (py "1") (py "06"));
    reflexivity.
Defined.

(** ** Output columns *)

Section OutputRow.

Import ItauAuto.

Variable ftfy : option (pystr -> option pystr).

(** The merge leaves every field that is not one of its eleven alone. *)
Lemma merge_from_debug_other_fields
    (row : gmap string pystr) (debug_map : gmap pystr (gmap string pystr))
    (mode : pystr) (stats_fill stats : gmap string Z) (f : string) :
  f ∉ merge_fields ->
  (merge_from_debug ftfy row debug_map mode stats_fill stats).1.1 !! f = row !! f.
Proof.
  intros Hf. unfold merge_from_debug.
  destruct (str_eqb mode (py "none") || bool_decide (debug_map = ∅)); [done|].
  destruct (find_cand debug_map _ None) as [cand|]; [|done].
  destruct (truthy_entry (Some cand)); [|done].
  pose proof (merge_fold ftfy mode cand pairs pairs_nodup pairs_same row stats_fill f) as H.
  cbv zeta in H. fold merge_fields in H.
  rewrite bool_decide_eq_false_2 in H by done. cbn [andb] in H.
  destruct (fold_left (merge_field ftfy mode cand) pairs (row, stats_fill)) as [row' fill'].
  cbn [fst snd] in *. apply H.
Qed.

Lemma output_row_keys (row : gmap string pystr) (h : string) :
  is_Some (output_row row !! h) <-> In h CANONICAL_HEADERS.
Proof. unfold output_row. by rewrite list_to_map_keys. Qed.

Lemma output_row_lookup (row : gmap string pystr) (h : string) :
  In h CANONICAL_HEADERS -> output_row row !! h = Some (get_str row h).
Proof.
  intros Hh. unfold CANONICAL_HEADERS in Hh.
  repeat (destruct Hh as [<-|Hh]; [reflexivity|]). destruct Hh.
Qed.

End OutputRow.

(** X8.  The row that [process] keeps has exactly the canonical headers as
    columns.  Of the eleven fields that the debug merge can fill, only NOMBRE,
    DIRECCION, COMUNA, PRODUCTO and the two attorney names are among them: a
    column of the kept row differs after the merge only if it is one of these
    six, and the fills of the subscription date, the credit amount, the two
    due dates and the capital go to keys that the kept row does not have. *)
Theorem merge_fills_outside_output_columns
    (ftfy : option (pystr -> option pystr))
    (row : gmap string pystr) (debug_map : gmap pystr (gmap string pystr))
    (mode : pystr) (stats_fill stats : gmap string Z) :
  let row' := (ItauAuto.merge_from_debug ftfy row debug_map mode stats_fill stats).1.1 in
  (forall h, is_Some (ItauAuto.output_row row' !! h) <-> In h ItauAuto.CANONICAL_HEADERS)
  /\ (forall h, ItauAuto.output_row row' !! h <> ItauAuto.output_row row !! h ->
        In h [ "NOMBRE"; "DIRECCION"; "COMUNA"; "PRODUCTO";
               "NOMBRE_APODERADO"; "NOMBRE_APODERADO_2" ]%string)
  /\ (forall f, In f [ "FECHA_SUSCRIPCION"; "MONTO_CREDITO"; "FECHA_VENCIMIENTO_1_CUOTA";
                       "FECHA_VENCIMIENTO_ULTIMA_CUOTA"; "CAPITAL" ]%string ->
        f ∈ merge_fields /\ ItauAuto.output_row row' !! f = None).
Proof.
  intros row'. split; [apply output_row_keys|]. split.
  - intros h Hdiff.
    destruct (decide (In h ItauAuto.CANONICAL_HEADERS)) as [Hin|Hout].
    + rewrite !output_row_lookup in Hdiff by done.
      destruct (decide (h ∈ merge_fields)) as [Hm|Hm].
      * unfold ItauAuto.CANONICAL_HEADERS in Hin.
        repeat (destruct Hin as [<-|Hin];
                [first [ by (simpl; tauto)
                       | exfalso; vm_compute in Hm; by apply (bool_decide_unpack _) in Hm
                       | exfalso; revert Hm; clear; intros Hm;
                         repeat (apply elem_of_cons in Hm as [Hm|Hm]; [discriminate|]);
                         by apply elem_of_nil in Hm ]|]).
        destruct Hin.
      * exfalso. apply Hdiff. unfold ItauAuto.get_str, row'.
        by rewrite merge_from_debug_other_fields.
    + exfalso. apply Hdiff.
      destruct (ItauAuto.output_row row' !! h) eqn:E1.
      { exfalso. apply Hout, (output_row_keys row' h). by eexists. }
      destruct (ItauAuto.output_row row !! h) eqn:E2; [|done].
      exfalso. apply Hout, (output_row_keys row h). by eexists.
  - intros f Hf. split.
    + repeat (destruct Hf as [<-|Hf]; [unfold merge_fields; simpl; set_solver|]).
      destruct Hf.
    + destruct (ItauAuto.output_row row' !! f) eqn:E; [|done].
      exfalso. assert (Hin : In f ItauAuto.CANONICAL_HEADERS) by (apply (output_row_keys row' f); by eexists).
      clear E. repeat (destruct Hf as [<-|Hf]; [simpl in Hin; intuition discriminate|]).
      destruct Hf.
Qed.

(** ** Header aliases *)

(** Every alias is written with at least one lower-case ASCII letter. *)
Lemma header_aliases_lower_case :
  forallb (fun kv => existsb (fun c => (0x61 <=? c) && (c <=? 0x7A)) (py (fst kv)))
    ItauAuto.HEADER_ALIASES_items = true.
Proof. vm_compute. reflexivity. Qed.

(** An alias that is found is one of the items of the dictionary. *)
Lemma header_alias_found (k v : pystr) :
  ItauAuto.HEADER_ALIASES !! k = Some v ->
  exists kv, In kv ItauAuto.HEADER_ALIASES_items /\ k = py (fst kv) /\ v = py (snd kv).
Proof.
  unfold ItauAuto.HEADER_ALIASES. intros Hv.
  apply elem_of_list_to_map_2, list_elem_of_In, in_map_iff in Hv.
  destruct Hv as (kv & E & Hin). exists kv. by inversion E.
Qed.

Lemma normalize_header_upper (ftfy : option (pystr -> option pystr)) (h : option pystr) :
  forallb (fun c => negb ((0x61 <=? c) && (c <=? 0x7A)))
    (ItauAuto.fix_text ftfy (Some (strip (default [] h)))) = true ->
  ItauAuto.normalize_header ftfy h = ItauAuto.fix_text ftfy (Some (strip (default [] h))).
Proof.
  intros Hup. unfold ItauAuto.normalize_header.
  set (repaired := ItauAuto.fix_text ftfy (Some (strip (default [] h)))) in *.
  destruct (ItauAuto.HEADER_ALIASES !! repaired) as [v|] eqn:E; [|reflexivity].
  exfalso. destruct (header_alias_found repaired v E) as (kv & Hin & Hk & _).
  pose proof header_aliases_lower_case as Hl. rewrite forallb_forall in Hl.
  specialize (Hl kv Hin). apply existsb_exists in Hl as (c & Hc & Hlow).
  rewrite forallb_forall in Hup. rewrite <- Hk in Hc. specialize (Hup c Hc).
  clear -Hup Hlow. rewrite Hlow in Hup. discriminate.
Qed.

(** X9.  [ItauAuto.normalize_header] looks the repaired, stripped header up as it is
    written: a header without a lower-case ASCII letter is never renamed, and
    a header that is renamed is one of the aliases.  In particular the
    upper-case column names of the CSV file of [ocr_to_csv.py] are kept, so
    that OPERACION does not become OPERACION_1, while its lower-case spelling
    does. *)
Theorem normalize_header_is_case_sensitive
    (ftfy : option (pystr -> option pystr)) (h : option pystr) :
  let repaired := ItauAuto.fix_text ftfy (Some (strip (default [] h))) in
  (forallb (fun c => negb ((0x61 <=? c) && (c <=? 0x7A))) repaired = true ->
   ItauAuto.normalize_header ftfy h = repaired)
  /\ (ItauAuto.normalize_header ftfy h <> repaired ->
      exists kv, In kv ItauAuto.HEADER_ALIASES_items
                 /\ repaired = py (fst kv)
                 /\ ItauAuto.normalize_header ftfy h = py (snd kv))
  /\ (forall name, In name OcrToCsv.headers ->
        ItauAuto.normalize_header None (Some (py name)) = py name)
  /\ ItauAuto.normalize_header None (Some (py "operacion")) = py "OPERACION_1".
Proof.
  intros repaired. split; [apply normalize_header_upper|]. split; [|split].
  - unfold ItauAuto.normalize_header. fold repaired.
    destruct (ItauAuto.HEADER_ALIASES !! repaired) as [v|] eqn:E; [|intros H; by destruct H].
    intros _. destruct (header_alias_found repaired v E) as (kv & Hin & Hk & Hv).
    exists kv. auto.
  - intros name Hname. unfold OcrToCsv.headers in Hname.
    repeat (destruct Hname as [<-|Hname];
            [rewrite normalize_header_upper; vm_compute; reflexivity|]).
    destruct Hname.
  - vm_compute. reflexivity.
Qed.

Lemma normalize_header_is_case_sensitive_witness :
  ItauAuto.normalize_header None (Some (py " MONTO_CREDITO ")) = py "MONTO_CREDITO".
Proof.
  apply (proj1 (normalize_header_is_case_sensitive None (Some (py " MONTO_CREDITO ")))).
  vm_compute. reflexivity.
Defined.

(** ** Row assembly of the unified script *)

Section UnifiedRows.

Import ItauUnified.

Variable ex : extractors.

(** [max] returns one of the rows. *)
Lemma max_by_in {A : Type} (f : A -> Z) (best : A) (rows : list A) :
  max_by f best rows = best \/ In (max_by f best rows) rows.
Proof.
  revert best. induction rows as [|r rows IH]; intros best; simpl; [by left|].
  destruct (f r >? f best)%Z.
  - destruct (IH r) as [->|H]; auto.
  - destruct (IH best) as [->|H]; auto.
Qed.

Lemma best_row_in (name_key : string) (rows : list (gmap string pystr)) :
  best_row name_key rows = ∅ \/ In (best_row name_key rows) rows.
Proof.
  destruct rows as [|r rows]; [by left|]. right. simpl.
  destruct (max_by_in (score_row_basic name_key) r rows) as [->|H]; auto.
Qed.

(** The operation number of the pages: that of the first page that has one. *)
Lemma extract_operation_allpages_first (text_pages : list pystr) :
  extract_operation_allpages ex text_pages
  = default [] (head (List.filter truthy (map (extract_operation_from_text ex) text_pages))).
Proof.
  unfold extract_operation_allpages.
  assert (H : forall op,
             fold_left (fun op t => if truthy op then op else extract_operation_from_text ex t)
               text_pages op
             = if truthy op then op
               else default [] (head (List.filter truthy
                                        (map (extract_operation_from_text ex) text_pages)))).
  { induction text_pages as [|t l IH]; intros op; simpl.
    - by destruct op.
    - rewrite IH. destruct (truthy op) eqn:Hop; [by rewrite Hop|].
      destruct (truthy (extract_operation_from_text ex t)) eqn:Ht; simpl; [done|].
      done. }
  by rewrite H.
Qed.

Lemma extract_operation_allpages_none (text_pages : list pystr) (t : pystr) :
  extract_operation_allpages ex text_pages = [] -> In t text_pages ->
  extract_operation_from_text ex t = [].
Proof.
  rewrite extract_operation_allpages_first. intros H Ht.
  induction text_pages as [|x l IH]; [destruct Ht|]. simpl in H.
  destruct (truthy (extract_operation_from_text ex x)) eqn:Hx.
  - simpl in H. rewrite H in Hx. discriminate.
  - destruct Ht as [<-|Ht]; [by apply truthy_false|auto].
Qed.

Lemma pagare_page_row_fields (text : pystr) :
  get_str (pagare_page_row ex text) "OPERACIÓN" = extract_operation_from_text ex text
  /\ get_str (pagare_page_row ex text) "FECHA_SUSCRIPCION" = parse_spanish_date ex text
  /\ get_str (pagare_page_row ex text) "RUT" = (page_rut text (py "PP")).1
  /\ get_str (pagare_page_row ex text) "DV" = (page_rut text (py "PP")).2.
Proof.
  unfold pagare_page_row.
  destruct (page_rut text (py "PP")) as [rut dv].
  destruct (extract_domicilio_and_comuna_pp ex text) as [direccion comuna].
  repeat split; reflexivity.
Qed.

Lemma consumo_page_row_fields (text : pystr) :
  get_str (consumo_page_row ex text) "text" = text
  /\ get_str (consumo_page_row ex text) "OPERACIÓN" = extract_operation_from_text ex text
  /\ get_str (consumo_page_row ex text) "RUT" = (page_rut text (py "CC")).1
  /\ get_str (consumo_page_row ex text) "DV" = (page_rut text (py "CC")).2.
Proof.
  unfold consumo_page_row.
  destruct (page_rut text (py "CC")) as [rut dv].
  repeat split; reflexivity.
Qed.

Lemma first_filled_spec (k : string) (rows : list (gmap string pystr)) :
  first_filled k rows
  = default [] (head (List.filter truthy (map (fun r => get_str r k) rows))).
Proof.
  unfold first_filled.
  assert (H : forall acc,
             fold_left (fun acc row => if negb (truthy acc) && truthy (get_str row k)
                                       then get_str row k else acc) rows acc
             = if truthy acc then acc
               else default [] (head (List.filter truthy (map (fun r => get_str r k) rows)))).
  { induction rows as [|r l IH]; intros acc; simpl.
    - by destruct acc.
    - rewrite IH. destruct (truthy acc) eqn:Hacc; simpl; [by rewrite Hacc|].
      destruct (truthy (get_str r k)) eqn:Hr; simpl; [by rewrite Hr|]. by rewrite Hacc. }
  by rewrite H.
Qed.

Lemma first_filled_none (k : string) (rows : list (gmap string pystr)) (r : gmap string pystr) :
  first_filled k rows = [] -> In r rows -> get_str r k = [].
Proof.
  rewrite first_filled_spec. intros H Hr.
  induction rows as [|x l IH]; [destruct Hr|]. simpl in H.
  destruct (truthy (get_str x k)) eqn:Hx.
  - simpl in H. rewrite H in Hx. discriminate.
  - destruct Hr as [<-|Hr]; [by apply truthy_false|auto].
Qed.

Lemma or_else_dead (a b c : pystr) :
  (a = [] -> b = []) -> or_else a (or_else b c) = or_else a c.
Proof.
  intros H. unfold or_else. destruct (truthy a) eqn:Ha; [done|].
  apply truthy_false in Ha. by rewrite (H Ha).
Qed.

Lemma or_else_same (a b : pystr) : (a = [] -> b = []) -> or_else a b = a.
Proof.
  intros H. unfold or_else. destruct (truthy a) eqn:Ha; [done|].
  apply truthy_false in Ha. by rewrite (H Ha), Ha.
Qed.

Lemma get_str_empty (k : string) : get_str ∅ k = [].
Proof. reflexivity. Qed.

(** The best page has an operation number only if some page has one. *)
Lemma best_pagare_operation (text_pages : list pystr) :
  extract_operation_allpages ex text_pages = [] ->
  get_str (best_row "NOMBRE" (map (pagare_page_row ex) text_pages)) "OPERACIÓN" = [].
Proof.
  intros H.
  destruct (best_row_in "NOMBRE" (map (pagare_page_row ex) text_pages)) as [->|Hin]; [done|].
  apply in_map_iff in Hin as (t & <- & Ht).
  destruct (pagare_page_row_fields t) as (-> & _).
  by apply (extract_operation_allpages_none text_pages).
Qed.

Lemma best_pagare_fecha (text_pages : list pystr) :
  first_filled "FECHA_SUSCRIPCION" (map (pagare_page_row ex) text_pages) = [] ->
  get_str (best_row "NOMBRE" (map (pagare_page_row ex) text_pages)) "FECHA_SUSCRIPCION" = [].
Proof.
  intros H.
  destruct (best_row_in "NOMBRE" (map (pagare_page_row ex) text_pages)) as [->|Hin]; [done|].
  by apply (first_filled_none _ _ _ H).
Qed.

Lemma consumo_texts (text_pages : list pystr) :
  map (fun r => get_str r "text") (map (consumo_page_row ex) text_pages) = text_pages.
Proof.
  rewrite map_map. rewrite <- (map_id text_pages) at 2. apply map_ext.
  intros t. by destruct (consumo_page_row_fields t) as (-> & _).
Qed.

Lemma best_consumo_operation (text_pages : list pystr) :
  extract_operation_allpages ex text_pages = [] ->
  get_str (best_row "NOMBRE_G" (map (consumo_page_row ex) text_pages)) "OPERACIÓN" = [].
Proof.
  intros H.
  destruct (best_row_in "NOMBRE_G" (map (consumo_page_row ex) text_pages)) as [->|Hin]; [done|].
  apply in_map_iff in Hin as (t & <- & Ht).
  destruct (consumo_page_row_fields t) as (_ & -> & _).
  by apply (extract_operation_allpages_none text_pages).
Qed.

Lemma process_pagare_operacion (text_pages : list pystr) (source_name : option pystr) :
  process_pagare ex text_pages source_name !! "OPERACION_1"
  = Some (or_else (extract_operation_allpages ex text_pages)
            (extract_operation_from_filename ex (default [] source_name))).
Proof.
  unfold process_pagare.
  destruct (extract_representantes_allpages ex text_pages) as [rep1 rep2]. cbv zeta.
  rewrite or_else_dead by apply best_pagare_operation. reflexivity.
Qed.

Lemma process_pagare_fecha (text_pages : list pystr) (source_name : option pystr) :
  process_pagare ex text_pages source_name !! "FECHA_SUSCRIPCION_1"
  = Some (first_filled "FECHA_SUSCRIPCION" (map (pagare_page_row ex) text_pages)).
Proof.
  unfold process_pagare.
  destruct (extract_representantes_allpages ex text_pages) as [rep1 rep2]. cbv zeta.
  rewrite (or_else_same (first_filled "FECHA_SUSCRIPCION" _)) by apply best_pagare_fecha.
  reflexivity.
Qed.

Lemma process_credito_consumo_operacion (text_pages : list pystr)
    (source_name : option pystr) :
  process_credito_consumo ex text_pages source_name !! "OPERACION_1"
  = Some (or_else (extract_operation_allpages ex text_pages)
            (extract_operation_from_filename ex (default [] source_name))).
Proof.
  unfold process_credito_consumo.
  destruct (extract_representantes_allpages ex text_pages) as [rep1 rep2]. cbv zeta.
  rewrite consumo_texts.
  rewrite (or_else_same (extract_operation_allpages ex text_pages))
    by apply best_consumo_operation.
  reflexivity.
Qed.

(** *** The bank's own RUT *)

Lemma choose_rut_for_doc_not_bank (text : pystr) (ruts : list candidate) (doc_type : pystr) :
  choose_rut_for_doc text ruts doc_type <> (py "97023000", py "9").
Proof.
  unfold choose_rut_for_doc. destruct ruts as [|c0 ruts]; [discriminate|].
  set (sus_pos := Re.start <$> Re.search true re_sus text).
  destruct (choose_loop_result sus_pos doc_type (c0 :: ruts) None (-1))
    as [[-> _]|(pre & c & post & _ & -> & Hb & _)]; [discriminate|].
  intros [= Hr Hd]. unfold is_bank_rut, str_eqb in Hb.
  rewrite !bool_decide_eq_true_2 in Hb by done. discriminate.
Qed.

Lemma page_rut_not_bank (text doc_type : pystr) :
  page_rut text doc_type <> (py "97023000", py "9").
Proof.
  unfold page_rut. destruct (find_all_ruts text) eqn:E; [discriminate|].
  apply choose_rut_for_doc_not_bank.
Qed.

Lemma best_pagare_rut (text_pages : list pystr) :
  let best := best_row "NOMBRE" (map (pagare_page_row ex) text_pages) in
  (get_str best "RUT", get_str best "DV") <> (py "97023000", py "9").
Proof.
  intros best. subst best.
  destruct (best_row_in "NOMBRE" (map (pagare_page_row ex) text_pages)) as [->|Hin];
    [discriminate|].
  apply in_map_iff in Hin as (t & <- & Ht).
  destruct (pagare_page_row_fields t) as (_ & _ & -> & ->).
  rewrite <- surjective_pairing. apply page_rut_not_bank.
Qed.

Lemma best_consumo_rut (text_pages : list pystr) :
  let best := best_row "NOMBRE_G" (map (consumo_page_row ex) text_pages) in
  (get_str best "RUT", get_str best "DV") <> (py "97023000", py "9").
Proof.
  intros best. subst best.
  destruct (best_row_in "NOMBRE_G" (map (consumo_page_row ex) text_pages)) as [->|Hin];
    [discriminate|].
  apply in_map_iff in Hin as (t & <- & Ht).
  destruct (consumo_page_row_fields t) as (_ & _ & -> & ->).
  rewrite <- surjective_pairing. apply page_rut_not_bank.
Qed.

Lemma process_pagare_rut (text_pages : list pystr) (source_name : option pystr) :
  let best := best_row "NOMBRE" (map (pagare_page_row ex) text_pages) in
  process_pagare ex text_pages source_name !! "RUT" = Some (get_str best "RUT")
  /\ process_pagare ex text_pages source_name !! "DV" = Some (get_str best "DV").
Proof.
  unfold process_pagare.
  destruct (extract_representantes_allpages ex text_pages) as [rep1 rep2]. cbv zeta.
  split; reflexivity.
Qed.

Lemma process_credito_consumo_rut (text_pages : list pystr) (source_name : option pystr) :
  let best := best_row "NOMBRE_G" (map (consumo_page_row ex) text_pages) in
  let ident := extract_cc_identity_block ex text_pages in
  process_credito_consumo ex text_pages source_name !! "RUT"
  = Some (or_else (id_rut ident) (get_str best "RUT"))
  /\ process_credito_consumo ex text_pages source_name !! "DV"
     = Some (or_else (id_dv ident) (get_str best "DV")).
Proof.
  unfold process_credito_consumo.
  destruct (extract_representantes_allpages ex text_pages) as [rep1 rep2]. cbv zeta.
  assert (Hor : forall a b, or_else a (or_else b []) = or_else a b).
  { intros a b. unfold or_else. destruct (truthy a); [done|]. by destruct b. }
  rewrite !Hor. split; reflexivity.
Qed.

End UnifiedRows.

Section WebLoop.

Import ItauUnified.

Variable ex : extractors.
Variable pdf image : Type.
Variable pdf_name : pdf -> pystr.
Variable convert_pdf_to_images : pdf -> list image.
Variable ocr_image_to_text : image -> pystr.
Variable pdf_exists : pdf -> bool.


Lemma detect_document_type_no_pages : detect_document_type [] = py "CC".
Proof. vm_compute. reflexivity. Qed.



End WebLoop.



(** X11.  In the promissory-note row and in the installment-loan row the
    operation number is the one of the first page that has one, in page
    order, whichever page the assembly takes as the best one; the number of
    the file name is used exactly when no page has one.  The subscription
    date of the promissory-note row is likewise the first date found on a
    page. *)
Theorem row_operation_is_first_found
    (ex : ItauUnified.extractors) (text_pages : list pystr) (source_name : option pystr) :
  let first_of := fun values : list pystr => default [] (head (List.filter truthy values)) in
  let operation := first_of (map (ItauUnified.extract_operation_from_text ex) text_pages) in
  let from_file := ItauUnified.extract_operation_from_filename ex (default [] source_name) in
  let operacion_1 := if truthy operation then operation else from_file in
  ItauUnified.process_pagare ex text_pages source_name !! "OPERACION_1"%string
  = Some operacion_1
  /\ ItauUnified.process_credito_consumo ex text_pages source_name !! "OPERACION_1"%string
     = Some operacion_1
  /\ ItauUnified.process_pagare ex text_pages source_name !! "FECHA_SUSCRIPCION_1"%string
     = Some (first_of (map (ItauUnified.parse_spanish_date ex) text_pages)).
Proof.
  intros first_of operation from_file operacion_1.
  rewrite process_pagare_operacion, process_credito_consumo_operacion, process_pagare_fecha.
  rewrite extract_operation_allpages_first, first_filled_spec, map_map.
  repeat split. unfold first_of. do 4 f_equal. apply map_ext. intros t.
  by destruct (pagare_page_row_fields ex t) as (_ & -> & _).
Qed.

(** X12.  The RUT and check digit that a page contributes are never the
    bank's own, 97023000 with 9: not in the choice among the candidates of a
    page, not in the promissory-note row, and not in the installment-loan row
    unless the identity block gives them. *)
Theorem row_never_holds_bank_rut
    (ex : ItauUnified.extractors) (text_pages : list pystr) (source_name : option pystr) :
  (forall (text : pystr) (ruts : list ItauUnified.candidate) (doc_type : pystr),
      ItauUnified.choose_rut_for_doc text ruts doc_type <> (py "97023000", py "9"))
  /\ ~ (ItauUnified.process_pagare ex text_pages source_name !! "RUT"%string
        = Some (py "97023000")
        /\ ItauUnified.process_pagare ex text_pages source_name !! "DV"%string
           = Some (py "9"))
  /\ (ItauUnified.id_rut (ItauUnified.extract_cc_identity_block ex text_pages) = [] ->
      ItauUnified.id_dv (ItauUnified.extract_cc_identity_block ex text_pages) = [] ->
      ~ (ItauUnified.process_credito_consumo ex text_pages source_name !! "RUT"%string
         = Some (py "97023000")
         /\ ItauUnified.process_credito_consumo ex text_pages source_name !! "DV"%string
            = Some (py "9"))).
Proof.
  split; [apply choose_rut_for_doc_not_bank|]. split.
  - destruct (process_pagare_rut ex text_pages source_name) as [-> ->].
    intros [[= Hr] [= Hd]]. apply (best_pagare_rut ex text_pages). cbv zeta. congruence.
  - intros Hir Hid.
    destruct (process_credito_consumo_rut ex text_pages source_name) as [-> ->].
    rewrite Hir, Hid. unfold ItauUnified.or_else. simpl.
    intros [[= Hr] [= Hd]]. apply (best_consumo_rut ex text_pages). cbv zeta. congruence.
Qed.

Lemma row_never_holds_bank_rut_witness :
  ~ (ItauUnified.process_credito_consumo no_extractors [py "RUT: 97.023.000-9"] None
       !! "RUT"%string = Some (py "97023000")
     /\ ItauUnified.process_credito_consumo no_extractors [py "RUT: 97.023.000-9"] None
          !! "DV"%string = Some (py "9")).
Proof.
  apply (proj2 (proj2 (row_never_holds_bank_rut no_extractors [py "RUT: 97.023.000-9"] None)));
    reflexivity.
Defined.

(** ** Comuna names *)

Ltac bool_to_prop :=
  repeat match goal with
  | H : _ && _ = true |- _ => apply andb_true_iff in H as [? ?]
  | H : _ || _ = true |- _ => apply orb_true_iff in H as [?|?]
  | H : _ && _ = false |- _ => apply andb_false_iff in H as [?|?]
  | H : _ || _ = false |- _ => apply orb_false_iff in H as [? ?]
  | H : negb _ = true |- _ => apply negb_true_iff in H
  | H : negb _ = false |- _ => apply negb_false_iff in H
  | H : (_ <=? _) = true |- _ => apply N.leb_le in H
  | H : (_ <=? _) = false |- _ => apply N.leb_gt in H
  | H : (_ =? _) = true |- _ => apply N.eqb_eq in H
  | H : (_ =? _) = false |- _ => apply N.eqb_neq in H
  end.

Ltac split_ifs :=
  repeat match goal with
  | |- context [if ?b then _ else _] => destruct b eqn:?
  end.

Section UpperStrip.

(** [str.upper] leaves white space alone. *)
Lemma upper_char_space (c : N) : isspace c = true -> upper_char c = [c].
Proof.
  unfold isspace, upper_char. intros H. split_ifs; try reflexivity; exfalso; bool_to_prop; lia.
Qed.

(** It makes no white space and never drops a character. *)
Lemma upper_char_nonspace (c : N) :
  isspace c = false ->
  exists x l, upper_char c = x :: l /\ forallb (fun y => negb (isspace y)) (x :: l) = true.
Proof.
  intros H. unfold upper_char. split_ifs; eexists _, _; (split; [reflexivity|]);
    cbn [forallb]; rewrite ?andb_true_r, ?H; try reflexivity;
    unfold isspace in *; bool_to_prop; subst;
    repeat (apply andb_true_iff; split); try reflexivity;
    apply negb_true_iff; repeat (apply orb_false_iff; split);
    repeat (apply andb_false_iff; first [left; apply N.leb_gt; lia | right; apply N.leb_gt; lia]);
    try (apply N.eqb_neq; lia).
Qed.

(** The characters that [str.upper] makes are upper-case already. *)
Lemma upper_char_fixed (c x : N) : In x (upper_char c) -> upper_char x = [x].
Proof.
  unfold upper_char at 1.
  split_ifs; intros H; simpl in H; repeat (destruct H as [<-|H]; [|]); try destruct H;
    unfold upper_char; split_ifs; try reflexivity; exfalso; bool_to_prop;
    try discriminate; lia.
Qed.

Lemma upper_idem (s : pystr) : upper (upper s) = upper s.
Proof.
  unfold upper. induction s as [|c s IH]; simpl; [done|].
  rewrite flat_map_app, IH. f_equal.
  assert (H : forall l, (forall x, In x l -> upper_char x = [x]) -> flat_map upper_char l = l).
  { induction l as [|x l IHl]; intros Hl; simpl; [done|].
    rewrite (Hl x) by by left. simpl. f_equal. apply IHl. intros y Hy. apply Hl. by right. }
  apply H. intros x. apply upper_char_fixed.
Qed.

Lemma upper_nil (s : pystr) : upper s = [] -> s = [].
Proof.
  destruct s as [|c s]; [done|]. unfold upper. simpl.
  destruct (isspace c) eqn:Hc.
  - by rewrite (upper_char_space c Hc).
  - by destruct (upper_char_nonspace c Hc) as (x & l & -> & _).
Qed.

Lemma lstrip_upper (s : pystr) :
  lstrip_by isspace (upper s) = upper (lstrip_by isspace s).
Proof.
  unfold upper. induction s as [|c s IH]; simpl; [done|].
  destruct (isspace c) eqn:Hc.
  - rewrite (upper_char_space c Hc). simpl. by rewrite Hc.
  - destruct (upper_char_nonspace c Hc) as (x & l & E & Hx). simpl. rewrite E. simpl.
    simpl in Hx. apply andb_true_iff in Hx as [Hx _]. apply negb_true_iff in Hx.
    by rewrite Hx.
Qed.

Lemma rstrip_by_app_keep (p : N -> bool) (l r : pystr) :
  l <> [] -> forallb (fun y => negb (p y)) l = true ->
  rstrip_by p (l ++ r) = l ++ rstrip_by p r.
Proof.
  induction l as [|x l IH]; intros Hne Hl; [done|].
  simpl in Hl. apply andb_true_iff in Hl as [Hx Hl]. apply negb_true_iff in Hx.
  destruct l as [|y l].
  - simpl. rewrite Hx. by destruct (rstrip_by p r).
  - change ((x :: y :: l) ++ r) with (x :: ((y :: l) ++ r)).
    change (rstrip_by p (x :: (y :: l) ++ r))
      with (match rstrip_by p ((y :: l) ++ r) with
            | [] => if p x then [] else [x]
            | r' => x :: r'
            end).
    rewrite IH by done. reflexivity.
Qed.

Lemma rstrip_upper (s : pystr) :
  rstrip_by isspace (upper s) = upper (rstrip_by isspace s).
Proof.
  induction s as [|c s IH]; [done|].
  change (upper (c :: s)) with (upper_char c ++ upper s).
  destruct (isspace c) eqn:Hc.
  - rewrite (upper_char_space c Hc).
    change (rstrip_by isspace ([c] ++ upper s))
      with (match rstrip_by isspace (upper s) with
            | [] => if isspace c then [] else [c]
            | r' => c :: r'
            end).
    change (rstrip_by isspace (c :: s))
      with (match rstrip_by isspace s with
            | [] => if isspace c then [] else [c]
            | r' => c :: r'
            end).
    rewrite IH, Hc. destruct (rstrip_by isspace s) as [|y r] eqn:E; [done|].
    change (upper (c :: y :: r)) with (upper_char c ++ upper (y :: r)).
    rewrite (upper_char_space c Hc).
    destruct (upper (y :: r)) eqn:E2; [by apply upper_nil in E2|done].
  - destruct (upper_char_nonspace c Hc) as (x & l & E & Hx). rewrite E.
    rewrite rstrip_by_app_keep by done. rewrite IH.
    change (rstrip_by isspace (c :: s))
      with (match rstrip_by isspace s with
            | [] => if isspace c then [] else [c]
            | r' => c :: r'
            end).
    rewrite Hc. destruct (rstrip_by isspace s) as [|y r].
    + unfold upper. simpl. by rewrite E.
    + change (upper (c :: y :: r)) with (upper_char c ++ upper (y :: r)). by rewrite E.
Qed.

Lemma strip_upper (s : pystr) : strip (upper s) = upper (strip s).
Proof. unfold strip, strip_by. by rewrite lstrip_upper, rstrip_upper. Qed.

(** Cleaning a cleaned name changes nothing. *)
Lemma strip_upper_idem (s : pystr) : strip (upper (strip (upper s))) = strip (upper s).
Proof.
  rewrite (strip_upper (strip (upper s))). unfold strip. rewrite strip_by_idem.
  fold (strip (upper s)). by rewrite <- strip_upper, upper_idem.
Qed.

End UpperStrip.

Section ComunaFix.

Import PrimFloat.

Variable iter_set : gset pystr -> list pystr.
Hypothesis iter_set_enumerates : forall X : gset pystr, iter_set X ≡ₚ elements X.

Lemma fix_comuna_ocr_unfold (comuna : pystr) :
  comuna <> [] ->
  fix_comuna_ocr iter_set comuna = fix_comuna_clean iter_set (strip (upper comuna)).
Proof. intros Hne%truthy_true. unfold fix_comuna_ocr. by rewrite Hne. Qed.

Lemma valid_comuna_in (v : pystr) :
  v ∈ VALID_COMUNAS <-> In v (map py VALID_COMUNAS_names).
Proof. unfold VALID_COMUNAS. rewrite elem_of_list_to_set. apply list_elem_of_In. Qed.

Lemma iter_valid_comunas (v : pystr) :
  In v (iter_set VALID_COMUNAS) <-> v ∈ VALID_COMUNAS.
Proof. by rewrite <- list_elem_of_In, iter_set_enumerates, elem_of_elements. Qed.

(** The valid names are clean and are not keys of the corrections. *)
Lemma valid_comunas_clean :
  forallb (fun v => truthy v && str_eqb (strip (upper v)) v
                    && bool_decide (COMUNA_CORRECTIONS !! v = None))
    (map py VALID_COMUNAS_names) = true.
Proof. vm_compute. reflexivity. Qed.

(** The corrections lead to valid names. *)
Lemma corrections_valid :
  forallb (fun kv => bool_decide (py (snd kv) ∈ VALID_COMUNAS)) COMUNA_CORRECTIONS_items = true.
Proof. vm_compute. reflexivity. Qed.

Lemma corrections_empty_name :
  COMUNA_CORRECTIONS !! ([] : pystr) = None /\ length (elements VALID_COMUNAS) = 59%nat.
Proof. vm_compute. auto. Qed.

Lemma correction_found (k v : pystr) :
  COMUNA_CORRECTIONS !! k = Some v ->
  exists kv, In kv COMUNA_CORRECTIONS_items /\ k = py (fst kv) /\ v = py (snd kv).
Proof.
  unfold COMUNA_CORRECTIONS. intros Hv.
  apply elem_of_list_to_map_2, list_elem_of_In, in_map_iff in Hv.
  destruct Hv as (kv & E & Hin). exists kv. by inversion E.
Qed.

Lemma correction_valid (k v : pystr) :
  COMUNA_CORRECTIONS !! k = Some v -> v ∈ VALID_COMUNAS.
Proof.
  intros (kv & Hin & _ & ->)%correction_found.
  pose proof corrections_valid as H. rewrite forallb_forall in H.
  specialize (H kv Hin). by apply bool_decide_eq_true in H.
Qed.

Lemma valid_comuna_facts (v : pystr) :
  v ∈ VALID_COMUNAS ->
  v <> [] /\ strip (upper v) = v /\ COMUNA_CORRECTIONS !! v = None.
Proof.
  intros Hv%valid_comuna_in.
  pose proof valid_comunas_clean as H. rewrite forallb_forall in H.
  specialize (H v Hv). apply andb_true_iff in H as [[H1 H2]%andb_true_iff H3].
  split; [by apply truthy_true|]. split; [by apply str_eqb_true|].
  by apply bool_decide_eq_true in H3.
Qed.

Lemma fix_comuna_clean_valid (v : pystr) :
  v ∈ VALID_COMUNAS -> fix_comuna_clean iter_set v = v.
Proof.
  intros Hv. destruct (valid_comuna_facts v Hv) as (_ & _ & Hc).
  unfold fix_comuna_clean. by rewrite Hc, bool_decide_eq_true_2.
Qed.

Lemma fix_comuna_ocr_valid (v : pystr) :
  v ∈ VALID_COMUNAS -> fix_comuna_ocr iter_set v = v.
Proof.
  intros Hv. destruct (valid_comuna_facts v Hv) as (Hne & Hs & _).
  rewrite fix_comuna_ocr_unfold, Hs by done. by apply fix_comuna_clean_valid.
Qed.

(** The similarity loop keeps its best match or takes one from the list. *)
Lemma similarity_fold_in (comuna_clean : pystr) (l : list pystr)
    (st : option pystr * float) :
  (fold_left (similarity_step comuna_clean) l st).1 = st.1
  \/ exists best, (fold_left (similarity_step comuna_clean) l st).1 = Some best /\ In best l.
Proof.
  revert st. induction l as [|v l IH]; intros st; [by left|].
  cbn [fold_left].
  destruct (IH (similarity_step comuna_clean st v)) as [->|(best & -> & Hb)].
  - unfold similarity_step. destruct st as [best_match max_similarity].
    destruct (_ && _); [|by left]. right. exists v. split; [done|by left].
  - right. exists best. split; [done|by right].
Qed.

Lemma fix_comuna_clean_range (comuna_clean : pystr) :
  fix_comuna_clean iter_set comuna_clean ∈ VALID_COMUNAS
  \/ fix_comuna_clean iter_set comuna_clean = comuna_clean.
Proof.
  unfold fix_comuna_clean.
  destruct (COMUNA_CORRECTIONS !! comuna_clean) as [v|] eqn:Hc;
    [left; by apply (correction_valid comuna_clean)|].
  destruct (bool_decide _) eqn:Hv; [by right|].
  destruct (List.find _ _) as [v|] eqn:Hf.
  { left. apply find_some in Hf as [Hin _]. by apply iter_valid_comunas. }
  pose proof (similarity_fold_in comuna_clean (iter_set VALID_COMUNAS) (None, 0%float)) as H.
  destruct (fold_left _ _ _) as [best_match max_similarity]. cbn [fst] in H.
  destruct H as [->|(best & -> & Hb)]; [by right|].
  destruct (truthy best); [|by right]. left. by apply iter_valid_comunas.
Qed.

Lemma contains_nil (s : pystr) : contains [] s = true.
Proof. by destruct s. Qed.

(** On the empty cleaned name the partial match takes the first name that
    the iteration gives. *)
Lemma fix_comuna_clean_empty :
  Some (fix_comuna_clean iter_set []) = head (iter_set VALID_COMUNAS).
Proof.
  destruct corrections_empty_name as (Hc & Hn).
  unfold fix_comuna_clean. rewrite Hc, bool_decide_eq_false_2.
  2: { intros H. destruct (valid_comuna_facts [] H) as (Hne & _). exact (Hne eq_refl). }
  rewrite <- (iter_set_enumerates VALID_COMUNAS) in Hn.
  destruct (iter_set VALID_COMUNAS) as [|v l] eqn:E; [discriminate|].
  cbn [List.find head]. unfold partial_match. by rewrite contains_nil, orb_true_r.
Qed.

Lemma fix_comuna_clean_idem (comuna : pystr) :
  fix_comuna_ocr iter_set (fix_comuna_clean iter_set (strip (upper comuna)))
  = fix_comuna_clean iter_set (strip (upper comuna)).
Proof.
  set (cc := strip (upper comuna)).
  destruct (fix_comuna_clean_range cc) as [Hv|Hr]; [by apply fix_comuna_ocr_valid|].
  destruct (decide (cc = [])) as [E|E].
  - rewrite E. apply fix_comuna_ocr_valid, iter_valid_comunas.
    pose proof fix_comuna_clean_empty as H.
    destruct (iter_set VALID_COMUNAS) as [|v l]; [discriminate|].
    cbn [head] in H. assert (Hx : fix_comuna_clean iter_set [] = v) by congruence.
    rewrite Hx. by left.
  - rewrite Hr at 1. rewrite fix_comuna_ocr_unfold by done.
    unfold cc. by rewrite strip_upper_idem.
Qed.

Lemma fix_comuna_ocr_idem (comuna : pystr) :
  fix_comuna_ocr iter_set (fix_comuna_ocr iter_set comuna) = fix_comuna_ocr iter_set comuna.
Proof.
  destruct (decide (comuna = [])) as [->|Hne]; [reflexivity|].
  rewrite (fix_comuna_ocr_unfold comuna) by done. apply fix_comuna_clean_idem.
Qed.

Lemma fix_comuna_ocr_range (comuna : pystr) :
  fix_comuna_ocr iter_set comuna ∈ VALID_COMUNAS
  \/ fix_comuna_ocr iter_set comuna = strip (upper comuna).
Proof.
  destruct (decide (comuna = [])) as [->|Hne]; [by right|].
  rewrite fix_comuna_ocr_unfold by done. apply fix_comuna_clean_range.
Qed.

Lemma fix_comuna_ocr_correction (comuna corrected : pystr) :
  comuna <> [] -> COMUNA_CORRECTIONS !! strip (upper comuna) = Some corrected ->
  fix_comuna_ocr iter_set comuna = corrected.
Proof.
  intros Hne Hc. rewrite fix_comuna_ocr_unfold by done.
  unfold fix_comuna_clean. by rewrite Hc.
Qed.

(** The partial match takes the first name in the order of the iteration. *)
Lemma fix_comuna_ocr_partial (comuna valid_comuna : pystr) :
  comuna <> [] -> COMUNA_CORRECTIONS !! strip (upper comuna) = None ->
  strip (upper comuna) ∉ VALID_COMUNAS ->
  List.find (partial_match (strip (upper comuna))) (iter_set VALID_COMUNAS)
  = Some valid_comuna ->
  fix_comuna_ocr iter_set comuna = valid_comuna.
Proof.
  intros Hne Hc Hv Hf. rewrite fix_comuna_ocr_unfold by done.
  unfold fix_comuna_clean. by rewrite Hc, bool_decide_eq_false_2, Hf.
Qed.

Lemma strip_empty_upper (comuna : pystr) : strip comuna = [] -> strip (upper comuna) = [].
Proof. intros H. by rewrite strip_upper, H. Qed.

End ComunaFix.

(** X13.  [fix_comuna_ocr] returns a valid comuna name or the cleaned input
    (upper-cased and stripped), and correcting a second time changes nothing.
    A valid name is returned as it is, and a cleaned input that is a key of
    the corrections gives the corrected name, which is valid.  This holds for
    every order in which the set of valid names is iterated. *)
Theorem fix_comuna_ocr_idempotent
    (iter_set : gset pystr -> list pystr)
    (iter_set_enumerates : forall X : gset pystr, iter_set X ≡ₚ elements X)
    (comuna : pystr) :
  let fixed := fix_comuna_ocr iter_set comuna in
  (fixed ∈ VALID_COMUNAS \/ fixed = strip (upper comuna))
  /\ fix_comuna_ocr iter_set fixed = fixed
  /\ (comuna ∈ VALID_COMUNAS -> fixed = comuna)
  /\ (forall corrected,
        comuna <> [] -> COMUNA_CORRECTIONS !! strip (upper comuna) = Some corrected ->
        fixed = corrected /\ corrected ∈ VALID_COMUNAS).
Proof.
  intros fixed. split; [by apply fix_comuna_ocr_range|].
  split; [by apply fix_comuna_ocr_idem|].
  split; [by apply fix_comuna_ocr_valid|].
  intros corrected Hne Hc. split; [by apply fix_comuna_ocr_correction|].
  by apply (correction_valid (strip (upper comuna))).
Qed.

Lemma fix_comuna_ocr_idempotent_witness :
  fix_comuna_ocr elements (py " Temuk0 ") = py "TEMUCO" /\ py "TEMUCO" ∈ VALID_COMUNAS.
Proof.
  apply (proj2 (proj2 (proj2 (fix_comuna_ocr_idempotent elements
                                (fun X => reflexivity (elements X)) (py " Temuk0 "))))).
  - discriminate.
  - vm_compute. reflexivity.
Defined.

(** X14.  When the cleaned input is neither a key of the corrections nor a
    valid name, [fix_comuna_ocr] returns the first valid name, in the order
    in which Python iterates over the set, that contains the cleaned input
    or is contained in it.  An input of white space only therefore gives the
    first name of the iteration, and the result for a fragment such as "san"
    differs between two iteration orders of the same set. *)
Theorem fix_comuna_ocr_partial_match_order
    (iter_set : gset pystr -> list pystr)
    (iter_set_enumerates : forall X : gset pystr, iter_set X ≡ₚ elements X)
    (comuna : pystr) :
  let comuna_clean := strip (upper comuna) in
  (forall valid_comuna,
      comuna <> [] -> COMUNA_CORRECTIONS !! comuna_clean = None ->
      comuna_clean ∉ VALID_COMUNAS ->
      List.find (partial_match comuna_clean) (iter_set VALID_COMUNAS) = Some valid_comuna ->
      fix_comuna_ocr iter_set comuna = valid_comuna)
  /\ (comuna <> [] -> strip comuna = [] ->
      Some (fix_comuna_ocr iter_set comuna) = head (iter_set VALID_COMUNAS))
  /\ exists order1 order2 : gset pystr -> list pystr,
      (forall X, order1 X ≡ₚ elements X) /\ (forall X, order2 X ≡ₚ elements X)
      /\ fix_comuna_ocr order1 (py "san") <> fix_comuna_ocr order2 (py "san").
Proof.
  intros comuna_clean. split; [|split].
  - intros valid_comuna Hne Hc Hv Hf. by apply fix_comuna_ocr_partial.
  - intros Hne Hs. rewrite fix_comuna_ocr_unfold by done.
    rewrite strip_empty_upper by done. by apply fix_comuna_clean_empty.
  - exists elements, (fun X => rev (elements X)). split; [done|].
    split; [intros X; symmetry; apply Permutation_rev|].
    vm_compute. congruence.
Qed.

Lemma fix_comuna_ocr_partial_match_order_witness :
  Some (fix_comuna_ocr elements (py "  ")) = head (elements VALID_COMUNAS).
Proof.
  apply (proj1 (proj2 (fix_comuna_ocr_partial_match_order elements
                         (fun X => reflexivity (elements X)) (py "  ")))).
  - discriminate.
  - reflexivity.
Defined.

(** ** Fields and rows of the CSV generator *)

Section CsvFields.

Import OcrToCsv.

Lemma forallb_filter_same {A : Type} (p : A -> bool) (l : list A) :
  forallb p (List.filter p l) = true.
Proof.
  apply forallb_forall. intros x Hx. by apply filter_In in Hx as [_ Hp].
Qed.

Lemma forallb_drop {A : Type} (p : A -> bool) (n : nat) (l : list A) :
  forallb p l = true -> forallb p (drop n l) = true.
Proof.
  revert n. induction l as [|x l IH]; intros [|n] H; try done.
  simpl in H. apply andb_true_iff in H as [_ H]. by apply IH.
Qed.

Lemma forallb_removelast (p : N -> bool) (l : pystr) :
  forallb p l = true -> forallb p (removelast l) = true.
Proof.
  rewrite !forallb_forall. intros H x Hx. by apply H, in_removelast.
Qed.

Lemma starts_with_app (sub s : pystr) : starts_with sub (sub ++ s) = true.
Proof. induction sub as [|c sub IH]; simpl; [done|]. by rewrite N.eqb_refl, IH. Qed.

Lemma contains_starts (sub s : pystr) : starts_with sub s = true -> contains sub s = true.
Proof. intros H. destruct s; simpl; by rewrite H. Qed.

Lemma contains_middle (sub a b : pystr) : contains sub (a ++ sub ++ b) = true.
Proof.
  induction a as [|c a IH]; simpl.
  - apply contains_starts, starts_with_app.
  - by rewrite IH, orb_true_r.
Qed.

Lemma contains_single (c : N) (s : pystr) : contains [c] s = true <-> In c s.
Proof.
  induction s as [|x s IH]; simpl; [split; [discriminate|tauto]|].
  rewrite orb_true_iff, IH, andb_true_r, N.eqb_eq. split; intros [H|H]; auto.
Qed.

(** [s[:-1] + s[-1]] is [s]. *)
Lemma removelast_last_char (s : pystr) : removelast s ++ last_char s = s.
Proof.
  unfold last_char. rewrite removelast_firstn_len.
  replace (Nat.pred (length s)) with (length s - 1)%nat by lia. apply take_drop.
Qed.

Lemma last_char_length (s : pystr) : s <> [] -> length (last_char s) = 1%nat.
Proof.
  intros Hne. unfold last_char. rewrite length_drop.
  destruct s; [done|]. simpl. lia.
Qed.

Lemma post_process_field_rut (value : pystr) :
  let r := post_process_field "RUT" value in
  forallb rut_char r = true
  /\ (contains (py "-") r = false -> (length r <= 7)%nat).
Proof.
  intros r. subst r. unfold post_process_field.
  destruct (negb (truthy value)); [split; [done|simpl; lia]|].
  change (String.eqb "RUT" "RUT") with true. cbv iota.
  destruct (_ || _); [split; [vm_compute; reflexivity|vm_compute; discriminate]|].
  destruct (_ || _); [split; [vm_compute; reflexivity|vm_compute; discriminate]|].
  cbv zeta.
  set (rut_clean := List.filter _ _).
  assert (Hrc : forallb rut_char rut_clean = true) by apply forallb_filter_same.
  destruct (8 <=? length rut_clean)%nat eqn:Hlen; cbn [andb].
  - destruct (contains (py "-") rut_clean) eqn:Hh; cbn [negb].
    + split; [done|congruence].
    + split.
      * rewrite !forallb_app, forallb_removelast by done.
        unfold last_char. rewrite forallb_drop by done. reflexivity.
      * rewrite contains_middle. discriminate.
  - split; [done|]. intros _. apply Nat.leb_gt in Hlen. lia.
Qed.







End CsvFields.

Section CsvRows.

Import OcrToCsv.

Lemma split_char_app (sep : N) (a b : pystr) :
  ~ In sep a -> split_char sep (a ++ sep :: b) = a :: split_char sep b.
Proof.
  induction a as [|c a IH]; simpl; intros H.
  - by rewrite N.eqb_refl.
  - destruct (N.eqb_spec c sep) as [->|Hne]; [tauto|].
    rewrite IH by tauto. reflexivity.
Qed.

Lemma filter_same_length {A : Type} (p : A -> bool) (l : list A) :
  length (List.filter p l) = length l -> List.filter p l = l.
Proof.
  induction l as [|x l IH]; simpl; [done|].
  destruct (p x); simpl; intros H.
  - f_equal. apply IH. lia.
  - pose proof (filter_length_le p l). lia.
Qed.

Lemma rut_char_no_space (s : pystr) :
  forallb rut_char s = true -> forallb (fun c => negb (isspace c)) s = true.
Proof.
  rewrite !forallb_forall. intros H c Hc. specialize (H c Hc).
  apply negb_true_iff. unfold rut_char, is_decimal in H. unfold isspace.
  bool_to_prop; subst; reflexivity || (repeat (apply orb_false_iff; split);
    first [apply andb_false_iff; first [left; apply N.leb_gt; lia | right; apply N.leb_gt; lia]
          | apply N.eqb_neq; lia]).
Qed.

Lemma extract_rut_parts_hyphen (a b pdf_name : pystr) :
  contains (py "4191896500082450") pdf_name = false ->
  contains (py "60247566") pdf_name = false ->
  ~ In 0x2D a -> ~ In 0x2D b ->
  extract_rut_parts (a ++ py "-" ++ b) pdf_name = (strip a, strip b).
Proof.
  intros H1 H2 Ha Hb. unfold extract_rut_parts. rewrite H1, H2.
  assert (Hne : a ++ py "-" ++ b <> []) by by destruct a.
  pose proof Hne as Ht. apply truthy_true in Ht. rewrite Ht.
  apply str_eqb_false in Hne. rewrite Hne. cbn [negb orb]. cbv zeta.
  rewrite (contains_middle (py "-") a b).
  change (py "-" ++ b) with (0x2D :: b).
  by rewrite split_char_app, (split_char_no_sep 0x2D b) by done.
Qed.

Lemma extract_rut_parts_short (rut_text pdf_name : pystr) :
  contains (py "4191896500082450") pdf_name = false ->
  contains (py "60247566") pdf_name = false ->
  ~ In 0x2D rut_text -> (length rut_text <= 7)%nat ->
  extract_rut_parts rut_text pdf_name = (rut_text, []).
Proof.
  intros H1 H2 Hh Hlen. unfold extract_rut_parts. rewrite H1, H2.
  destruct (truthy rut_text) eqn:Ht; [|by apply truthy_false in Ht as ->].
  pose proof Ht as Hne. apply truthy_true, str_eqb_false in Hne. rewrite Hne.
  cbn [negb orb]. cbv zeta.
  assert (Hc : contains (py "-") rut_text = false).
  { destruct (contains (py "-") rut_text) eqn:E; [|done]. by apply contains_single in E. }
  rewrite Hc.
  pose proof (filter_length_le is_decimal rut_text) as Hle.
  fold (Geocoding.sub_non_digits rut_text) in Hle.
  destruct (8 <=? _)%nat eqn:E8; [apply Nat.leb_le in E8; lia|].
  destruct (7 <=? _)%nat eqn:E7; [|done].
  apply Nat.leb_le in E7. f_equal. apply filter_same_length.
  fold (Geocoding.sub_non_digits rut_text). lia.
Qed.

Lemma extract_rut_parts_digits (rut_text pdf_name : pystr) :
  contains (py "4191896500082450") pdf_name = false ->
  contains (py "60247566") pdf_name = false ->
  ~ In 0x2D rut_text -> (8 <= length (Geocoding.sub_non_digits rut_text))%nat ->
  (extract_rut_parts rut_text pdf_name).1 ++ (extract_rut_parts rut_text pdf_name).2
  = Geocoding.sub_non_digits rut_text
  /\ length (extract_rut_parts rut_text pdf_name).2 = 1%nat.
Proof.
  intros H1 H2 Hh Hlen. unfold extract_rut_parts. rewrite H1, H2.
  destruct (truthy rut_text) eqn:Ht.
  2: { apply truthy_false in Ht as ->. simpl in Hlen. lia. }
  pose proof Ht as Hne. apply truthy_true, str_eqb_false in Hne. rewrite Hne.
  cbn [negb orb]. cbv zeta.
  assert (Hc : contains (py "-") rut_text = false).
  { destruct (contains (py "-") rut_text) eqn:E; [|done]. by apply contains_single in E. }
  rewrite Hc. apply Nat.leb_le in Hlen. rewrite Hlen. cbn [fst snd].
  split; [apply removelast_last_char|]. apply last_char_length.
  intros E. rewrite E in Hlen. discriminate.
Qed.

Section Product.

Variable int : pystr -> option Z.

Lemma determine_product_type_cases (fields : gmap string pystr) (pdf_name : pystr) :
  determine_product_type int fields pdf_name
  = let cuotas := ItauAuto.get_str fields "CUOTAS" in
    let monto_cuota := ItauAuto.get_str fields "MONTO_CUOTA" in
    if contains (py "4191896500082450") pdf_name then Some (py "PP")
    else if contains (py "60247566") pdf_name then Some (py "CC")
    else if str_eqb cuotas (py "1") && (str_eqb monto_cuota (py "0") || str_eqb monto_cuota [])
    then Some (py "PP")
    else if truthy cuotas then (match int cuotas with Some _ => Some (py "CC") | None => None end)
    else Some (py "CC").
Proof.
  unfold determine_product_type. cbv zeta.
  destruct (contains _ pdf_name); [done|]. destruct (contains _ pdf_name); [done|].
  destruct (_ && _); [done|]. destruct (truthy _); [|done].
  destruct (int _) as [n|]; [|done]. simpl. by destruct (n >? 1)%Z.
Qed.

Lemma create_csv_row_some (fields : gmap string pystr) (pdf_name : pystr)
    (row : gmap string pystr) :
  create_csv_row int fields pdf_name = Some row ->
  exists producto,
    determine_product_type int fields pdf_name = Some producto
    /\ (forall k, is_Some (row !! k) <-> In k headers)
    /\ row !! "PRODUCTO" = Some producto
    /\ row !! "CAPITAL" = Some (ItauAuto.get_str fields "MONTO_CREDITO")
    /\ row !! "MONTO_CREDITO" = Some (ItauAuto.get_str fields "MONTO_CREDITO")
    /\ row !! "RUT"
       = Some (extract_rut_parts (ItauAuto.get_str fields "RUT") pdf_name).1
    /\ row !! "DV"
       = Some (extract_rut_parts (ItauAuto.get_str fields "RUT") pdf_name).2.
Proof.
  unfold create_csv_row. cbv zeta.
  destruct (extract_rut_parts _ pdf_name) as [rut_number rut_dv].
  destruct (determine_product_type int fields pdf_name) as [producto|]; [|discriminate].
  cbn [mbind option_bind]. intros H%(inj Some). subst row. exists producto.
  split; [done|]. split; [intros k; by rewrite list_to_map_keys|].
  repeat split; reflexivity.
Qed.

Lemma create_csv_row_none (fields : gmap string pystr) (pdf_name : pystr) :
  create_csv_row int fields pdf_name = None
  <-> determine_product_type int fields pdf_name = None.
Proof.
  unfold create_csv_row. cbv zeta.
  destruct (extract_rut_parts _ pdf_name) as [rut_number rut_dv].
  by destruct (determine_product_type int fields pdf_name).
Qed.

End Product.

End CsvRows.



(** X16.  For a file name without the two known operation numbers,
    [OcrToCsv.extract_rut_parts] splits a text with exactly one hyphen at the hyphen
    and strips both parts; a text without hyphen that has at least eight
    digits gives its digits, split before the last one.  On the RUT text
    that [OcrToCsv.post_process_field] makes this loses nothing: with one hyphen the
    two columns are the two sides of the hyphen, and without hyphen the
    whole text is the RUT column and the check digit column is empty. *)
Theorem extract_rut_parts_round_trip (pdf_name : pystr) :
  contains (py "4191896500082450") pdf_name = false ->
  contains (py "60247566") pdf_name = false ->
  (forall a b, ~ In 0x2D a -> ~ In 0x2D b ->
      OcrToCsv.extract_rut_parts (a ++ py "-" ++ b) pdf_name = (strip a, strip b))
  /\ (forall rut_text,
        ~ In 0x2D rut_text -> (8 <= length (sub_non_digits rut_text))%nat ->
        (OcrToCsv.extract_rut_parts rut_text pdf_name).1 ++ (OcrToCsv.extract_rut_parts rut_text pdf_name).2
        = sub_non_digits rut_text
        /\ length (OcrToCsv.extract_rut_parts rut_text pdf_name).2 = 1%nat)
  /\ (forall value a b,
        OcrToCsv.post_process_field "RUT" value = a ++ py "-" ++ b ->
        ~ In 0x2D a -> ~ In 0x2D b ->
        OcrToCsv.extract_rut_parts (OcrToCsv.post_process_field "RUT" value) pdf_name = (a, b))
  /\ (forall value,
        ~ In 0x2D (OcrToCsv.post_process_field "RUT" value) ->
        OcrToCsv.extract_rut_parts (OcrToCsv.post_process_field "RUT" value) pdf_name
        = (OcrToCsv.post_process_field "RUT" value, [])).
Proof.
  intros H1 H2. split; [|split; [|split]].
  - intros a b Ha Hb. by apply extract_rut_parts_hyphen.
  - intros rut_text Hh Hlen. by apply extract_rut_parts_digits.
  - intros value a b E Ha Hb. rewrite E, extract_rut_parts_hyphen by done.
    destruct (post_process_field_rut value) as [Hc _]. rewrite E in Hc.
    apply rut_char_no_space in Hc. rewrite !forallb_app in Hc.
    apply andb_true_iff in Hc as [Hca [_ Hcb]%andb_true_iff].
    by rewrite !no_space_strip.
  - intros value Hh. apply extract_rut_parts_short; try done.
    destruct (post_process_field_rut value) as [_ Hlen]. apply Hlen.
    destruct (contains (py "-") _) eqn:E; [|done]. by apply contains_single in E.
Qed.

Lemma extract_rut_parts_round_trip_witness :
  OcrToCsv.extract_rut_parts (OcrToCsv.post_process_field "RUT" (py "12.345.678-k")) (py "a.pdf")
  = (py "12345678", py "K").
Proof.
  apply (proj1 (proj2 (proj2 (extract_rut_parts_round_trip (py "a.pdf") eq_refl eq_refl)))
           (py "12.345.678-k") (py "12345678") (py "K")).
  - reflexivity.
  - vm_compute. intuition discriminate.
  - vm_compute. intuition discriminate.
Defined.

(** X17.  [OcrToCsv.create_csv_row] raises exactly when [int] raises on CUOTAS, which
    is evaluated only for a file name without the two known operation
    numbers, a non-empty CUOTAS, and not for the single instalment without
    instalment amount.  A row that it returns has exactly the columns of the
    CSV file; its product is PP for the first known operation number and
    for the single instalment without amount, and CC in every other case;
    CAPITAL repeats MONTO_CREDITO. *)
Theorem create_csv_row_product
    (int : pystr -> option Z) (fields : gmap string pystr) (pdf_name : pystr) :
  let cuotas := ItauAuto.get_str fields "CUOTAS" in
  let monto_cuota := ItauAuto.get_str fields "MONTO_CUOTA" in
  let known_pp := contains (py "4191896500082450") pdf_name in
  let known_cc := contains (py "60247566") pdf_name in
  let single :=
    str_eqb cuotas (py "1") && (str_eqb monto_cuota (py "0") || str_eqb monto_cuota []) in
  (OcrToCsv.create_csv_row int fields pdf_name = None
   <-> known_pp = false /\ known_cc = false /\ single = false
       /\ cuotas <> [] /\ int cuotas = None)
  /\ forall row,
       OcrToCsv.create_csv_row int fields pdf_name = Some row ->
       (forall k, is_Some (row !! k) <-> In k OcrToCsv.headers)
       /\ row !! "PRODUCTO"%string
          = Some (if known_pp || (negb known_cc && single) then py "PP" else py "CC")
       /\ row !! "CAPITAL"%string = row !! "MONTO_CREDITO"%string.
Proof.
  intros cuotas monto_cuota known_pp known_cc single. split.
  - rewrite create_csv_row_none, determine_product_type_cases. cbv zeta.
    fold cuotas monto_cuota known_pp known_cc single.
    destruct known_pp; [split; [discriminate|intros (? & _); discriminate]|].
    destruct known_cc; [split; [discriminate|intros (_ & ? & _); discriminate]|].
    destruct single; [split; [discriminate|intros (_ & _ & ? & _); discriminate]|].
    destruct (truthy cuotas) eqn:Ht.
    + apply truthy_true in Ht. destruct (int cuotas); [|done].
      split; [discriminate|intros (_ & _ & _ & _ & ?); discriminate].
    + apply truthy_false in Ht. split; [discriminate|]. intros (_ & _ & _ & Hne & _). done.
  - intros row (producto & Hp & Hk & Hprod & Hcap & Hmonto & _)%create_csv_row_some.
    split; [done|]. split; [|by rewrite Hcap, Hmonto].
    rewrite Hprod. f_equal. rewrite determine_product_type_cases in Hp. cbv zeta in Hp.
    fold cuotas monto_cuota known_pp known_cc single in Hp.
    destruct known_pp; [by injection Hp|]. destruct known_cc; [by injection Hp|].
    destruct single; [by injection Hp|]. cbn [orb negb andb].
    destruct (truthy cuotas); [|by injection Hp].
    destruct (int cuotas); [by injection Hp|discriminate].
Qed.

Lemma create_csv_row_product_witness :
  OcrToCsv.create_csv_row (fun _ => None) (list_to_map [("CUOTAS"%string, py "doce")]) (py "a.pdf")
  = None.
Proof.
  apply (proj2 (proj1 (create_csv_row_product (fun _ => None)
                         (list_to_map [("CUOTAS"%string, py "doce")]) (py "a.pdf")))).
  vm_compute. repeat split; congruence.
Defined.

(** ** Patterns with a doubled backslash *)

Section EscapedBackslash.

Import Re.

(** A pattern that asks for [c] first does not match where another character
    stands. *)
Lemma match_re_begins_with (c : N) (r : regex) (st : mstate) (k : mstate -> option mstate) :
  begins_with c r = true -> head (m_rest st) <> Some c ->
  match_re false r st k = None.
Proof.
  revert st k. induction r; intros st k Hb Hst; try discriminate.
  - simpl in *. apply N.eqb_eq in Hb as ->.
    destruct (m_rest st) as [|x rest]; [done|]. unfold char_matches.
    destruct (N.eqb_spec c x) as [->|Hne]; [by destruct Hst|done].
  - simpl in *. by apply IHr1.
  - simpl in *. by apply IHr.
Qed.

Lemma search_from_begins_with (c : N) (r : regex) (prev : option N) (s : pystr) (pos : nat) :
  begins_with c r = true -> ~ In c s -> search_from false r prev s pos = None.
Proof.
  intros Hb. revert prev pos. induction s as [|x s IH]; intros prev pos Hs.
  - simpl. unfold match_at. by rewrite (match_re_begins_with c).
  - cbn [search_from]. unfold match_at. rewrite (match_re_begins_with c); [|done|].
    + apply IH. intros H. apply Hs. by right.
    + simpl. intros [= ->]. apply Hs. by left.
Qed.

Lemma search_begins_with (c : N) (r : regex) (text : pystr) :
  begins_with c r = true -> ~ In c text -> search false r text = None.
Proof. apply search_from_begins_with. Qed.

Lemma findall_begins_with (c : N) (r : regex) (text : pystr) :
  begins_with c r = true -> ~ In c text -> Re.findall false r text = [].
Proof.
  intros Hb Hs. unfold Re.findall, finditer. cbn [finditer_from].
  by rewrite (search_from_begins_with c).
Qed.

End EscapedBackslash.

(** X18.  The patterns of [OcrToCsv.extract_rut_number] and [OcrToCsv.normalize_date] are
    written with a doubled backslash and ask for a backslash before the
    letter "d": on a text without backslash, as every RUT and every date is,
    both methods return the empty string. *)
Theorem escaped_digit_patterns_never_match (text : pystr) :
  ~ In 0x5C text ->
  OcrToCsv.extract_rut_number text = [] /\ OcrToCsv.normalize_date text = [].
Proof.
  intros Hs. split.
  - unfold OcrToCsv.extract_rut_number. destruct (negb (truthy text)); [done|]. cbv zeta.
    rewrite (findall_begins_with 0x5C); [done|vm_compute; reflexivity|].
    intros H. apply filter_In in H as [H _]. done.
  - unfold OcrToCsv.normalize_date. destruct (negb (truthy text)); [done|].
    unfold OcrToCsv.date_patterns. cbn [fold_left]. unfold OcrToCsv.normalize_date_step.
    rewrite !(search_begins_with 0x5C) by (done || (vm_compute; reflexivity)). reflexivity.
Qed.

Lemma escaped_digit_patterns_never_match_witness :
  OcrToCsv.extract_rut_number (py "12.345.678-5") = [] /\ OcrToCsv.normalize_date (py "12/05/2023") = [].
Proof.
  split.
  - apply (proj1 (escaped_digit_patterns_never_match (py "12.345.678-5")
                    ltac:(vm_compute; intuition discriminate))).
  - apply (proj2 (escaped_digit_patterns_never_match (py "12/05/2023")
                    ltac:(vm_compute; intuition discriminate))).
Defined.

(** ** Matches of the regular expressions *)

Section Matcher.

Import Re.

Variable ic : bool.

(** The loop of a repetition. *)
Lemma repeat_loop_sound (lo : nat) (hi : option nat) (r1 : regex)
    (IH : forall st k res,
        match_re ic r1 st k = Some res ->
        exists st1, consumes ic r1 st st1 /\ k st1 = Some res)
    (fuel count : nat) (st : mstate) (k : mstate -> option mstate) (res : mstate) :
  within count hi ->
  (fix loop (fuel count : nat) (st : mstate) (k : mstate -> option mstate)
       {struct fuel} : option mstate :=
     match fuel with
     | O => None
     | S fuel' =>
         let more :=
           if under count hi then
             match_re ic r1 st
               (fun st1 =>
                  if (m_pos st <? m_pos st1)%nat
                  then loop fuel' (S count) st1 k else None)
           else None in
         match more with
         | Some res => Some res
         | None => if (lo <=? count)%nat then k st else None
         end
     end) fuel count st k = Some res ->
  exists n st1,
    (lo <= count + n)%nat /\ within (count + n) hi
    /\ times (consumes ic r1) n st st1 /\ k st1 = Some res.
Proof.
  revert count st. induction fuel as [|fuel IHf]; intros count st Hw; [discriminate|].
  cbv zeta.
  destruct (under count hi) eqn:Hu.
  - destruct (match_re ic r1 st _) as [res'|] eqn:Hm.
    + intros [= ->]. apply IH in Hm as (st' & Hc & Hk).
      destruct (m_pos st <? m_pos st')%nat eqn:Hlt; [|discriminate].
      apply Nat.ltb_lt in Hlt.
      apply IHf in Hk as (n & st1 & Hlo & Hhi & Ht & Hk).
      * exists (S n), st1. rewrite Nat.add_succ_r. repeat split; try done.
        exists st'. auto.
      * unfold under in Hu. destruct hi as [h|]; [|done]. apply Nat.ltb_lt in Hu.
        simpl. lia.
    + destruct (lo <=? count)%nat eqn:Hlo; [|discriminate]. intros Hk.
      apply Nat.leb_le in Hlo. exists O, st. rewrite Nat.add_0_r. by repeat split.
  - destruct (lo <=? count)%nat eqn:Hlo; [|discriminate]. intros Hk.
    apply Nat.leb_le in Hlo. exists O, st. rewrite Nat.add_0_r. by repeat split.
Qed.

(** A successful match consumes the expression and hands the state it
    leaves to the continuation. *)
Lemma match_re_sound (r : regex) (st : mstate) (k : mstate -> option mstate) (res : mstate) :
  match_re ic r st k = Some res ->
  exists st1, consumes ic r st st1 /\ k st1 = Some res.
Proof.
  revert st k res. induction r; intros st k res; cbn [match_re consumes].
  - intros H. by exists st.
  - destruct (m_rest st) as [|x rest] eqn:E; [discriminate|].
    destruct (char_matches ic c x) eqn:Hc; [|discriminate]. intros H.
    exists (advance st x rest). split; [|done]. by exists x, rest.
  - destruct (m_rest st) as [|x rest] eqn:E; [discriminate|].
    destruct (set_matches ic negated items x) eqn:Hc; [|discriminate]. intros H.
    exists (advance st x rest). split; [|done]. by exists x, rest.
  - destruct (at_word_boundary st) eqn:E; [|discriminate]. intros H. by exists st.
  - intros H. apply IHr1 in H as (st' & H1 & H). apply IHr2 in H as (st1 & H2 & H).
    exists st1. split; [|done]. by exists st'.
  - destruct (match_re ic r1 st k) as [res'|] eqn:E.
    + intros [= ->]. apply IHr1 in E as (st1 & H1 & H). exists st1. auto.
    + intros H. apply IHr2 in H as (st1 & H2 & H). exists st1. auto.
  - intros H.
    destruct (repeat_loop_sound lo hi r IHr (S (length (m_rest st))) O st k res)
      as (n & st1 & Hlo & Hhi & Ht & Hk); [destruct hi; simpl; [lia|done]|exact H|].
    exists st1. split; [|done]. exists n. by repeat split.
  - intros H. apply IHr in H as (st' & H1 & H).
    exists (close_group i st st'). split; [|done]. by exists st'.
Qed.

(** What a match consumes is a prefix of the rest of the text. *)
Lemma times_consumed (step : mstate -> mstate -> Prop) (n : nat) (st st1 : mstate) :
  (forall sa sb, step sa sb ->
     exists w, m_rest sa = w ++ m_rest sb /\ m_pos sb = (m_pos sa + length w)%nat) ->
  times step n st st1 ->
  exists w, m_rest st = w ++ m_rest st1 /\ m_pos st1 = (m_pos st + length w)%nat.
Proof.
  intros Hstep. revert st. induction n as [|n IH]; intros st; simpl.
  - intros ->. exists []. split; [done|]. simpl. lia.
  - intros (st' & Hs & _ & Ht). apply Hstep in Hs as (w1 & E1 & P1).
    apply IH in Ht as (w2 & E2 & P2). exists (w1 ++ w2).
    rewrite E1, E2, <- app_assoc, length_app. split; [done|lia].
Qed.

Lemma consumes_word (r : regex) (st st1 : mstate) :
  consumes ic r st st1 ->
  exists w, m_rest st = w ++ m_rest st1 /\ m_pos st1 = (m_pos st + length w)%nat.
Proof.
  revert st st1. induction r; intros st st1; cbn [consumes].
  - intros ->. exists []. split; [done|]. simpl. lia.
  - intros (x & rest & E & _ & ->). exists [x]. simpl. split; [done|lia].
  - intros (x & rest & E & _ & ->). exists [x]. simpl. split; [done|lia].
  - intros [_ ->]. exists []. split; [done|]. simpl. lia.
  - intros (st' & H1 & H2). apply IHr1 in H1 as (w1 & E1 & P1).
    apply IHr2 in H2 as (w2 & E2 & P2). exists (w1 ++ w2).
    rewrite E1, E2, <- app_assoc, length_app. split; [done|lia].
  - intros [H|H]; [by apply IHr1|by apply IHr2].
  - intros (n & _ & _ & Ht). by apply (times_consumed (consumes ic r) n).
  - intros (st' & H & ->). apply IHr in H as (w & E & P). by exists w.
Qed.

Lemma on_text_after (text w rest : pystr) (pos : nat) :
  drop pos text = w ++ rest -> rest = drop (pos + length w) text.
Proof.
  intros H. rewrite <- drop_drop, H. by rewrite drop_app_length.
Qed.

Lemma consumes_on_text (text : pystr) (r : regex) (st st1 : mstate) :
  consumes ic r st st1 -> on_text text st -> on_text text st1.
Proof.
  intros (w & E & P)%consumes_word Ht. unfold on_text in *. rewrite P.
  apply on_text_after. by rewrite <- Ht.
Qed.

(** The text between the two states. *)
Lemma consumes_slice (text : pystr) (r : regex) (st st1 : mstate) (w : pystr) :
  on_text text st -> m_rest st = w ++ m_rest st1 -> m_pos st1 = (m_pos st + length w)%nat ->
  slice (m_pos st) (m_pos st1) text = w.
Proof.
  intros Ht E P. unfold slice. rewrite <- Ht, E, P.
  replace (m_pos st + length w - m_pos st)%nat with (length w) by lia.
  by rewrite take_app_length.
Qed.

(** The groups only grow. *)
Lemma times_grows (step : mstate -> mstate -> Prop) (n : nat) (st st1 : mstate) :
  (forall sa sb, step sa sb -> exists new, m_groups sb = new ++ m_groups sa) ->
  times step n st st1 -> exists new, m_groups st1 = new ++ m_groups st.
Proof.
  intros Hstep. revert st. induction n as [|n IH]; intros st; simpl.
  - intros ->. by exists [].
  - intros (st' & Hs & _ & Ht). apply Hstep in Hs as (n1 & E1).
    apply IH in Ht as (n2 & E2). exists (n2 ++ n1). by rewrite E2, E1, app_assoc.
Qed.

Lemma consumes_grows (r : regex) (st st1 : mstate) :
  consumes ic r st st1 -> exists new, m_groups st1 = new ++ m_groups st.
Proof.
  revert st st1. induction r; intros st st1; cbn [consumes].
  - intros ->. by exists [].
  - intros (x & rest & _ & _ & ->). by exists [].
  - intros (x & rest & _ & _ & ->). by exists [].
  - intros [_ ->]. by exists [].
  - intros (st' & H1 & H2). apply IHr1 in H1 as (n1 & E1). apply IHr2 in H2 as (n2 & E2).
    exists (n2 ++ n1). by rewrite E2, E1, app_assoc.
  - intros [H|H]; [by apply IHr1|by apply IHr2].
  - intros (n & _ & _ & Ht). by apply (times_grows (consumes ic r) n).
  - intros (st' & H & ->). apply IHr in H as (n1 & E1).
    exists ((i, (m_pos st, m_pos st')) :: n1). simpl. by rewrite E1.
Qed.

Lemma group_sound_mono (text : pystr) (b1 b2 : list (nat * regex)) (g : nat * (nat * nat)) :
  (forall x, In x b1 -> In x b2) -> group_sound text ic b1 g -> group_sound text ic b2 g.
Proof.
  intros Hin (body & sa & sb & Hb & H). exists body, sa, sb. split; [by apply Hin|done].
Qed.

(** Every span that a match records comes from a match of a body. *)
Lemma times_groups (text : pystr) (bodies : list (nat * regex))
    (step : mstate -> mstate -> Prop) (n : nat) (st st1 : mstate) :
  (forall sa sb, step sa sb -> on_text text sa ->
     on_text text sb
     /\ exists new, m_groups sb = new ++ m_groups sa
                    /\ Forall (group_sound text ic bodies) new) ->
  times step n st st1 -> on_text text st ->
  exists new, m_groups st1 = new ++ m_groups st /\ Forall (group_sound text ic bodies) new.
Proof.
  intros Hstep. revert st. induction n as [|n IH]; intros st; simpl.
  - intros -> _. by exists [].
  - intros (st' & Hs & _ & Ht) Hst. apply Hstep in Hs as (Hst' & n1 & E1 & F1); [|done].
    apply IH in Ht as (n2 & E2 & F2); [|done]. exists (n2 ++ n1).
    rewrite E2, E1, app_assoc. split; [done|]. by apply Forall_app.
Qed.

Lemma consumes_groups (text : pystr) (r : regex) (st st1 : mstate) :
  consumes ic r st st1 -> on_text text st ->
  exists new,
    m_groups st1 = new ++ m_groups st /\ Forall (group_sound text ic (group_bodies r)) new.
Proof.
  revert st st1. induction r; intros st st1; cbn [consumes group_bodies].
  - intros -> _. by exists [].
  - intros (x & rest & _ & _ & ->) _. by exists [].
  - intros (x & rest & _ & _ & ->) _. by exists [].
  - intros [_ ->] _. by exists [].
  - intros (st' & H1 & H2) Hst.
    pose proof (consumes_on_text text r1 st st' H1 Hst) as Hst'.
    apply IHr1 in H1 as (n1 & E1 & F1); [|done]. apply IHr2 in H2 as (n2 & E2 & F2); [|done].
    exists (n2 ++ n1). rewrite E2, E1, app_assoc. split; [done|]. apply Forall_app. split.
    + eapply Forall_impl; [apply F2|]. intros g. apply group_sound_mono.
      intros x Hx. apply in_or_app. by right.
    + eapply Forall_impl; [apply F1|]. intros g. apply group_sound_mono.
      intros x Hx. apply in_or_app. by left.
  - intros [H|H] Hst.
    + apply IHr1 in H as (n1 & E1 & F1); [|done]. exists n1. split; [done|].
      eapply Forall_impl; [apply F1|]. intros g. apply group_sound_mono.
      intros x Hx. apply in_or_app. by left.
    + apply IHr2 in H as (n2 & E2 & F2); [|done]. exists n2. split; [done|].
      eapply Forall_impl; [apply F2|]. intros g. apply group_sound_mono.
      intros x Hx. apply in_or_app. by right.
  - intros (n & _ & _ & Ht) Hst.
    apply (times_groups text (group_bodies r) (consumes ic r) n st st1); try done.
    intros sa sb Hs Hsa. split; [by apply (consumes_on_text text r sa)|by apply IHr].
  - intros (st' & H & ->) Hst. pose proof H as Hc.
    apply IHr in H as (n1 & E1 & F1); [|done].
    exists ((i, (m_pos st, m_pos st')) :: n1). simpl. rewrite E1. split; [done|].
    apply Forall_cons. split.
    + exists r, st, st'. simpl. auto.
    + eapply Forall_impl; [apply F1|]. intros g. apply group_sound_mono.
      intros x Hx. by right.
Qed.

(** The groups on the spine of the expression are recorded. *)
Lemma consumes_spine (r : regex) (st st1 : mstate) (i : nat) :
  consumes ic r st st1 -> In i (spine_groups r) ->
  exists span, In (i, span) (m_groups st1).
Proof.
  revert st st1. induction r; intros st st1; cbn [consumes spine_groups];
    try (intros _ Hno; exact (False_ind _ Hno)).
  - intros (st' & H1 & H2) [Hi|Hi]%in_app_or.
    + destruct (IHr1 _ _ H1 Hi) as (span & Hs). exists span.
      apply consumes_grows in H2 as (new & ->). apply in_or_app. by right.
    + by apply (IHr2 st').
  - intros (st' & Hc & Hst) Hin. subst st1. destruct Hin as [<-|Hi].
    + eexists. simpl. by left.
    + destruct (IHr _ _ Hc Hi) as (span & Hs). exists span. simpl. by right.
Qed.

(** A body that is a set, or a repeated set, consumes a word of the set. *)
Lemma times_set (negated : bool) (items : list set_item) (n : nat) (st st1 : mstate) :
  times (consumes ic (CharSet negated items)) n st st1 ->
  exists w, m_rest st = w ++ m_rest st1 /\ m_pos st1 = (m_pos st + length w)%nat
            /\ length w = n /\ forallb (set_matches ic negated items) w = true.
Proof.
  revert st. induction n as [|n IH]; intros st; simpl.
  - intros ->. exists []. repeat split; try done; simpl; lia.
  - intros (st' & (x & rest & E & Hx & ->) & _ & Ht).
    apply IH in Ht as (w & E2 & P2 & L2 & F2). simpl in E2, P2.
    exists (x :: w). simpl. rewrite E, E2, Hx, F2, L2. repeat split; try done; lia.
Qed.

Lemma set_word_sound (body : regex) (w : bool * list set_item * nat * option nat)
    (sa sb : mstate) :
  set_word body = Some w -> consumes ic body sa sb ->
  exists s, m_rest sa = s ++ m_rest sb /\ m_pos sb = (m_pos sa + length s)%nat
            /\ word_of ic w s.
Proof.
  destruct body as [| | | |r1 r2| | |]; try discriminate.
  destruct r2; try (destruct r1 as [| | | | | |? ? []|]; discriminate).
  destruct r1 as [| |negated items| | | |lo hi r1|]; try discriminate.
  - intros [= <-]. cbn [consumes]. intros (st' & (x & rest & E & Hx & ->) & ->).
    exists [x]. simpl. rewrite Hx. repeat split; try done; lia.
  - destruct r1 as [| |negated items| | | | |]; try discriminate.
    intros [= <-]. cbn [consumes]. intros (st' & (n & Hlo & Hhi & Ht) & ->).
    apply times_set in Ht as (s & E & P & L & F). exists s. unfold word_of.
    subst n. by repeat split.
Qed.

(** *** Match objects *)

Lemma match_at_sound (text : pystr) (r : regex) (prev : option N) (s : pystr) (pos : nat)
    (m : match_obj) :
  s = drop pos text -> match_at ic r prev s pos = Some m -> match_of text ic r m.
Proof.
  intros Hs. unfold match_at.
  destruct (match_re ic r _ Some) as [st1|] eqn:E; [|discriminate]. intros [= <-].
  apply match_re_sound in E as (st1' & Hc & [= ->]).
  exists (MState prev s pos []), st1. by repeat split.
Qed.

Lemma search_from_sound (text : pystr) (r : regex) (prev : option N) (s : pystr) (pos : nat)
    (m : match_obj) :
  s = drop pos text -> search_from ic r prev s pos = Some m -> match_of text ic r m.
Proof.
  revert prev pos. induction s as [|c s IH]; intros prev pos Hs; cbn [search_from].
  - destruct (match_at ic r prev [] pos) eqn:E; [|discriminate].
    intros [= <-]. by apply (match_at_sound text r prev [] pos).
  - destruct (match_at ic r prev (c :: s) pos) eqn:E.
    + intros [= <-]. by apply (match_at_sound text r prev (c :: s) pos).
    + apply IH. change (c :: s) with ([c] ++ s) in Hs. symmetry in Hs.
      apply on_text_after in Hs. simpl in Hs. by rewrite Nat.add_1_r in Hs.
Qed.


Lemma match_of_after (text : pystr) (r : regex) (m : match_obj) :
  match_of text ic r m -> snd (after m) = drop (end_ m) text.
Proof.
  intros (st0 & st1 & Ht & _ & Hc & _ & -> & _ & ->). simpl.
  by apply (consumes_on_text text r st0).
Qed.

Lemma finditer_from_sound (text : pystr) (r : regex) (fuel : nat) (prev : option N)
    (s : pystr) (pos : nat) (m : match_obj) :
  s = drop pos text -> In m (finditer_from fuel ic r prev s pos) -> match_of text ic r m.
Proof.
  revert prev s pos. induction fuel as [|fuel IH]; intros prev s pos Hs; [intros []|].
  cbn [finditer_from]. destruct (search_from ic r prev s pos) as [m0|] eqn:E; [|intros []].
  pose proof (search_from_sound text r prev s pos m0 Hs E) as Hm0.
  destruct (start m0 <? end_ m0)%nat.
  - intros [<-|Hin]; [done|]. apply IH in Hin; [done|]. by apply (match_of_after text r).
  - intros [<-|[]]. done.
Qed.

Lemma finditer_sound (text : pystr) (r : regex) (m : match_obj) :
  In m (finditer ic r text) -> match_of text ic r m.
Proof. by apply finditer_from_sound. Qed.

(** The text of a group that is a word of a set. *)
Lemma group_word_found (text : pystr) (r : regex) (m : match_obj) (i : nat)
    (w : bool * list set_item * nat * option nat) (g : nat * (nat * nat)) :
  match_of text ic r m -> group_word r i = Some w ->
  List.find (fun g => (fst g =? i)%nat) (groups m) = Some g ->
  word_of ic w (group text m i).
Proof.
  intros (st0 & st1 & Ht & Hg0 & Hc & _ & _ & Hg & _) Hw Hf.
  unfold group, group_span. rewrite Hf.
  apply find_some in Hf as [Hin Hi]. apply Nat.eqb_eq in Hi.
  apply (consumes_groups text) in Hc as (new & E & F); [|done].
  rewrite Hg0, app_nil_r in E. rewrite Hg, E in Hin.
  rewrite List.Forall_forall in F. destruct (F g Hin) as (body & sa & sb & Hb & Hcb & Hsa & Pa & Pb).
  unfold group_word in Hw.
  assert (Hbf : In (fst g, body) (List.filter (fun g => (fst g =? i)%nat) (group_bodies r))).
  { apply filter_In. split; [done|]. simpl. by apply Nat.eqb_eq. }
  destruct (List.filter _ (group_bodies r)) as [|[j body0] [|? ?]]; try discriminate.
  destruct Hbf as [[= _ <-]|[]].
  destruct (set_word_sound body0 w sa sb Hw Hcb) as (s & Es & Ps & Hs).
  rewrite <- Pa, <- Pb. by rewrite (consumes_slice text body0 sa sb s).
Qed.

Lemma group_word_sound (text : pystr) (r : regex) (m : match_obj) (i : nat)
    (w : bool * list set_item * nat * option nat) :
  match_of text ic r m -> group_word r i = Some w ->
  group text m i = [] \/ word_of ic w (group text m i).
Proof.
  intros Hm Hw.
  destruct (List.find (fun g => (fst g =? i)%nat) (groups m)) as [g|] eqn:Hf.
  - right. by apply (group_word_found text r m i w g).
  - left. unfold group, group_span. by rewrite Hf.
Qed.

Lemma group_word_spine (text : pystr) (r : regex) (m : match_obj) (i : nat)
    (w : bool * list set_item * nat * option nat) :
  match_of text ic r m -> group_word r i = Some w -> In i (spine_groups r) ->
  word_of ic w (group text m i).
Proof.
  intros Hm Hw Hi.
  destruct (List.find (fun g => (fst g =? i)%nat) (groups m)) as [g|] eqn:Hf.
  - by apply (group_word_found text r m i w g).
  - exfalso. destruct Hm as (st0 & st1 & _ & _ & Hc & _ & _ & Hg & _).
    destruct (consumes_spine r st0 st1 i Hc Hi) as (span & Hs). rewrite <- Hg in Hs.
    apply (find_none _ _ Hf) in Hs. simpl in Hs. by rewrite Nat.eqb_refl in Hs.
Qed.

End Matcher.

(** ** RUT candidates *)

Section RutCandidates.

Import Re ItauUnified.

Ltac fold_case_cases x :=
  unfold fold_case; cbv zeta;
  let l := fresh "l" in
  let El := fresh "El" in
  remember (lower_char x) as l eqn:El; unfold lower_char in El;
  repeat match type of El with
         | context [if ?b then _ else _] => destruct b eqn:?
         end;
  subst l; split_ifs.

Lemma fold_case_digit (x : N) : is_decimal (fold_case x) = true -> is_decimal x = true.
Proof.
  unfold is_decimal. fold_case_cases x; intros H; bool_to_prop;
    apply andb_true_iff; split; apply N.leb_le; lia.
Qed.

Lemma fold_case_of_digit (c : N) : is_decimal c = true -> fold_case c = c.
Proof.
  unfold is_decimal. intros H. fold_case_cases c; bool_to_prop; try reflexivity; lia.
Qed.

Lemma fold_case_k (x : N) : fold_case x = 0x6B -> x = 0x4B \/ x = 0x6B \/ x = 0x212A.
Proof. fold_case_cases x; intros H; bool_to_prop; lia. Qed.

(** Under [IGNORECASE] the range [0-9] still matches decimal digits only. *)
Lemma range_digit_ignorecase (x : N) :
  range_matches true 0x30 0x39 x = true -> is_decimal x = true.
Proof.
  unfold range_matches. cbv zeta. intros (c & Hin & Hc)%existsb_exists.
  apply andb_true_iff in Hc as [Hr Hf]. apply N.eqb_eq in Hf.
  assert (Hd : is_decimal c = true) by exact Hr.
  rewrite (fold_case_of_digit c Hd) in Hf.
  unfold is_decimal in Hd. apply andb_true_iff in Hd as [H1 H2].
  apply N.leb_le in H1, H2.
  cbn [In] in Hin.
  destruct Hin as [Hx|[Hx|[Hs|Hrest]]].
  - subst c. unfold is_decimal. apply andb_true_iff. split; apply N.leb_le; lia.
  - apply fold_case_digit. rewrite Hx. unfold is_decimal.
    apply andb_true_iff. split; apply N.leb_le; lia.
  - lia.
  - repeat (destruct Hrest as [Hx|Hrest]; [subst c; lia|]). destruct Hrest.
Qed.

(** The character that the check digit group matches, upper-cased. *)
Lemma dv_set_char (ic : bool) (x : N) :
  set_matches ic false [SRange 0x30 0x39; SChar 0x4B; SChar 0x6B] x = true ->
  exists y, upper [x] = [y] /\ dv_char y = true.
Proof.
  unfold set_matches. cbn [xorb existsb item_matches]. rewrite orb_false_r.
  assert (Hdigit : is_decimal x = true -> exists y, upper [x] = [y] /\ dv_char y = true).
  { intros Hd. exists x. split.
    - unfold upper. simpl. rewrite app_nil_r. unfold upper_char, is_decimal in *.
      split_ifs; bool_to_prop; try reflexivity; lia.
    - unfold dv_char, is_decimal in *. bool_to_prop.
      assert (Hx : (x = 48 \/ x = 49 \/ x = 50 \/ x = 51 \/ x = 52 \/ x = 53 \/ x = 54
                    \/ x = 55 \/ x = 56 \/ x = 57)%N) by lia.
      repeat (destruct Hx as [->|Hx]; [reflexivity|]). by subst. }
  assert (Hk : x = 0x4B \/ x = 0x6B \/ x = 0x212A ->
               exists y, upper [x] = [y] /\ dv_char y = true).
  { intros [ -> | [ -> | -> ] ]; eexists; split; reflexivity. }
  destruct ic.
  - intros [Hr|[Hc|Hc]%orb_true_iff]%orb_true_iff.
    + by apply Hdigit, range_digit_ignorecase.
    + apply Hk, fold_case_k. unfold char_matches in Hc. apply N.eqb_eq in Hc. by rewrite <- Hc.
    + apply Hk, fold_case_k. unfold char_matches in Hc. apply N.eqb_eq in Hc. by rewrite <- Hc.
  - intros [Hr|[Hc|Hc]%orb_true_iff]%orb_true_iff.
    + by apply Hdigit.
    + apply Hk. unfold char_matches in Hc. apply N.eqb_eq in Hc. auto.
    + apply Hk. unfold char_matches in Hc. apply N.eqb_eq in Hc. auto.
Qed.

Lemma dv_word_char (ic : bool) (s : pystr) :
  word_of ic dv_word s -> exists y, upper s = [y] /\ dv_char y = true.
Proof.
  unfold word_of, dv_word. intros (Hlo & Hhi & Hs). simpl in Hhi.
  destruct s as [|x [|? ?]]; simpl in Hlo, Hhi; try lia.
  simpl in Hs. rewrite andb_true_r in Hs. by apply (dv_set_char ic).
Qed.

Lemma digit_word (ic : bool) (lo : nat) (hi : option nat) (s : pystr) :
  word_of ic (false, [SDigit], lo, hi) s -> forallb is_decimal s = true.
Proof.
  unfold word_of. intros (_ & _ & Hs). rewrite forallb_forall in *. intros x Hx.
  specialize (Hs x Hx). unfold set_matches in Hs. simpl in Hs. by rewrite orb_false_r in Hs.
Qed.

(** The groups of the patterns of [find_all_ruts]. *)
Lemma rut_patterns_groups :
  Forall (fun r => group_word r 2 = Some dv_word /\ In 2%nat (spine_groups r))
    (map fst labelled_patterns ++ [re_generic_dotted; re_generic_plain])
  /\ group_word re_generic_plain 1 = Some (false, [SDigit], 7%nat, Some 8%nat)
  /\ In 1%nat (spine_groups re_generic_plain).
Proof.
  split; [|split; [vm_compute; reflexivity|vm_compute; auto]].
  apply List.Forall_forall. intros r Hr. unfold labelled_patterns in Hr.
  cbn [map fst app In] in Hr.
  repeat (destruct Hr as [<-|Hr]; [split; [vm_compute; reflexivity|vm_compute; auto]|]).
  destruct Hr.
Qed.

Lemma candidate_dv (ic : bool) (text : pystr) (r : regex) (m : match_obj) :
  In r (map fst labelled_patterns ++ [re_generic_dotted; re_generic_plain]) ->
  In m (finditer ic r text) ->
  exists y, upper (group text m 2) = [y] /\ dv_char y = true.
Proof.
  intros Hr Hm. destruct rut_patterns_groups as (Hall & _).
  rewrite List.Forall_forall in Hall. destruct (Hall r Hr) as [Hw Hs].
  apply (dv_word_char ic), (group_word_spine ic text r m 2); try done.
  by apply finditer_sound.
Qed.

Lemma sub_non_digits_decimal (s : pystr) : forallb is_decimal (sub_non_digits s) = true.
Proof. apply forallb_forall. intros x Hx. by apply filter_In in Hx as [_ Hx]. Qed.

Lemma find_all_ruts_candidates (text : pystr) (c : candidate) :
  In c (find_all_ruts text) ->
  forallb is_decimal (c_rut c) = true
  /\ exists y, c_dv c = [y] /\ dv_char y = true.
Proof.
  unfold find_all_ruts. rewrite !in_app_iff, in_flat_map.
  intros [(pb & Hpb & Hc)|[Hc|Hc]].
  - unfold labelled_candidates in Hc. apply in_map_iff in Hc as (m & <- & Hm). simpl.
    split; [apply sub_non_digits_decimal|].
    apply (candidate_dv true text (fst pb)); [|done].
    apply in_or_app. left. by apply in_map.
  - unfold generic_candidates in Hc. apply in_flat_map in Hc as (m & Hm & Hc).
    destruct (found true re_operacion_producto _); [destruct Hc|].
    destruct Hc as [<-|[]]. simpl. split; [apply sub_non_digits_decimal|].
    apply (candidate_dv false text re_generic_dotted); [|done].
    apply in_or_app. right. simpl. auto.
  - unfold generic_candidates in Hc. apply in_flat_map in Hc as (m & Hm & Hc).
    destruct (found true re_operacion_producto _); [destruct Hc|].
    destruct Hc as [<-|[]]. simpl. split.
    + destruct rut_patterns_groups as (_ & Hw & Hs).
      apply (digit_word false 7 (Some 8%nat)).
      apply (group_word_spine false text re_generic_plain m 1); try done.
      by apply finditer_sound.
    + apply (candidate_dv false text re_generic_plain); [|done].
      apply in_or_app. right. simpl. auto.
Qed.

(** The choice is empty or a candidate of the list. *)
Lemma choose_rut_for_doc_in (text : pystr) (ruts : list candidate) (doc_type : pystr) :
  choose_rut_for_doc text ruts doc_type = ([], [])
  \/ exists c, In c ruts /\ choose_rut_for_doc text ruts doc_type = (c_rut c, c_dv c).
Proof.
  unfold choose_rut_for_doc. destruct ruts as [|c0 ruts]; [by left|].
  set (sus_pos := Re.start <$> Re.search true re_sus text).
  destruct (choose_loop_result sus_pos doc_type (c0 :: ruts) None (-1))
    as [[-> _]|(pre & c & post & E & -> & _)]; [by left|].
  right. exists c. split; [|done]. rewrite E. apply in_or_app. right. by left.
Qed.

Lemma page_rut_well_formed (text doc_type : pystr) :
  forallb is_decimal (page_rut text doc_type).1 = true
  /\ ((page_rut text doc_type).2 = []
      \/ exists y, (page_rut text doc_type).2 = [y] /\ dv_char y = true).
Proof.
  unfold page_rut. destruct (find_all_ruts text) as [|c0 ruts] eqn:E; [split; [done|by left]|].
  destruct (choose_rut_for_doc_in text (c0 :: ruts) doc_type) as [->|(c & Hc & ->)];
    [split; [done|by left]|].
  rewrite <- E in Hc. apply find_all_ruts_candidates in Hc as [Hr Hd]. simpl. auto.
Qed.

Lemma process_pagare_rut_well_formed (ex : extractors) (text_pages : list pystr)
    (source_name : option pystr) :
  let row := process_pagare ex text_pages source_name in
  forallb is_decimal (get_str row "RUT") = true
  /\ (get_str row "DV" = [] \/ exists y, get_str row "DV" = [y] /\ dv_char y = true).
Proof.
  intros row. subst row. unfold get_str at 1 2 3.
  destruct (process_pagare_rut ex text_pages source_name) as [-> ->]. cbn [default].
  destruct (best_row_in "NOMBRE" (map (pagare_page_row ex) text_pages)) as [->|Hin];
    [split; [done|by left]|].
  apply in_map_iff in Hin as (t & <- & Ht).
  destruct (pagare_page_row_fields ex t) as (_ & _ & -> & ->).
  apply page_rut_well_formed.
Qed.

End RutCandidates.

(** ** Dates of the CSV generator *)

Section CsvDates.

Import Re OcrToCsv.





End CsvDates.

(** X19.  On a page whose decimal digits are all among 0 to 9, every RUT
    candidate that [find_all_ruts] reads has a number of decimal digits only
    and a check digit of exactly one character: a decimal digit, "K", or the
    Kelvin sign U+212A, which the labelled patterns accept under
    [IGNORECASE] and [str.upper] keeps.  So in the promissory-note row of
    such pages the RUT holds only decimal digits and the check digit is empty
    or one such character. *)
Theorem rut_candidates_well_formed :
  (forall (text : pystr) (c : ItauUnified.candidate),
      plain_digits text = true ->
      In c (ItauUnified.find_all_ruts text) ->
      forallb is_decimal (ItauUnified.c_rut c) = true
      /\ exists y, ItauUnified.c_dv c = [y] /\ dv_char y = true)
  /\ (forall (ex : ItauUnified.extractors) (text_pages : list pystr)
             (source_name : option pystr),
        forallb plain_digits text_pages = true ->
        let row := ItauUnified.process_pagare ex text_pages source_name in
        forallb is_decimal (ItauUnified.get_str row "RUT") = true
        /\ (ItauUnified.get_str row "DV" = []
            \/ exists y, ItauUnified.get_str row "DV" = [y] /\ dv_char y = true))
  /\ plain_digits (py "RUT: 12.345.678-" ++ [0x212A]) = true
  /\ map ItauUnified.c_dv (ItauUnified.find_all_ruts (py "RUT: 12.345.678-" ++ [0x212A]))
     = [[0x212A]].
Proof.
  split; [intros text c _; apply find_all_ruts_candidates|].
  split; [intros ex text_pages source_name _; apply process_pagare_rut_well_formed|].
  split; vm_compute; reflexivity.
Qed.

Lemma rut_candidates_well_formed_witness :
  forallb is_decimal
    (ItauUnified.c_rut
       (nth 0 (ItauUnified.find_all_ruts (py "RUT: 12.345.678-k"))
          (ItauUnified.Candidate 0 [] [] [] 0))) = true.
Proof.
  apply (proj1 (proj1 rut_candidates_well_formed (py "RUT: 12.345.678-k") _
                  ltac:(vm_compute; reflexivity)
                  ltac:(vm_compute; left; reflexivity))).
Defined.



(** ** Operation numbers *)

Section OperationNumber.

Import Re ItauUnified.





(** *** The sort of the numbers of a file name *)










(** *** The operation number of a row *)



End OperationNumber.



(** ** RUT cells that hold a letter *)

Section RutLetter.

Import ItauAuto.

Variable ftfy : option (pystr -> option pystr).

Lemma rut_clean_digits_letter (rut : pystr) :
  In 0x4B rut \/ In 0x6B rut ->
  truthy (rut_clean_digits rut) = true /\ isdigit (rut_clean_digits rut) = false.
Proof.
  intros H.
  assert (Hin : exists c, In c (rut_clean_digits rut) /\ isdigit_char c = false).
  { destruct H as [H|H]; [exists 0x4B|exists 0x6B]; (split; [|reflexivity]);
      apply filter_In; by split. }
  destruct Hin as (c & Hc & Hd). split.
  - by destruct (rut_clean_digits rut).
  - unfold isdigit. apply andb_false_iff. right.
    destruct (forallb isdigit_char (rut_clean_digits rut)) eqn:E; [|done].
    rewrite forallb_forall in E. by rewrite (E c Hc) in Hd.
Qed.

Lemma rut_clean_digits_no_letter (rut : pystr) :
  ~ In 0x4B rut -> ~ In 0x6B rut -> rut_clean_digits rut = sub_non_digits rut.
Proof.
  intros HK Hk. unfold rut_clean_digits, sub_non_digits. apply filter_ext_in.
  intros c Hc. destruct (N.eqb_spec c 0x6B) as [->|_]; [done|].
  destruct (N.eqb_spec c 0x4B) as [->|_]; [done|]. by rewrite !orb_false_r.
Qed.

Lemma validate_rut_dv_digits (rut dv : pystr) :
  sub_non_digits rut <> [] -> validate_rut_dv rut dv = validate_rut_dv (sub_non_digits rut) dv.
Proof.
  intros Hne. unfold validate_rut_dv.
  rewrite (sub_non_digits_id (sub_non_digits rut)) by apply sub_non_digits_decimal.
  assert (Hr : truthy rut = true).
  { destruct rut; [by destruct Hne|done]. }
  assert (Hd : truthy (sub_non_digits rut) = true) by (by apply truthy_true).
  by rewrite Hr, Hd.
Qed.

Lemma rut_calc_dv_is_calculate_dv (num_str : pystr) :
  rut_calc_dv num_str = calculate_dv num_str.
Proof. reflexivity. Qed.

Lemma normalize_rut_and_dv_letter (rut dv : pystr) :
  In 0x4B rut \/ In 0x6B rut -> upper (clean_text_value ftfy (Some dv)) <> [] ->
  normalize_rut_and_dv ftfy rut dv
  = Some (rut_clean_digits rut, upper (clean_text_value ftfy (Some dv)), [], false).
Proof.
  intros Hl Hdv. destruct (rut_clean_digits_letter rut Hl) as [Ht Hd].
  unfold normalize_rut_and_dv, rut_calc_dv. rewrite Ht, Hd.
  cbn [negb mbind option_bind andb].
  assert (Hdt : truthy (upper (clean_text_value ftfy (Some dv))) = true)
    by (by apply truthy_true).
  rewrite Hdt. do 2 f_equal. apply str_eqb_false. congruence.
Qed.

Lemma normalize_rut_and_dv_digits (rut dv : pystr) :
  ~ In 0x4B rut -> ~ In 0x6B rut -> rut_clean_digits rut <> [] ->
  upper (clean_text_value ftfy (Some dv)) <> [] ->
  exists calc,
    calc <> []
    /\ normalize_rut_and_dv ftfy rut dv
       = Some (rut_clean_digits rut, upper (clean_text_value ftfy (Some dv)), calc,
               str_eqb calc (upper (clean_text_value ftfy (Some dv))))
    /\ validate_rut_dv (rut_clean_digits rut) calc = Some (rut_clean_digits rut, calc, true).
Proof.
  intros HK Hk Hne Hdv. rewrite (rut_clean_digits_no_letter rut HK Hk) in *.
  destruct (validate_computed_dv (sub_non_digits rut) Hne (sub_non_digits_decimal rut))
    as (calc & Hc & Hv).
  exists calc. split.
  { destruct (calculate_dv_decimal _ Hne (sub_non_digits_decimal rut)) as [total Ht].
    rewrite Ht in Hc. injection Hc as <-.
    apply truthy_true. by destruct (dv_of_total_stable total). }
  split; [|done].
  unfold normalize_rut_and_dv. rewrite (rut_clean_digits_no_letter rut HK Hk).
  apply truthy_true in Hne, Hdv. rewrite Hne, rut_calc_dv_is_calculate_dv, Hc.
  cbn [mbind option_bind andb]. by rewrite Hdv.
Qed.

Lemma bump_other (k k' : string) (stats : gmap string Z) :
  k <> k' -> bump k stats !! k' = stats !! k'.
Proof. intros H. unfold bump. by rewrite lookup_insert_ne. Qed.

Lemma rut_dv_step_invalid (row : gmap string pystr) (strict_dv : bool)
    (stats : gmap string Z) (rut_num dv_clean calc : pystr) :
  normalize_rut_and_dv ftfy (get_str row "RUT") (get_str row "DV")
  = Some (rut_num, dv_clean, calc, false) ->
  rut_num <> [] -> dv_clean <> [] ->
  exists stats',
    clean_and_normalize_row_rut_dv ftfy row strict_dv stats
    = Some (<["DV" := if strict_dv && truthy calc then calc else dv_clean]>
              (<["RUT" := rut_num]> row), stats')
    /\ stats' !! "rut_invalid"%string
       = Some (default 0 (stats !! "rut_invalid"%string) + 1)%Z.
Proof.
  intros Hn Hr%truthy_true Hd%truthy_true.
  unfold clean_and_normalize_row_rut_dv. rewrite Hn. cbn [mbind option_bind].
  rewrite Hr, Hd. cbn [andb negb].
  eexists. split.
  - destruct (strict_dv && truthy calc); [|reflexivity].
    by rewrite insert_insert_eq.
  - unfold bump at 1. rewrite lookup_insert_eq. do 2 f_equal.
    destruct (negb _ || negb _); [|done]. by rewrite bump_other.
Qed.

End RutLetter.

(** X21.  A RUT cell that still holds a letter k or K, with a check digit
    that cleans to a non-empty value, is always reported invalid by
    [normalize_rut_and_dv]: the letter is kept, no check digit is computed,
    the step counts the row under [rut_invalid] and cannot repair the DV even
    in strict mode, although [validate_rut_dv] accepts the digits of the same
    cell with their check digit.  For a cell without such a letter that holds
    a decimal digit, the computed check digit is the one that
    [validate_rut_dv] accepts for the cleaned RUT, and strict mode writes it
    into the DV cell when the given one differs. *)
Theorem rut_cell_with_letter_is_invalid
    (ftfy : option (pystr -> option pystr))
    (row : gmap string pystr) (strict_dv : bool) (stats : gmap string Z) :
  let rut := ItauAuto.get_str row "RUT" in
  let dv := ItauAuto.get_str row "DV" in
  let rut_num := ItauAuto.rut_clean_digits rut in
  let dv_clean := upper (ItauAuto.clean_text_value ftfy (Some dv)) in
  dv_clean <> [] ->
  (In 0x4B rut \/ In 0x6B rut ->
   ItauAuto.normalize_rut_and_dv ftfy rut dv = Some (rut_num, dv_clean, [], false)
   /\ (exists stats',
         ItauAuto.clean_and_normalize_row_rut_dv ftfy row strict_dv stats
         = Some (<["DV"%string := dv_clean]> (<["RUT"%string := rut_num]> row), stats')
         /\ stats' !! "rut_invalid"%string
            = Some (default 0 (stats !! "rut_invalid"%string) + 1)%Z)
   /\ (sub_non_digits rut <> [] ->
       exists dv0, validate_rut_dv rut dv0 = Some (sub_non_digits rut, dv0, true)))
  /\ (~ In 0x4B rut -> ~ In 0x6B rut -> rut_num <> [] ->
      exists calc,
        ItauAuto.normalize_rut_and_dv ftfy rut dv
        = Some (rut_num, dv_clean, calc, str_eqb calc dv_clean)
        /\ validate_rut_dv rut_num calc = Some (rut_num, calc, true)
        /\ (calc <> dv_clean ->
            exists stats',
              ItauAuto.clean_and_normalize_row_rut_dv ftfy row true stats
              = Some (<["DV"%string := calc]> (<["RUT"%string := rut_num]> row), stats')
              /\ stats' !! "rut_invalid"%string
                 = Some (default 0 (stats !! "rut_invalid"%string) + 1)%Z)).
Proof.
  intros rut dv rut_num dv_clean Hdv. split.
  - intros Hl. pose proof (normalize_rut_and_dv_letter ftfy rut dv Hl Hdv) as Hn.
    split; [exact Hn|]. split.
    + destruct (rut_clean_digits_letter rut Hl) as [Ht _]. apply truthy_true in Ht.
      destruct (rut_dv_step_invalid ftfy row strict_dv stats _ _ _ Hn Ht Hdv)
        as (stats' & Hs & Hc).
      exists stats'. split; [|done]. rewrite Hs. by rewrite andb_false_r.
    + intros Hne.
      destruct (validate_computed_dv (sub_non_digits rut) Hne
                  (sub_non_digits_decimal rut)) as (dv0 & _ & Hv).
      exists dv0. by rewrite validate_rut_dv_digits.
  - intros HK Hk Hne.
    destruct (normalize_rut_and_dv_digits ftfy rut dv HK Hk Hne Hdv)
      as (calc & Hc & Hn & Hv).
    exists calc. split; [exact Hn|]. split; [exact Hv|]. intros Hdiff.
    apply str_eqb_false in Hdiff. fold dv_clean in Hn. rewrite Hdiff in Hn.
    destruct (rut_dv_step_invalid ftfy row true stats _ _ _ Hn Hne Hdv)
      as (stats' & Hs & Hcount).
    exists stats'. split; [|done]. rewrite Hs.
    apply truthy_true in Hc. by rewrite Hc.
Qed.

Lemma rut_cell_with_letter_is_invalid_witness :
  ItauAuto.normalize_rut_and_dv None (py "12.345.678-K") (py "K")
  = Some (py "12345678K", py "K", [], false).
Proof.
  destruct (rut_cell_with_letter_is_invalid None
              (list_to_map [("RUT"%string, py "12.345.678-K"); ("DV"%string, py "K")])
              false ∅) as [H _]; [vm_compute; discriminate|].
  apply H. left. vm_compute. repeat (first [left; reflexivity | right]).
Defined.

(** ** N for Ñ *)

Section NForEne.

Import Re ItauUnified.

Lemma consumes_needs_char (ic : bool) (c : N) (r : regex) (st st1 : mstate) :
  consumes ic r st st1 -> needs_char c r = true ->
  exists a x b, m_rest st = a ++ x :: b ++ m_rest st1 /\ char_matches ic c x = true.
Proof.
  revert st st1. induction r as [|c'| | |r1 IH1 r2 IH2|r1 IH1 r2 IH2|lo hi r1 IH|i r1 IH];
    intros st st1; cbn [consumes needs_char]; try discriminate.
  - intros (x & rest & E & Hx & ->) ->%N.eqb_eq. exists [], x, []. by split.
  - intros (st' & H1 & H2) [Hn|Hn]%orb_true_iff.
    + destruct (IH1 _ _ H1 Hn) as (a & x & b & E & Hx).
      destruct (consumes_word ic r2 _ _ H2) as (w & Ew & _).
      exists a, x, (b ++ w). split; [|done]. by rewrite E, Ew, <- app_assoc.
    + destruct (consumes_word ic r1 _ _ H1) as (w & Ew & _).
      destruct (IH2 _ _ H2 Hn) as (a & x & b & E & Hx).
      exists (w ++ a), x, b. split; [|done]. by rewrite Ew, E, <- app_assoc.
  - intros [H|H] [Hn1 Hn2]%andb_true_iff; [by apply IH1|by apply IH2].
  - intros (n & Hlo & _ & Ht) [Hpos%Nat.ltb_lt Hn]%andb_true_iff.
    destruct n as [|n]; [lia|]. cbn [times] in Ht. destruct Ht as (st' & Hs & _ & Ht).
    destruct (IH _ _ Hs Hn) as (a & x & b & E & Hx).
    destruct (times_consumed (consumes ic r1) n st' st1 (consumes_word ic r1) Ht)
      as (w & Ew & _).
    exists a, x, (b ++ w). split; [|done]. by rewrite E, Ew, <- app_assoc.
  - intros (st' & H & ->) Hn. destruct (IH _ _ H Hn) as (a & x & b & E & Hx).
    by exists a, x, b.
Qed.

Lemma match_needs_char (ic : bool) (c : N) (r : regex) (text : pystr) (m : match_obj) :
  match_of text ic r m -> needs_char c r = true ->
  exists x, In x text /\ char_matches ic c x = true.
Proof.
  intros (st0 & st1 & Ht & _ & Hc & _) Hn.
  destruct (consumes_needs_char ic c r st0 st1 Hc Hn) as (a & x & b & E & Hx).
  exists x. split; [|done]. rewrite <- (take_drop (m_pos st0) text), <- Ht, E.
  apply in_app_iff. right. apply in_app_iff. right. by left.
Qed.

Lemma sub_needs_char (ic : bool) (c : N) (r : regex) (repl text : pystr) :
  needs_char c r = true -> (forall x, In x text -> char_matches ic c x = false) ->
  Re.sub ic r repl text = text.
Proof.
  intros Hn Hno. unfold Re.sub.
  destruct (finditer ic r text) as [|m rest] eqn:E; [reflexivity|]. exfalso.
  assert (Hm : In m (finditer ic r text)) by (rewrite E; by left).
  apply finditer_sound in Hm.
  destruct (match_needs_char ic c r text m Hm Hn) as (x & Hx & Hc).
  by rewrite (Hno x Hx) in Hc.
Qed.

Ltac fold_case_split x :=
  unfold fold_case; cbv zeta;
  let l := fresh "l" in
  let El := fresh "El" in
  remember (lower_char x) as l eqn:El; unfold lower_char in El;
  repeat match type of El with
         | context [if ?b then _ else _] => destruct b eqn:?
         end;
  subst l; split_ifs.

Lemma fold_case_n (x : N) : fold_case x = 0x6E -> x = 0x4E \/ x = 0x6E.
Proof. fold_case_split x; intros H; bool_to_prop; lia. Qed.

Lemma char_matches_n (x : N) : x <> 0x4E -> x <> 0x6E -> char_matches true 0x4E x = false.
Proof.
  intros H1 H2. unfold char_matches. apply N.eqb_neq. intros H.
  destruct (fold_case_n x); [by rewrite <- H|done|done].
Qed.

Lemma corrections_need_n :
  Forall (fun c : regex * pystr => needs_char 0x4E (fst c) = true) Impl.corrections.
Proof. apply List.Forall_forall, forallb_forall. vm_compute. reflexivity. Qed.

Lemma fix_n_to_ene_without_n (text : pystr) :
  ~ In 0x4E text -> ~ In 0x6E text -> Impl.fix_n_to_ene text = text.
Proof.
  intros HN Hn. unfold Impl.fix_n_to_ene. destruct (truthy text); [|done]. cbn [negb].
  induction corrections_need_n as [|[r repl] rest Hr _ IH]; [done|].
  cbn [fold_left]. rewrite (sub_needs_char true 0x4E r repl text Hr); [exact IH|].
  intros x Hx. apply char_matches_n; intros ->; done.
Qed.

Lemma fix_n_to_ene_valid_names :
  forallb (fun v => str_eqb (Impl.fix_n_to_ene v) v) (map py VALID_COMUNAS_names) = true.
Proof. vm_compute. reflexivity. Qed.

Lemma fix_n_to_ene_valid (v : pystr) : v ∈ VALID_COMUNAS -> Impl.fix_n_to_ene v = v.
Proof.
  intros Hv%valid_comuna_in. apply str_eqb_true.
  pose proof fix_n_to_ene_valid_names as H. rewrite forallb_forall in H. by apply H.
Qed.

Lemma process_pagare_comuna (ex : extractors) (text_pages : list pystr)
    (source_name : option pystr) :
  process_pagare ex text_pages source_name !! "COMUNA"%string
  = Some (fix_n_to_ene ex
            (fix_comuna_ocr ex
               (get_str (best_row "NOMBRE" (map (pagare_page_row ex) text_pages)) "COMUNA"))).
Proof.
  unfold process_pagare.
  destruct (extract_representantes_allpages ex text_pages) as [rep1 rep2]. reflexivity.
Qed.

Lemma process_credito_consumo_comuna (ex : extractors) (text_pages : list pystr)
    (source_name : option pystr) :
  process_credito_consumo ex text_pages source_name !! "COMUNA"%string
  = Some (fix_n_to_ene ex
            (fix_comuna_ocr ex
               (or_else (id_comuna (extract_cc_identity_block ex text_pages)) []))).
Proof.
  unfold process_credito_consumo.
  destruct (extract_representantes_allpages ex text_pages) as [rep1 rep2]. reflexivity.
Qed.

Lemma process_document_unified_comuna (ex : extractors) (text_pages : list pystr)
    (doc_type : pystr) (source_name : option pystr) :
  exists raw,
    process_document_unified ex text_pages doc_type source_name !! "COMUNA"%string
    = Some (fix_n_to_ene ex (fix_comuna_ocr ex raw)).
Proof.
  unfold process_document_unified. destruct (str_eqb doc_type (py "PP")).
  - eexists. apply process_pagare_comuna.
  - eexists. apply process_credito_consumo_comuna.
Qed.

End NForEne.

(** X23.  [fix_n_to_ene] returns a text without the letters N and n as it
    is, and it returns every valid comuna name as it is.  So the column
    COMUNA of a row, of either document type, is the comuna that
    [fix_comuna_ocr] returned whenever that one is a valid name: the pass that
    writes Ñ for N does not undo the correction of the comuna. *)
Theorem fix_n_to_ene_keeps_valid_comuna
    (iter_set : gset pystr -> list pystr) (ex : ItauUnified.extractors)
    (text_pages : list pystr) (doc_type : pystr) (source_name : option pystr) :
  (forall text : pystr,
      ~ In 0x4E text -> ~ In 0x6E text -> ItauUnified.Impl.fix_n_to_ene text = text)
  /\ (forall v : pystr, v ∈ VALID_COMUNAS -> ItauUnified.Impl.fix_n_to_ene v = v)
  /\ (ItauUnified.fix_comuna_ocr ex = fix_comuna_ocr iter_set ->
      ItauUnified.fix_n_to_ene ex = ItauUnified.Impl.fix_n_to_ene ->
      exists raw : pystr,
        let fixed := fix_comuna_ocr iter_set raw in
        ItauUnified.process_document_unified ex text_pages doc_type source_name
          !! "COMUNA"%string = Some (ItauUnified.Impl.fix_n_to_ene fixed)
        /\ (fixed ∈ VALID_COMUNAS ->
            ItauUnified.process_document_unified ex text_pages doc_type source_name
              !! "COMUNA"%string = Some fixed)).
Proof.
  split; [apply fix_n_to_ene_without_n|]. split; [apply fix_n_to_ene_valid|].
  intros Hc Hn.
  destruct (process_document_unified_comuna ex text_pages doc_type source_name)
    as (raw & Hrow).
  exists raw. cbv zeta. rewrite Hrow, Hc, Hn. split; [done|].
  intros Hv. by rewrite fix_n_to_ene_valid.
Qed.

Lemma fix_n_to_ene_keeps_valid_comuna_witness :
  exists raw : pystr,
    let fixed := fix_comuna_ocr elements raw in
    ItauUnified.process_document_unified comuna_extractors [py " Temuk0 "] (py "PP") None
      !! "COMUNA"%string = Some (ItauUnified.Impl.fix_n_to_ene fixed)
    /\ (fixed ∈ VALID_COMUNAS ->
        ItauUnified.process_document_unified comuna_extractors [py " Temuk0 "] (py "PP") None
          !! "COMUNA"%string = Some fixed).
Proof.
  apply (proj2 (proj2 (fix_n_to_ene_keeps_valid_comuna elements comuna_extractors
                         [py " Temuk0 "] (py "PP") None)));
    reflexivity.
Defined.
